(** * BugSniper Pro: a shallow embedding of the dashboard code and of the
    job-orchestration core, with the properties stated about them.

    Layout.  Part I holds the definitions, one module per source unit:
    - [JobDetails]        the job page (component [JobDetails], both
                          revisions);
    - [RepositoriesPage]  the repository selection page (component
                          [RepositoriesPage], both revisions);
    - [DiffViewer]        the patch viewer ([parsePatch]);
    - [BugsCard]          the "Bugs Detected" card of the job page;
    - [Repositories]      the earlier page of repositories (component
                          [Repositories]);
    - [Navigation]        the navigation bar (component [Navigation]);
    - [Dashboard]         the dashboard (component [Dashboard]);
    - [Core]              the job store, webhook verifier and approval
                          gate, which the sources do not contain.
    Part II holds the lemmas and theorems, in the same order.

    Conventions.  A component is embedded as the functions of its
    handlers and of what it renders: a handler takes the state cells of
    the component and the backend, and returns the cells and the backend
    afterwards together with what it sent or showed.  [fetch] is a
    parameter: a backend state and, per endpoint, a function from that
    state to the outcome of the call and the next state.  A string is the
    sequence of its bytes; the code cuts strings only at ASCII
    characters, where bytes and UTF-16 units agree. *)

From Stdlib Require Import ZArith Ascii String List Lia.
From stdpp Require Import base decidable option list strings pretty gmap.

Local Open Scope string_scope.
Local Open Scope Z_scope.

Set Warnings "-clear-no-such-hyp".

(* ===================================================================== *)
(** * Part I. Definitions                                                 *)
(* ===================================================================== *)

(** Truthiness of a JavaScript string: every string but the empty one. *)
Definition truthy_string (s : string) : bool :=
  match s with EmptyString => false | String _ _ => true end.

(** Truthiness of an optional property [p?: T]: absent ([undefined]) is
    falsy, a present value is judged by [t]. *)
Definition truthy_opt {A : Type} (t : A -> bool) (o : option A) : bool :=
  match o with None => false | Some a => t a end.

(** [str.split(sep)] for a one-character separator: the pieces between
    the separators, in order; never an empty list. *)
Fixpoint split_on (sep : ascii) (str : string) : list string :=
  match str with
  | EmptyString => [EmptyString]
  | String c rest =>
      if Ascii.eqb c sep then EmptyString :: split_on sep rest
      else match split_on sep rest with
           | [] => [String c EmptyString]
           | piece :: more => String c piece :: more
           end
  end.

(** The character [c] occurs in [str]. *)
Fixpoint occurs (c : ascii) (str : string) : bool :=
  match str with
  | EmptyString => false
  | String d rest => Ascii.eqb d c || occurs c rest
  end.

Module JobDetails.

(** The members of the union type
    'pending' | 'running' | 'completed' | 'failed' | 'ready_for_review'
    | 'approved' that the [Job] interface of the page declares for
    [status].  The type is erased when the page runs: the status of a
    job the page holds is the string the response carried (see [Job]). *)
Inductive JobStatus : Type :=
  | pending | running | completed | failed | ready_for_review | approved.

#[export] Instance JobStatus_eq_dec : EqDecision JobStatus.
Proof. solve_decision. Defined.

(** The string literal each member of the union stands for.  A member
    written where a string is expected stands for its literal. *)
Definition status_string (s : JobStatus) : string :=
  match s with
  | pending => "pending"
  | running => "running"
  | completed => "completed"
  | failed => "failed"
  | ready_for_review => "ready_for_review"
  | approved => "approved"
  end.

Coercion status_string : JobStatus >-> string.

(** The six state names of the orchestrator's state machine as the
    specification lists them (section 3, "State"). *)
Definition spec_state_names : list string :=
  ["pending"; "running_tests"; "analyzing"; "ready_for_review"; "failed";
   "approved"].

(** The members of the union type, in the order of the interface. *)
Definition status_names : list string :=
  ["pending"; "running"; "completed"; "failed"; "ready_for_review";
   "approved"].

(** The members of the union type of the earliest revision of the page,
    'pending' | 'running' | 'completed' | 'failed'. *)
Definition earliest_status_names : list string :=
  ["pending"; "running"; "completed"; "failed"].

(** The status literals the page compares [job.status] with. *)
Definition compared_status_names : list string :=
  ["completed"; "failed"; "ready_for_review"; "approved"].

(** The fields of [static_analysis_fallback] that the page reads. *)
Record StaticFallback : Type := mkStaticFallback {
  fb_total_tests : Z;
  fb_failed_tests : Z
}.

(** [PytestResult] / [TestSpriteResult].  [requires_manual_config] and
    [static_analysis_fallback] are optional; the first revision reads them
    through [as any], the second declares them.  [execution_time] is a
    float that no rendering path reads and is left out. *)
Record TestResult : Type := mkTestResult {
  passed : bool;
  total_tests : Z;
  failed_tests : Z;
  diagnostics : list string;
  error_details : option string;
  requires_manual_config : option bool;
  static_analysis_fallback : option StaticFallback
}.

(** [GeminiAnalysis] without its float [confidence_score]. *)
Record GeminiAnalysis : Type := mkGeminiAnalysis {
  issue_summary : string;
  bugs_detected : list string;
  optimizations : list string;
  patch : string;
  deployable_status : string
}.

(** [Commit]. *)
Record Commit : Type := mkCommit {
  sha : string;
  message : string;
  author : string;
  author_email : string;
  timestamp : string;
  url : string
}.

(** The job object the page holds, the body of an ok response.  The
    first revision declares and reads [pytest_result], the second
    [testsprite_result]; an object can carry either, both or none, so
    both are properties here.  [status] is declared with the union type
    above and is not checked: it is the string the response carried. *)
Record Job : Type := mkJob {
  id : string;
  commit_sha : string;
  commit_message : option string;
  status : string;
  pytest_result : option TestResult;
  testsprite_result : option TestResult;
  gemini_analysis : option GeminiAnalysis;
  commit : option Commit;
  branch_name : option string;
  pr_url : option string;
  pr_number : option Z
}.

(** What the test-results card shows. *)
Inductive Badge : Type := PASSED | FAILED.

Inductive TestPanel : Type :=
  | NoTestResults
      (* "No test results available" *)
  | ConfigurationRequired (fallback : option (Z * Z))
      (* "Pytest Configuration Required"; the fallback, when present, as
         "Found <failed> issues in <total> files" *)
  | AnalysisRunning
      (* "TestSprite Analysis Running" *)
  | NormalResults (badge : Badge) (total failed : Z)
                  (diag : option string) (err : option string).
      (* the PASSED / FAILED badge, "<total> tests, <failed> failed", the
         joined diagnostics and the error details *)

(** [arr.join('\n')]. *)
Fixpoint join_lines (l : list string) : string :=
  match l with
  | [] => ""
  | [x] => x
  | x :: rest => x ++ String "010"%char (join_lines rest)
  end.

(** The normal branch, shared by both revisions. *)
Definition renderNormal (r : TestResult) : TestPanel :=
  NormalResults
    (if passed r then PASSED else FAILED)
    (total_tests r) (failed_tests r)
    (match diagnostics r with
     | [] => None
     | _ :: _ => Some (join_lines (diagnostics r))
     end)
    (match error_details r with
     | Some e => if truthy_string e then Some e else None
     | None => None
     end).

(** The two numbers of "Found <failed> issues in <total> files", when
    the result has a [static_analysis_fallback]. *)
Definition fallback_counts (r : TestResult) : option (Z * Z) :=
  match static_analysis_fallback r with
  | Some f => Some (fb_failed_tests f, fb_total_tests f)
  | None => None
  end.

(** First revision: the "Pytest Results" card, from [job.pytest_result]. *)
Definition renderPytestResults (job : Job) : TestPanel :=
  match pytest_result job with
  | None => NoTestResults
  | Some r =>
      if truthy_opt (fun b : bool => b) (requires_manual_config r) then
        ConfigurationRequired (fallback_counts r)
      else renderNormal r
  end.

(** Second revision: the "TestSprite Results" card, from
    [job.testsprite_result]. *)
Definition renderTestSpriteResults (job : Job) : TestPanel :=
  match testsprite_result job with
  | None => NoTestResults
  | Some r =>
      if truthy_opt (fun b : bool => b) (requires_manual_config r) then AnalysisRunning
      else renderNormal r
  end.

(** The badge a panel presents as the test outcome, if it presents one. *)
Definition outcome_badge (p : TestPanel) : option Badge :=
  match p with
  | NormalResults b _ _ _ _ => Some b
  | _ => None
  end.

(** [job.status === 'ready_for_review' && job.gemini_analysis?.patch]:
    the condition under which the "Approve & Create PR" button exists. *)
Definition approveButtonShown (job : Job) : bool :=
  bool_decide (status job = ready_for_review)
  && truthy_opt (fun a => truthy_string (patch a)) (gemini_analysis job).

(** ** The approve handler *)

(** The cells of the page ([useState]). *)
Record PageState : Type := mkPageState {
  job : option Job;
  loading : bool;
  approving : bool
}.

(** How [GET /api/jobs/<id>] ends for [fetchJob]: the promise rejects; a
    response that is not ok; or an ok response whose [json()] rejects
    ([None]) or yields the job. *)
Inductive JobOutcome : Type :=
  | JobRejects
  | JobNotOk
  | JobOk (data : option Job).

(** How [POST /api/jobs/<id>/approve] ends: the promise rejects; an ok
    response whose [json()] rejects ([None]) or yields an object with an
    optional [pr_url]; or a response that is not ok whose [json()]
    rejects or yields an object with an optional [detail]. *)
Inductive ApproveOutcome : Type :=
  | ApproveRejects
  | ApproveOk (result : option (option string))
  | ApproveNotOk (error : option (option string)).

(** The requests the page sends, by job id. *)
Inductive Request : Type :=
  | GetJob (jobId : string)
  | PostApprove (jobId : string).

(** The three alerts of [handleApprove]. *)
Inductive Alert : Type :=
  | PullRequestCreated (prUrl : string)
      (* "Pull request created successfully! ... PR URL: <prUrl>" *)
  | FailedToApprove (detail : string)
      (* "Failed to approve job: <detail>" *)
  | FailedTryAgain.
      (* "Failed to approve job. Please try again." *)

(** [value || fallback] for an optional string. *)
Definition or_else (value : option string) (fallback : string) : string :=
  match value with
  | Some v => if truthy_string v then v else fallback
  | None => fallback
  end.

Section Handlers.

(** The backend as [fetch] reaches it. *)
Variable Server : Type.
Variable get_job : string -> Server -> JobOutcome * Server.
Variable post_approve : string -> Server -> ApproveOutcome * Server.

(** [fetchJob]: the job is replaced only by the body of an ok response. *)
Definition fetchJob (jobId : string) (page : PageState) (srv : Server)
    : PageState * Server :=
  let '(outcome, srv') := get_job jobId srv in
  let job' :=
    match outcome with
    | JobOk (Some data) => Some data
    | JobOk None | JobNotOk | JobRejects => job page
    end in
  (mkPageState job' false (approving page), srv').

(** [handleApprove]: the page afterwards, the server, the requests sent
    and the alerts shown. *)
Definition handleApprove (page : PageState) (srv : Server)
    : PageState * Server * list Request * list Alert :=
  match job page with
  | None => (page, srv, [], [])
  | Some j =>
      let page1 := mkPageState (job page) (loading page) true in
      let '(outcome, srv1) := post_approve (id j) srv in
      let done (pg : PageState) := mkPageState (job pg) (loading pg) false in
      match outcome with
      | ApproveOk (Some result) =>
          let '(page2, srv2) := fetchJob (id j) page1 srv1 in
          (done page2, srv2, [PostApprove (id j); GetJob (id j)],
           [PullRequestCreated (or_else result "Check your repository")])
      | ApproveNotOk (Some error) =>
          (done page1, srv1, [PostApprove (id j)],
           [FailedToApprove (or_else error "Unknown error")])
      | ApproveOk None | ApproveNotOk None | ApproveRejects =>
          (done page1, srv1, [PostApprove (id j)], [FailedTryAgain])
      end
  end.

(** A click on "Approve & Create PR": the button is there when the page
    shows a job that passes [approveButtonShown], and it is disabled
    while [approving]. *)
Definition clickApprove (page : PageState) (srv : Server)
    : PageState * Server * list Request * list Alert :=
  match job page with
  | Some j =>
      if negb (loading page) && approveButtonShown j && negb (approving page)
      then handleApprove page srv
      else (page, srv, [], [])
  | None => (page, srv, [], [])
  end.

End Handlers.

(** ** The header of the page *)

(** [str.replace(pattern, replacement)] for a pattern of one character:
    the first occurrence is replaced, the others stay. *)
Fixpoint replace_first (pattern replacement : ascii) (str : string) : string :=
  match str with
  | EmptyString => EmptyString
  | String c rest =>
      if Ascii.eqb c pattern then String replacement rest
      else String c (replace_first pattern replacement rest)
  end.

(** [toUpperCase] of one ASCII character. *)
Definition upper_ascii (c : ascii) : ascii :=
  let n := N_of_ascii c in
  if (97 <=? n)%N && (n <=? 122)%N then ascii_of_N (n - 32) else c.

(** [str.toUpperCase()] for a string of ASCII characters, as the names
    of the statuses are. *)
Fixpoint toUpperCase (str : string) : string :=
  match str with
  | EmptyString => EmptyString
  | String c rest => String (upper_ascii c) (toUpperCase rest)
  end.

(** The text of the status badge, for the status the job carries:
    [job.status.replace('_', ' ').toUpperCase()]. *)
Definition statusLabel (status : string) : string :=
  toUpperCase (replace_first "_" " " status).

(** The colour classes of the status badge, for the status the job
    carries: a chain of [job.status === '...'] with a last branch for
    every other string. *)
Definition statusBadgeClass (status : string) : string :=
  if bool_decide (status = "completed") then "bg-green-100 text-green-800"
  else if bool_decide (status = "failed") then "bg-red-100 text-red-800"
  else if bool_decide (status = "ready_for_review") then "bg-blue-100 text-blue-800"
  else if bool_decide (status = "approved") then "bg-purple-100 text-purple-800"
  else "bg-yellow-100 text-yellow-800".

(** What the component returns for its cells: the spinner while
    [loading], "Job not found" without a job, the page of the job
    otherwise. *)
Inductive PageView : Type :=
  | Spinner
  | JobNotFound
  | JobPage (job : Job).

Definition pageView (page : PageState) : PageView :=
  if loading page then Spinner
  else match job page with
       | None => JobNotFound
       | Some j => JobPage j
       end.

(** The cells of the component when it is mounted. *)
Definition initial_page : PageState := mkPageState None true false.

(** ** Example data *)

(** A failing run that could not be executed for real: one test counted,
    one failed, the fallback of the static check attached. *)
Definition degraded_result : TestResult :=
  mkTestResult false 1 1 [] None (Some true) (Some (mkStaticFallback 4 2)).

(** A job that carries that result under both names. *)
Definition degraded_job : Job :=
  mkJob "job-1" "abc123" None completed
        (Some degraded_result) (Some degraded_result)
        None None None None None.

(** A job whose status is a state name of the specification that the
    union type does not have. *)
Definition analyzing_job : Job :=
  mkJob "job-3" "0a1b2c" None "analyzing" None None None None None None None.

(** A job that waits for review with a patch, the page that shows it,
    and a server without state that accepts the approval and then
    answers the refresh with a response that is not ok. *)
Definition review_job : Job :=
  mkJob "job-2" "def456" None ready_for_review None None
        (Some (mkGeminiAnalysis "eval on input" ["eval on input"] []
                                "--- a/app.py" "not_deployable"))
        None None None None.

Definition review_page : PageState := mkPageState (Some review_job) false false.

Definition answer_job (jobId : string) (s : unit) : JobOutcome * unit :=
  (JobNotOk, s).

Definition answer_approve (jobId : string) (s : unit) : ApproveOutcome * unit :=
  (ApproveOk (Some (Some "https://github.com/acme/widgets/pull/1")), s).

End JobDetails.

Module RepositoriesPage.

(** The page's [Repository] (an entry of [/api/repositories]). *)
Record Repository : Type := mkRepository {
  id : Z;
  name : string;
  full_name : string;
  description : string;
  private : bool;
  language : string;
  updated_at : string;
  is_monitored : bool
}.

(** The page's [GitHubRepo] (an entry of [/api/github/repositories]). *)
Record GitHubRepo : Type := mkGitHubRepo {
  gh_id : Z;
  gh_name : string;
  gh_full_name : string;
  gh_description : string;
  gh_private : bool;
  gh_language : string;
  gh_updated_at : string
}.

(** A JavaScript [Set<string>] is kept as the list of its elements in
    insertion order. [new Set(xs)] keeps the first occurrence of each
    element. *)
Fixpoint new_Set_from (seen xs : list string) : list string :=
  match xs with
  | [] => []
  | x :: rest =>
      if bool_decide (x ∈ seen) then new_Set_from seen rest
      else x :: new_Set_from (x :: seen) rest
  end.

Definition new_Set (xs : list string) : list string := new_Set_from [] xs.

(** [s.has(x)]. *)
Definition has (s : list string) (x : string) : bool := bool_decide (x ∈ s).

(** [str.split('/')]. *)
Definition split_slash (str : string) : list string := split_on "/"%char str.

(** The component's state ([useState] cells). *)
Record PageState : Type := mkPageState {
  repos : list GitHubRepo;
  monitoredRepos : list Repository;
  selectedRepos : list string;
  loading : bool;
  saving : bool;
  error : option string;
  successMessage : option string
}.

(** What a [catch] clause receives: [Some m] for an [Error] with message
    [m], [None] for any other thrown value. *)
Definition Thrown : Type := option string.

(** How a [GET] of a list ends: the promise rejects; a response arrives
    that is not ok, with its status; or an ok response arrives whose
    [json()] rejects or yields the list. *)
Inductive GetOutcome (A : Type) : Type :=
  | GetRejects (t : Thrown)
  | GetNotOk (status : Z)
  | GetOk (payload : Thrown + A).
Arguments GetRejects {A} t.
Arguments GetNotOk {A} status.
Arguments GetOk {A} payload.

(** How a [POST] or [DELETE] ends: the promise rejects; the response is
    ok; or it is not ok and [json()] rejects or yields an object whose
    [detail] is a string or missing. *)
Inductive MutOutcome : Type :=
  | MutRejects (t : Thrown)
  | MutOk
  | MutNotOk (errorData : Thrown + option string).

(** The requests the page can send. *)
Inductive Request : Type :=
  | GetRepositories                                   (* GET /api/repositories *)
  | GetGitHubRepositories                             (* GET /api/github/repositories *)
  | PostMonitor (owner : string) (repo : option string)
      (* POST /api/repositories/monitor, body {owner, repo} *)
  | DeleteUnmonitor (id : Z).
      (* DELETE /api/repositories/<id>/unmonitor *)

(** A request that changes what is monitored. *)
Definition is_mutation (r : Request) : bool :=
  match r with
  | PostMonitor _ _ | DeleteUnmonitor _ => true
  | GetRepositories | GetGitHubRepositories => false
  end.

(** [detail || 'Unknown error']. *)
Definition detail_or_unknown (detail : option string) : string :=
  match detail with
  | Some d => if truthy_string d then d else "Unknown error"
  | None => "Unknown error"
  end.

(** [err instanceof Error ? err.message : fallback]. *)
Definition message_or (fallback : string) (t : Thrown) : string :=
  match t with Some m => m | None => fallback end.

Definition setLoading (b : bool) (st : PageState) : PageState :=
  mkPageState (repos st) (monitoredRepos st) (selectedRepos st) b
              (saving st) (error st) (successMessage st).

Definition setSaving (b : bool) (st : PageState) : PageState :=
  mkPageState (repos st) (monitoredRepos st) (selectedRepos st) (loading st)
              b (error st) (successMessage st).

Definition setError (e : option string) (st : PageState) : PageState :=
  mkPageState (repos st) (monitoredRepos st) (selectedRepos st) (loading st)
              (saving st) e (successMessage st).

Definition setSuccessMessage (m : option string) (st : PageState) : PageState :=
  mkPageState (repos st) (monitoredRepos st) (selectedRepos st) (loading st)
              (saving st) (error st) m.

Definition setRepos (l : list GitHubRepo) (st : PageState) : PageState :=
  mkPageState l (monitoredRepos st) (selectedRepos st) (loading st)
              (saving st) (error st) (successMessage st).

Definition setMonitoredRepos (l : list Repository) (st : PageState) : PageState :=
  mkPageState (repos st) l (selectedRepos st) (loading st)
              (saving st) (error st) (successMessage st).

Definition setSelectedRepos (l : list string) (st : PageState) : PageState :=
  mkPageState (repos st) (monitoredRepos st) l (loading st)
              (saving st) (error st) (successMessage st).

(** [handleRepoToggle]. *)
Definition handleRepoToggle (fullName : string) (st : PageState) : PageState :=
  if has (selectedRepos st) fullName
  then setSelectedRepos (filter (λ x, x ≠ fullName) (selectedRepos st)) st
  else setSelectedRepos (selectedRepos st ++ [fullName])%list st.

(** The sets [handleSaveSelection] computes before it sends anything. *)
Definition currentlyMonitored (st : PageState) : list string :=
  new_Set (map full_name (monitoredRepos st)).

Definition toAdd (st : PageState) : list string :=
  filter (λ name, name ∉ currentlyMonitored st) (selectedRepos st).

Definition toRemove (st : PageState) : list string :=
  filter (λ name, name ∉ selectedRepos st) (currentlyMonitored st).

(** The request one element of [toAdd] is turned into:
    [const [owner, repoName] = fullName.split('/')]. *)
Definition monitor_request (fullName : string) : Request :=
  let pieces := split_slash fullName in
  PostMonitor (List.hd EmptyString pieces) (pieces !! 1%nat).

(** [monitoredRepos.find(r => r.full_name === fullName)]. *)
Definition find_repo (l : list Repository) (fullName : string) : option Repository :=
  List.find (λ r, bool_decide (full_name r = fullName)) l.

(** The request one element of [toRemove] is turned into, when the
    repository is found. *)
Definition unmonitor_request (l : list Repository) (fullName : string) : option Request :=
  match find_repo l fullName with
  | Some repo => Some (DeleteUnmonitor (id repo))
  | None => None
  end.

Section Handlers.

(** The backend as [fetch] reaches it: a state and one operation per
    endpoint, each giving the outcome of the call and the next state. *)
Variable Server : Type.
Variable get_repositories : Server -> GetOutcome (list Repository) * Server.
Variable get_github_repositories : Server -> GetOutcome (list GitHubRepo) * Server.
Variable post_monitor : string -> option string -> Server -> MutOutcome * Server.
Variable delete_unmonitor : Z -> Server -> MutOutcome * Server.

(** The result of running a piece of the handler: a value or what was
    thrown, the server afterwards, and the requests sent, oldest first. *)
Definition Ran (A : Type) : Type := (Thrown + A) * Server * list Request.

(** What a response that is not ok makes the loops throw. *)
Definition failure (verb fullName : string) (errorData : Thrown + option string) : Thrown :=
  match errorData with
  | inl t => t
  | inr detail =>
      Some ("Failed to " ++ verb ++ " " ++ fullName ++ ": " ++ detail_or_unknown detail)
  end.

(** [for (const fullName of toAdd) { ... }]. *)
Fixpoint addLoop (names : list string) (addedCount : nat) (srv : Server)
    (sent : list Request) : Ran nat :=
  match names with
  | [] => (inr addedCount, srv, sent)
  | fullName :: rest =>
      let pieces := split_slash fullName in
      let owner := List.hd EmptyString pieces in
      let repoName := pieces !! 1%nat in
      let '(outcome, srv') := post_monitor owner repoName srv in
      let sent' := (sent ++ [monitor_request fullName])%list in
      match outcome with
      | MutOk => addLoop rest (S addedCount) srv' sent'
      | MutRejects t => (inl t, srv', sent')
      | MutNotOk errorData => (inl (failure "add" fullName errorData), srv', sent')
      end
  end.

(** [for (const fullName of toRemove) { ... }]; [monitored] is the
    [monitoredRepos] the handler was created with. *)
Fixpoint removeLoop (monitored : list Repository) (names : list string)
    (removedCount : nat) (srv : Server) (sent : list Request) : Ran nat :=
  match names with
  | [] => (inr removedCount, srv, sent)
  | fullName :: rest =>
      match find_repo monitored fullName with
      | None => removeLoop monitored rest removedCount srv sent
      | Some repo =>
          let '(outcome, srv') := delete_unmonitor (id repo) srv in
          let sent' := (sent ++ [DeleteUnmonitor (id repo)])%list in
          match outcome with
          | MutOk => removeLoop monitored rest (S removedCount) srv' sent'
          | MutRejects t => (inl t, srv', sent')
          | MutNotOk errorData =>
              (inl (failure "remove" fullName errorData), srv', sent')
          end
      end
  end.

(** The message shown after a refresh that did not throw. *)
Definition success_text (addedCount removedCount : nat) : string :=
  if bool_decide (0 < addedCount)%nat || bool_decide (0 < removedCount)%nat
  then "Successfully updated monitoring: " ++ pretty addedCount ++
       " repositories added, " ++ pretty removedCount ++ " repositories removed"
  else "No changes were made".

(** [fetchRepositories], current revision.  Both requests are sent before
    either answer is read ([Promise.all]); when both promises reject, the
    rejection of the first one sent is the one reported. *)
Definition fetchRepositories (st : PageState) (srv : Server)
    : PageState * Server * list Request :=
  let st := setLoading true st in
  let '(monitoredResponse, srv) := get_repositories srv in
  let '(githubResponse, srv) := get_github_repositories srv in
  let sent := [GetRepositories; GetGitHubRepositories] in
  let catch (t : Thrown) :=
    setError (Some (message_or "Failed to fetch repositories" t)) st in
  let st' :=
    match monitoredResponse, githubResponse with
    | GetRejects t, _ => catch t
    | _, GetRejects t => catch t
    | GetNotOk sm, GetNotOk sg =>
        if bool_decide (sm = 401) || bool_decide (sg = 401)
        then setMonitoredRepos [] (setRepos [] (setError (Some
          "Please authenticate with GitHub to view your repositories. Click the GitHub login button to continue.") st))
        else catch (Some "Failed to fetch monitored repositories")
    | GetNotOk sm, GetOk _ =>
        if bool_decide (sm = 401)
        then setMonitoredRepos [] (setRepos [] (setError (Some
          "Please authenticate with GitHub to view your repositories. Click the GitHub login button to continue.") st))
        else catch (Some "Failed to fetch monitored repositories")
    | GetOk _, GetNotOk sg =>
        if bool_decide (sg = 401)
        then setMonitoredRepos [] (setRepos [] (setError (Some
          "Please authenticate with GitHub to view your repositories. Click the GitHub login button to continue.") st))
        else catch (Some "Failed to fetch GitHub repositories")
    | GetOk (inl t), GetOk _ => catch t
    | GetOk (inr _), GetOk (inl t) => catch t
    | GetOk (inr monitored), GetOk (inr githubRepos) =>
        setSelectedRepos (new_Set (map full_name monitored))
          (setRepos githubRepos (setMonitoredRepos monitored st))
    end in
  (setLoading false st', srv, sent).

(** [fetchRepositories], earlier revision: the GitHub list is asked for
    first and a 401 is not told apart. *)
Definition fetchRepositories_v1 (st : PageState) (srv : Server)
    : PageState * Server * list Request :=
  let st := setLoading true st in
  let '(githubResponse, srv) := get_github_repositories srv in
  let '(monitoredResponse, srv) := get_repositories srv in
  let sent := [GetGitHubRepositories; GetRepositories] in
  let catch (t : Thrown) :=
    setError (Some (message_or "Failed to fetch repositories" t)) st in
  let st' :=
    match githubResponse, monitoredResponse with
    | GetRejects t, _ => catch t
    | _, GetRejects t => catch t
    | GetNotOk _, _ | _, GetNotOk _ => catch (Some "Failed to fetch repositories")
    | GetOk (inl t), GetOk _ => catch t
    | GetOk (inr _), GetOk (inl t) => catch t
    | GetOk (inr githubRepos), GetOk (inr monitored) =>
        setSelectedRepos (new_Set (map full_name monitored))
          (setMonitoredRepos monitored (setRepos githubRepos st))
    end in
  (setLoading false st', srv, sent).

(** [handleSaveSelection], over the [fetchRepositories] of its revision.
    [monitoredRepos] and [selectedRepos] are read from the state the
    handler was created in.  The timer that clears the message five
    seconds later is outside this model. *)
Definition handleSaveSelectionWith
    (refresh : PageState -> Server -> PageState * Server * list Request)
    (st : PageState) (srv : Server) : PageState * Server * list Request :=
  let catch (t : Thrown) (cur : PageState) :=
    setSaving false (setError (Some (message_or "Failed to save selection" t)) cur) in
  let st1 := setSuccessMessage None (setError None (setSaving true st)) in
  match addLoop (toAdd st) 0 srv [] with
  | (inl t, srv1, sent1) => (catch t st1, srv1, sent1)
  | (inr addedCount, srv1, sent1) =>
      match removeLoop (monitoredRepos st) (toRemove st) 0 srv1 sent1 with
      | (inl t, srv2, sent2) => (catch t st1, srv2, sent2)
      | (inr removedCount, srv2, sent2) =>
          let '(st2, srv3, sent3) := refresh st1 srv2 in
          (setSaving false
             (setSuccessMessage (Some (success_text addedCount removedCount)) st2),
           srv3, (sent2 ++ sent3)%list)
      end
  end.

Definition handleSaveSelection := handleSaveSelectionWith fetchRepositories.
Definition handleSaveSelection_v1 := handleSaveSelectionWith fetchRepositories_v1.

End Handlers.

(** The promise of a [GET] rejected: there is no response. *)
Definition rejected {A : Type} (o : GetOutcome A) : bool :=
  match o with
  | GetRejects _ => true
  | GetNotOk _ | GetOk _ => false
  end.

(** [response.status === 401] for the response of a [GET]; an ok
    response has a status from 200 to 299. *)
Definition status_is_401 {A : Type} (o : GetOutcome A) : bool :=
  match o with
  | GetNotOk status => bool_decide (status = 401)
  | GetRejects _ | GetOk _ => false
  end.

(** The message shown when a response is a 401. *)
Definition authenticate_message : string :=
  "Please authenticate with GitHub to view your repositories. Click the GitHub login button to continue.".

(** "Select All":
    [setSelectedRepos(new Set(repos.map(repo => repo.full_name)))]. *)
Definition selectAll (st : PageState) : PageState :=
  setSelectedRepos (new_Set (map gh_full_name (repos st))) st.

(** "Clear All": [setSelectedRepos(new Set())]. *)
Definition clearAll (st : PageState) : PageState := setSelectedRepos [] st.

(** Whether the checkbox of a row is checked:
    [selectedRepos.has(repo.full_name)]. *)
Definition isSelected (st : PageState) (repo : GitHubRepo) : bool :=
  has (selectedRepos st) (gh_full_name repo).

(** The monitor and unmonitor requests the two lists call for, in the
    order the loops send them. *)
Definition planned_requests (st : PageState) : list Request :=
  (map monitor_request (toAdd st)
   ++ omap (unmonitor_request (monitoredRepos st)) (toRemove st))%list.

(** ** Example data *)

Definition widgets : Repository :=
  mkRepository 7 "widgets" "acme/widgets" "" false "Python"
               "2024-05-01T10:00:00Z" true.

Definition widgets_on_github : GitHubRepo :=
  mkGitHubRepo 7 "widgets" "acme/widgets" "" false "Python"
               "2024-05-01T10:00:00Z".

(** The page as [fetchRepositories] leaves it when one repository is
    monitored. *)
Definition saved_page : PageState :=
  mkPageState [widgets_on_github] [widgets] ["acme/widgets"]
              false false None None.

(** A server without state that answers every call. *)
Definition answer_monitored (s : unit) : GetOutcome (list Repository) * unit :=
  (GetOk (inr [widgets]), s).
Definition answer_github (s : unit) : GetOutcome (list GitHubRepo) * unit :=
  (GetOk (inr [widgets_on_github]), s).
Definition answer_monitor (owner : string) (repo : option string) (s : unit)
    : MutOutcome * unit := (MutOk, s).
Definition answer_unmonitor (id : Z) (s : unit) : MutOutcome * unit := (MutOk, s).

(** The page of one monitored repository with a second one selected. *)
Definition gadgets_on_github : GitHubRepo :=
  mkGitHubRepo 8 "gadgets" "acme/gadgets" "" false "Go" "2024-05-02T10:00:00Z".

Definition edited_page : PageState :=
  mkPageState [widgets_on_github; gadgets_on_github] [widgets]
              ["acme/widgets"; "acme/gadgets"] false false None None.

End RepositoriesPage.

Module DiffViewer.

(** The line feed, the separator of [patchContent.split('\n')]. *)
Definition LF : ascii := "010"%char.

(** [str.substring(n)]: the string without its first [n] characters. *)
Fixpoint substring_from (n : nat) (str : string) : string :=
  match n, str with
  | O, _ => str
  | S _, EmptyString => EmptyString
  | S m, String _ rest => substring_from m rest
  end.

(** [line.startsWith('--- a/') || line.startsWith('+++ b/')]. *)
Definition is_header (line : string) : bool :=
  String.prefix "--- a/" line || String.prefix "+++ b/" line.

(** [line.substring(6)]. *)
Definition header_name (line : string) : string := substring_from 6 line.

(** [files]: the own properties of the object literal, in the order they
    were created, each holding an array of lines. *)
Definition Files : Type := list (string * list string).

(** The own property [name], if there is one. *)
Fixpoint own (files : Files) (name : string) : option (list string) :=
  match files with
  | [] => None
  | (k, v) :: rest => if bool_decide (k = name) then Some v else own rest name
  end.

(** The properties an object literal inherits from [Object.prototype];
    each of them reads as a truthy value. *)
Definition inherited_keys : list string :=
  ["constructor"; "__defineGetter__"; "__defineSetter__"; "hasOwnProperty";
   "__lookupGetter__"; "__lookupSetter__"; "isPrototypeOf";
   "propertyIsEnumerable"; "toString"; "valueOf"; "__proto__";
   "toLocaleString"].

(** Truthiness of [files[name]]: an own property holds an array, which is
    truthy; otherwise the lookup goes to the prototype. *)
Definition reads_truthy (files : Files) (name : string) : bool :=
  match own files name with
  | Some _ => true
  | None => bool_decide (name ∈ inherited_keys)
  end.

(** [files[name].push(line)]; [None] stands for the [TypeError] raised
    when [files[name]] is no array. *)
Fixpoint push (files : Files) (name line : string) : option Files :=
  match files with
  | [] => None
  | (k, v) :: rest =>
      if bool_decide (k = name) then Some ((k, (v ++ [line])%list) :: rest)
      else match push rest name line with
           | Some rest' => Some ((k, v) :: rest')
           | None => None
           end
  end.

(** The state of the [forEach] loop: [files] and [currentFile]. *)
Definition LoopState : Type := (Files * string)%type.

(** One call of the [forEach] callback. *)
Definition step (st : LoopState) (line : string) : option LoopState :=
  let '(files, currentFile) := st in
  if is_header line then
    let fileName := header_name line in
    if negb (reads_truthy files fileName)
    then Some ((files ++ [(fileName, [])])%list, fileName)
    else Some (files, currentFile)
  else if truthy_string currentFile then
    match push files currentFile line with
    | Some files' => Some (files', currentFile)
    | None => None
    end
  else Some (files, currentFile).

(** [lines.forEach(callback)] from a given state. *)
Fixpoint forEach (lines : list string) (st : LoopState) : option LoopState :=
  match lines with
  | [] => Some st
  | line :: rest =>
      match step st line with
      | Some st' => forEach rest st'
      | None => None
      end
  end.

(** [parsePatch]; [None] would be an exception. *)
Definition parsePatch (patchContent : string) : option Files :=
  match forEach (split_on LF patchContent) ([], EmptyString) with
  | Some (files, _) => Some files
  | None => None
  end.

(** The value of a decimal digit. *)
Definition digit_value (c : ascii) : option N :=
  let n := N_of_ascii c in
  if (48 <=? n)%N && (n <=? 57)%N then Some (n - 48)%N else None.

(** The number a string of decimal digits writes. *)
Fixpoint digits_value (acc : N) (str : string) : option N :=
  match str with
  | EmptyString => Some acc
  | String c rest =>
      match digit_value c with
      | Some d => digits_value (10 * acc + d)%N rest
      | None => None
      end
  end.

(** An array index: a property name that is the canonical decimal form of
    an integer from 0 to 2^32 - 2.  [Object.entries] lists such names
    first, in ascending numeric order. *)
Definition array_index (name : string) : option N :=
  match name with
  | EmptyString => None
  | String c rest =>
      if Ascii.eqb c "0"%char && truthy_string rest then None
      else match digits_value 0 name with
           | Some n => if (n <=? 4294967294)%N then Some n else None
           | None => None
           end
  end.

(** Insertion into a list sorted by index, after the entries that are
    not greater. *)
Fixpoint insert_by_index {A : Type} (n : N) (a : A) (l : list (N * A)) : list (N * A) :=
  match l with
  | [] => [(n, a)]
  | (m, b) :: rest =>
      if (n <? m)%N then (n, a) :: l else (m, b) :: insert_by_index n a rest
  end.

(** The entries whose name is an array index, sorted by index. *)
Fixpoint index_entries (files : Files) : list (N * (string * list string)) :=
  match files with
  | [] => []
  | (k, v) :: rest =>
      match array_index k with
      | Some n => insert_by_index n (k, v) (index_entries rest)
      | None => index_entries rest
      end
  end.

(** The other entries, in creation order. *)
Fixpoint string_entries (files : Files) : Files :=
  match files with
  | [] => []
  | (k, v) :: rest =>
      match array_index k with
      | Some _ => string_entries rest
      | None => (k, v) :: string_entries rest
      end
  end.

(** [Object.entries(files)]. *)
Definition Object_entries (files : Files) : list (string * list string) :=
  (map snd (index_entries files) ++ string_entries files)%list.

(** The class [renderDiffLine] gives a line. *)
Inductive LineClass : Type :=
  | text_green_400 | text_red_400 | text_yellow_400 | text_gray_300.

Definition renderDiffLine (line : string) : LineClass * string :=
  (if String.prefix "+" line then text_green_400
   else if String.prefix "-" line then text_red_400
   else if String.prefix "@@" line then text_yellow_400
   else text_gray_300,
   line).

(** What the component shows: the raw patch, or one block per file with
    its name and its rendered lines. *)
Inductive View : Type :=
  | RawPatch (patch : string)
  | ParsedDiff (blocks : list (string * list (LineClass * string))).

(** The component, for a value of its [showRaw] cell. *)
Definition DiffViewer (showRaw : bool) (patch : string) : option View :=
  if showRaw then Some (RawPatch patch)
  else match parsePatch patch with
       | Some parsedFiles =>
           Some (ParsedDiff
                   (map (λ '(fileName, lines), (fileName, map renderDiffLine lines))
                        (Object_entries parsedFiles)))
       | None => None
       end.

(** ** The assignment of lines to files, stated without the loop *)

(** The names of the header lines among [lines]. *)
Definition header_names (lines : list string) : list string :=
  map header_name (List.filter is_header lines).

(** The header most recently seen after the lines [prev]. *)
Definition latest_header (prev : list string) : option string :=
  last (List.filter is_header prev).

(** [line], met after the lines [prev], opens a file: it is a header
    whose name no earlier header has and [Object.prototype] does not
    define. *)
Definition opens (prev : list string) (line : string) : bool :=
  is_header line
  && negb (bool_decide (header_name line ∈ header_names prev))
  && negb (bool_decide (header_name line ∈ inherited_keys)).

(** The file in force after the lines [rprev], given newest first: the
    name of the latest line that opened a file, or the empty string. *)
Fixpoint current_file_rev (rprev : list string) : string :=
  match rprev with
  | [] => EmptyString
  | line :: older =>
      if opens (rev older) line then header_name line
      else current_file_rev older
  end.

Definition current_file (prev : list string) : string :=
  current_file_rev (rev prev).

(** The names of the files opened by [lines], met after [prev], in the
    order they are opened. *)
Fixpoint opened (prev lines : list string) : list string :=
  match lines with
  | [] => []
  | line :: rest =>
      ((if opens prev line then [header_name line] else [])
       ++ opened (prev ++ [line]) rest)%list
  end.

(** The lines among [lines], met after [prev], that belong to the file
    [name]: those that are no header and are met while [name], not
    empty, is the file in force. *)
Fixpoint lines_of (name : string) (prev lines : list string) : list string :=
  match lines with
  | [] => []
  | line :: rest =>
      ((if negb (is_header line) && truthy_string name
           && bool_decide (current_file prev = name)
        then [line] else [])
       ++ lines_of name (prev ++ [line]) rest)%list
  end.

(** The file map the two definitions above describe. *)
Definition assignment (lines : list string) : Files :=
  map (λ name, (name, lines_of name [] lines)) (opened [] lines).

(** The reading "each line that is no header goes to the header most
    recently seen": whenever such a line follows a header, the file of
    that header holds it. *)
Definition follows_latest_header (patchContent : string) : Prop :=
  ∀ files prev line rest h,
    parsePatch patchContent = Some files →
    split_on LF patchContent = (prev ++ line :: rest)%list →
    is_header line = false →
    latest_header prev = Some h →
    ∃ ls, own files (header_name h) = Some ls ∧ line ∈ ls.

(** The loop state the reading above gives after the lines [prev]. *)
Definition described (prev : list string) : LoopState :=
  (assignment prev, current_file prev).

(** The reading that holds: a line that is no header is with the file of
    the header seen last, when that header opened a file and its name is
    not empty. *)
Definition follows_latest_opening_header (patchContent : string) : Prop :=
  ∀ files before h between line rest,
    parsePatch patchContent = Some files →
    split_on LF patchContent = (before ++ h :: between ++ line :: rest)%list →
    opens before h = true →
    header_name h ≠ EmptyString →
    header_names between = [] →
    is_header line = false →
    ∃ ls, own files (header_name h) = Some ls ∧ line ∈ ls.

(** ** Patches of unified-diff form *)

(** The block of a file in the parsed view. *)
Definition renderFile (entry : string * list string)
    : string * list (LineClass * string) :=
  let '(fileName, lines) := entry in (fileName, map renderDiffLine lines).

(** The lines a patch of unified-diff form has for one file: the two
    headers of the file, then its hunks. *)
Definition file_lines (entry : string * list string) : list string :=
  let '(fileName, lines) := entry in
  ("--- a/" ++ fileName) :: ("+++ b/" ++ fileName) :: lines.

(** The text of the patch that has these files. *)
Definition patch_of (files : Files) : string :=
  JobDetails.join_lines (concat (map file_lines files)).

(** A file that such a patch can carry: its name is not empty, has no
    line feed and is no name of [Object.prototype]; its lines have no
    line feed and are no headers. *)
Definition plain_file (entry : string * list string) : Prop :=
  let '(fileName, lines) := entry in
  fileName <> EmptyString
  /\ occurs LF fileName = false
  /\ (fileName ∉ inherited_keys)
  /\ Forall (λ line, is_header line = false /\ occurs LF line = false) lines.

(** ** Example data *)

Definition nl : string := String LF EmptyString.

(** A patch whose third line names the first file again. *)
Definition reopened_patch : string :=
  "--- a/A" ++ nl ++ "+++ b/B" ++ nl ++ "--- a/A" ++ nl ++ "x".

(** A patch of one file, as [git diff] writes it. *)
Definition typical_patch : string :=
  "diff --git a/app.py b/app.py" ++ nl ++ "--- a/app.py" ++ nl ++ "+++ b/app.py" ++ nl
  ++ "@@ -1 +1 @@" ++ nl ++ "-x = eval(s)" ++ nl ++ "+x = int(s)".

(** A patch of two files whose names are array indices. *)
Definition numbered_patch : string :=
  "--- a/10" ++ nl ++ "x" ++ nl ++ "--- a/9" ++ nl ++ "y".

(** Two files as [git diff] writes them: the line that announces the
    second file comes before its headers. *)
Definition two_files : Files :=
  [("app.py", ["@@ -1 +1 @@"; "-x = eval(s)"; "+x = int(s)";
               "diff --git a/util.py b/util.py"]);
   ("util.py", ["@@ -3 +3 @@"; "-import os"])].

End DiffViewer.

Module BugsCard.

(** A bug that the analysis reports as an object.  Every property but
    [description] may be missing. *)
Record BugObject : Type := mkBugObject {
  severity : option string;
  type : option string;
  file : option string;
  line : option Z;
  description : string;
  impact : option string;
  reproduction : option string
}.

(** An element of [bugs_detected] as the card tells them apart
    ([typeof bug === 'string']): a text, or an object. *)
Inductive Bug : Type :=
  | BugText (text : string)
  | BugObj (bug : BugObject).

(** [acc]: the own properties of the object literal the [reduce] starts
    from, in the order they were created, each holding an array of
    bugs. *)
Definition Groups : Type := list (string * list Bug).

(** The own property [key], if there is one. *)
Fixpoint own (acc : Groups) (key : string) : option (list Bug) :=
  match acc with
  | [] => None
  | (k, v) :: rest => if bool_decide (k = key) then Some v else own rest key
  end.

(** Truthiness of [acc[key]]: an own property holds an array, which is
    truthy; otherwise the lookup goes to [Object.prototype]. *)
Definition reads_truthy (acc : Groups) (key : string) : bool :=
  match own acc key with
  | Some _ => true
  | None => bool_decide (key ∈ DiffViewer.inherited_keys)
  end.

(** [acc[key].push(bug)]; [None] stands for the [TypeError] raised when
    [acc[key]] is no array. *)
Fixpoint push (acc : Groups) (key : string) (bug : Bug) : option Groups :=
  match acc with
  | [] => None
  | (k, v) :: rest =>
      if bool_decide (k = key) then Some ((k, (v ++ [bug])%list) :: rest)
      else match push rest key bug with
           | Some rest' => Some ((k, v) :: rest')
           | None => None
           end
  end.

(** The property under which the reducer files a bug: ['other'] for a
    text, [bug.severity || 'unknown'] for an object. *)
Definition severity_key (bug : Bug) : string :=
  match bug with
  | BugText _ => "other"
  | BugObj b =>
      match severity b with
      | Some s => if truthy_string s then s else "unknown"
      | None => "unknown"
      end
  end.

(** The callback of [bugs_detected.reduce]. *)
Definition reducer (acc : Groups) (bug : Bug) : option Groups :=
  let key := severity_key bug in
  let acc1 :=
    if negb (reads_truthy acc key) then (acc ++ [(key, [])])%list else acc in
  push acc1 key bug.

(** [bugs.reduce(reducer, acc)]. *)
Fixpoint reduce (bugs : list Bug) (acc : Groups) : option Groups :=
  match bugs with
  | [] => Some acc
  | bug :: rest =>
      match reducer acc bug with
      | Some acc' => reduce rest acc'
      | None => None
      end
  end.

Definition severityOrder : list string :=
  ["critical"; "high"; "medium"; "low"; "other"].

(** [severityOrder.map(...)] without the [null]s: a group per severity
    of the list whose property exists and is not empty.  None of the
    five names is inherited from [Object.prototype]. *)
Definition shownGroups (bugsBySeverity : Groups) : list (string * list Bug) :=
  omap (λ sev, match own bugsBySeverity sev with
               | Some (b :: bs) => Some (sev, b :: bs)
               | Some [] | None => None
               end) severityOrder.

(** The "Bugs Detected" part of the analysis card: nothing for an empty
    list, else the heading with the number of bugs and the groups. *)
Inductive Card : Type :=
  | NoBugs
  | BugsDetected (count : nat) (groups : list (string * list Bug)).

(** [None] would be an exception thrown while rendering. *)
Definition renderBugs (bugs_detected : list Bug) : option Card :=
  match bugs_detected with
  | [] => Some NoBugs
  | _ :: _ =>
      match reduce bugs_detected [] with
      | Some bugsBySeverity =>
          Some (BugsDetected (length bugs_detected) (shownGroups bugsBySeverity))
      | None => None
      end
  end.

(** The bugs of [bugs] filed under [key], in their order. *)
Definition filed_under (key : string) (bugs : list Bug) : list Bug :=
  filter (λ b, severity_key b = key) bugs.

(** [acc] holds the bugs of [seen], each under its key. *)
Definition holds (acc : Groups) (seen : list Bug) : Prop :=
  forall k, own acc k = match filed_under k seen with
                        | [] => None
                        | b :: bs => Some (b :: bs)
                        end.

(** Example data: a critical bug, a text, and a bug whose severity is
    written with a capital letter. *)
Definition sql_injection : Bug :=
  BugObj (mkBugObject (Some "critical") (Some "sql_injection") (Some "app.py")
                      (Some 12) "query built from input" None None).
Definition note : Bug := BugText "unused import".
Definition capital_high : Bug :=
  BugObj (mkBugObject (Some "High") None None None "race on the cache" None None).

End BugsCard.

Module Repositories.

(** The page's [Repository]. *)
Record Repository : Type := mkRepository {
  id : Z;
  github_id : Z;
  name : string;
  full_name : string;
  default_branch : string;
  clone_url : string;
  is_active : bool
}.

#[export] Instance Repository_eq_dec : EqDecision Repository.
Proof. solve_decision. Defined.

(** The cells of the page; [monitoring] is the id of the repository
    whose monitoring is being started, or [null]. *)
Record PageState : Type := mkPageState {
  repositories : list Repository;
  loading : bool;
  monitoring : option Z
}.

(** How [GET /api/repositories?user_id=...] ends. *)
Inductive ListOutcome : Type :=
  | ListRejects
  | ListNotOk
  | ListOk (data : option (list Repository)).

(** How [POST /api/repositories/<id>/monitor] ends; its body is not
    read. *)
Inductive MonitorOutcome : Type :=
  | MonitorRejects
  | MonitorOk
  | MonitorNotOk.

Section Page.

(** The number [parseInt] makes of a stored user id. *)
Variable Number : Type.
Variable parseInt : string -> Number.

Inductive Request : Type :=
  | GetRepositories (userId : Number)
  | PostMonitor (repoId : Z).

Variable Server : Type.
Variable get_repositories : Number -> Server -> ListOutcome * Server.
Variable post_monitor : Z -> Server -> MonitorOutcome * Server.

(** [fetchRepositories]. *)
Definition fetchRepositories (userId : Number) (page : PageState) (srv : Server)
    : PageState * Server :=
  let '(outcome, srv') := get_repositories userId srv in
  let repositories' :=
    match outcome with
    | ListOk (Some data) => data
    | ListOk None | ListNotOk | ListRejects => repositories page
    end in
  (mkPageState repositories' false (monitoring page), srv').

(** The effect run when the page is mounted, for the stored [user_id]:
    the page, the server, the requests sent and the route pushed, if
    one is. *)
Definition mount (user_id : option string) (page : PageState) (srv : Server)
    : PageState * Server * list Request * option string :=
  match user_id with
  | Some userId =>
      if truthy_string userId then
        let '(page', srv') := fetchRepositories (parseInt userId) page srv in
        (page', srv', [GetRepositories (parseInt userId)], None)
      else (page, srv, [], Some "/auth/login")
  | None => (page, srv, [], Some "/auth/login")
  end.



(** A click on "Refresh Repositories", which is there when the page is
    loaded and lists nothing:
    [fetchRepositories(parseInt(localStorage.getItem('user_id') || '1'))]. *)
Definition clickRefresh (user_id : option string) (page : PageState) (srv : Server)
    : PageState * Server * list Request :=
  if negb (loading page) && bool_decide (repositories page = []) then
    let userId :=
      match user_id with
      | Some u => if truthy_string u then u else "1"
      | None => "1"
      end in
    let '(page', srv') := fetchRepositories (parseInt userId) page srv in
    (page', srv', [GetRepositories (parseInt userId)])
  else (page, srv, []).

End Page.

Arguments GetRepositories {Number}.
Arguments PostMonitor {Number}.

(** Example data: a repository that is not yet monitored. *)
Definition widgets : Repository :=
  mkRepository 7 1007 "widgets" "acme/widgets" "main"
               "https://github.com/acme/widgets.git" false.

(** The cells of the page when it is mounted, a server without state
    that lists nothing for user 7 and one repository for every other
    user, and the page as the mount leaves it when "7" is the stored
    user id: loaded, with an empty list. *)
Definition initial_page : PageState := mkPageState [] true None.

Definition answer_for_7 (userId : string) (s : unit) : ListOutcome * unit :=
  if bool_decide (userId = "7") then (ListOk (Some []), s)
  else (ListOk (Some [widgets]), s).

Definition empty_page : PageState :=
  fst (fst (fst (mount string (λ s, s) unit answer_for_7 (Some "7") initial_page tt))).

End Repositories.

Module Navigation.

(** The component's [User]. *)
Record User : Type := mkUser {
  id : Z;
  login : string;
  name : string;
  email : string;
  avatar_url : string
}.

(** [localStorage]: the stored items by key. *)
Definition Storage : Type := gmap string string.

(** The name beside the avatar: [user?.name || user?.login || 'User']. *)
Definition buttonName (user : option User) : string :=
  match user with
  | Some u =>
      if truthy_string (name u) then name u
      else if truthy_string (login u) then login u
      else "User"
  | None => "User"
  end.

(** The name in the dropdown: [user?.name || 'User']. *)
Definition dropdownName (user : option User) : string :=
  match user with
  | Some u => if truthy_string (name u) then name u else "User"
  | None => "User"
  end.

(** [handleLogout]: the storage afterwards and the route pushed. *)
Definition handleLogout (storage : Storage) : Storage * string :=
  (delete "access_token" (delete "user_id" storage), "/").

End Navigation.

Module Dashboard.

(** How [GET /api/jobs?user_id=...] ends for [fetchData]. *)
Inductive JobsOutcome (Job : Type) : Type :=
  | JobsRejects
  | JobsNotOk
  | JobsOk (data : option (list Job)).
Arguments JobsRejects {Job}.
Arguments JobsNotOk {Job}.
Arguments JobsOk {Job} data.

(** How [DELETE /api/jobs?user_id=...] ends: the promise rejects; an ok
    response whose [json()] rejects ([None]) or yields an object, of
    which the text of [deleted_count] is kept; or a response that is not
    ok whose [json()] rejects or yields an object with an optional
    [detail]. *)
Inductive ClearOutcome : Type :=
  | ClearRejects
  | ClearOk (deleted_count : option string)
  | ClearNotOk (error : option (option string)).

(** The three alerts of [handleClearHistory]. *)
Inductive Alert : Type :=
  | ClearedJobs (deleted_count : string)
      (* "Successfully cleared <deleted_count> jobs from history" *)
  | FailedToClear (detail : string)
      (* "Failed to clear job history: <detail>" *)
  | FailedTryAgain.
      (* "Failed to clear job history. Please try again." *)

Section Page.

(** The rows of [jobs], which the page does not type, and the number
    [parseInt] makes of the stored user id. *)
Variable Job : Type.
Variable Number : Type.
Variable parseInt : string -> Number.

(** The cells of the page. *)
Record PageState : Type := mkPageState {
  jobs : list Job;
  loading : bool;
  clearing : bool
}.

(** The requests of the page: the list is asked for with the parsed
    number, the history is deleted with the stored text. *)
Inductive Request : Type :=
  | GetJobs (userId : Number)
  | DeleteJobs (userId : string).

Variable Server : Type.
Variable get_jobs : Number -> Server -> JobsOutcome Job * Server.
Variable delete_jobs : string -> Server -> ClearOutcome * Server.

(** [fetchData]. *)
Definition fetchData (userId : Number) (page : PageState) (srv : Server)
    : PageState * Server :=
  let '(outcome, srv') := get_jobs userId srv in
  let jobs' :=
    match outcome with
    | JobsOk (Some data) => data
    | JobsOk None | JobsNotOk | JobsRejects => jobs page
    end in
  (mkPageState jobs' false (clearing page), srv').

(** The effect run when the page is mounted, for the stored
    [user_id]: the page, the server, the requests sent and the route
    pushed, if one is. *)
Definition mount (user_id : option string) (page : PageState) (srv : Server)
    : PageState * Server * list Request * option string :=
  match user_id with
  | Some userId =>
      if truthy_string userId then
        let '(page', srv') := fetchData (parseInt userId) page srv in
        (page', srv', [GetJobs (parseInt userId)], None)
      else (page, srv, [], Some "/auth/login")
  | None => (page, srv, [], Some "/auth/login")
  end.

(** [handleClearHistory], for the stored [user_id] and the answer to
    the [confirm] dialog. *)
Definition handleClearHistory (user_id : option string) (confirmed : bool)
    (page : PageState) (srv : Server)
    : PageState * Server * list Request * list Alert :=
  match user_id with
  | None => (page, srv, [], [])
  | Some userId =>
      if negb (truthy_string userId) then (page, srv, [], [])
      else if negb confirmed then (page, srv, [], [])
      else
        let page1 := mkPageState (jobs page) (loading page) true in
        let '(outcome, srv1) := delete_jobs userId srv in
        let done (pg : PageState) := mkPageState (jobs pg) (loading pg) false in
        match outcome with
        | ClearOk (Some deleted_count) =>
            let '(page2, srv2) := fetchData (parseInt userId) page1 srv1 in
            (done page2, srv2, [DeleteJobs userId; GetJobs (parseInt userId)],
             [ClearedJobs deleted_count])
        | ClearNotOk (Some error) =>
            (done page1, srv1, [DeleteJobs userId],
             [FailedToClear (JobDetails.or_else error "Unknown error")])
        | ClearOk None | ClearNotOk None | ClearRejects =>
            (done page1, srv1, [DeleteJobs userId], [FailedTryAgain])
        end
  end.

(** A click on "Clear History": the button is there when the page is
    loaded and lists a job, and it is disabled while [clearing]. *)
Definition clickClearHistory (user_id : option string) (confirmed : bool)
    (page : PageState) (srv : Server)
    : PageState * Server * list Request * list Alert :=
  if negb (loading page) && bool_decide (0 < length (jobs page))%nat
     && negb (clearing page)
  then handleClearHistory user_id confirmed page srv
  else (page, srv, [], []).

End Page.

Arguments jobs {Job}.
Arguments loading {Job}.
Arguments clearing {Job}.
Arguments mkPageState {Job}.
Arguments GetJobs {Number}.
Arguments DeleteJobs {Number}.

End Dashboard.

Module Core.

(** The backend (webhook endpoint, job store, pipeline, approval
    endpoint) is no part of the sources at hand; only its callers, the
    pages above, are.  Every definition of this module is therefore
    written from the specification, section by section. *)

(** Modelled from the spec: the job states of section 4.4 (the backend's
    state type is missing). *)
Inductive State : Type :=
  | pending | running_tests | analyzing | ready_for_review | failed | approved.

#[export] Instance State_eq_dec : EqDecision State.
Proof. solve_decision. Defined.

(** Modelled from the spec: "terminals failed and approved" (4.4). *)
Definition terminal (s : State) : bool :=
  match s with
  | failed | approved => true
  | pending | running_tests | analyzing | ready_for_review => false
  end.

(** Modelled from the spec: the error taxonomy of section 7. *)
Inductive Error : Type :=
  | AuthenticationError
  | MalformedPayloadError
  | InvalidTransitionError
  | FetchError
  | AnalysisError
  | PreconditionError.

#[export] Instance Error_eq_dec : EqDecision Error.
Proof. solve_decision. Defined.

(** Modelled from the spec: a call returns a value or fails with an
    error of the taxonomy. *)
Inductive Result (A : Type) : Type :=
  | Ok (a : A)
  | Err (e : Error).
Arguments Ok {A} a.
Arguments Err {A} e.

(** Modelled from the spec: [TestResult] of section 3, without its
    [duration]. *)
Record TestResult : Type := mkTestResult {
  tr_passed : bool;
  tr_total : Z;
  tr_failed : Z;
  tr_diagnostics : list string;
  tr_error_detail : option string;
  tr_degraded : bool
}.

(** Modelled from the spec: [Finding] and [AnalysisResult] of section 3,
    without the float [confidence]. *)
Inductive Severity : Type := critical | high | medium | low | unknown.

Record Finding : Type := mkFinding {
  severity : Severity;
  kind : string;
  file : option string;
  line : option Z;
  description : string;
  impact : option string
}.

Inductive Deployable : Type := deployable | not_deployable | needs_review.

Record AnalysisResult : Type := mkAnalysisResult {
  ar_issue_summary : string;
  ar_findings : list Finding;
  ar_optimizations : list string;
  ar_patch : option string;
  ar_deployable : Deployable
}.

(** Modelled from the spec: the PR reference [{url, number}]. *)
Record PRRef : Type := mkPRRef {
  url : string;
  number : Z
}.

(** Modelled from the spec: the [Job] of section 3.  The opaque id is a
    number handed out by the store; [reason] is the reason recorded with
    a failure (4.4, 7). *)
Record Job : Type := mkJob {
  id : nat;
  owner : nat;
  repository_id : string;
  commit_sha : string;
  state : State;
  test_result : option TestResult;
  analysis_result : option AnalysisResult;
  patch : option string;
  pr : option PRRef;
  reason : option string;
  created_at : nat;
  last_transition_at : nat
}.

(** Modelled from the spec: the key of the invariant of section 3,
    (repository, commit SHA). *)
Definition commit_key (j : Job) : string * string :=
  (repository_id j, commit_sha j).

(** Modelled from the spec: what a transition asks for, one constructor
    per event of the table in 4.4, carrying the results to persist. *)
Inductive Transition : Type :=
  | PipelineStarted
  | TestsReturned (r : TestResult)
  | AdapterError (why : string)
  | AnalysisReturned (a : AnalysisResult)
  | UserApproval (ref : PRRef)
  | CancellationRequested.

(** Modelled from the spec: the table of 4.4 read as a function, the
    state an event leads to from a state, if the table has such a row. *)
Definition next_state (s : State) (t : Transition) : option State :=
  match s, t with
  | pending, PipelineStarted => Some running_tests
  | running_tests, TestsReturned _ => Some analyzing
  | running_tests, AdapterError _ => Some failed
  | analyzing, AnalysisReturned _ => Some ready_for_review
  | analyzing, AdapterError _ => Some failed
  | ready_for_review, UserApproval _ => Some approved
  | (pending | running_tests | analyzing | ready_for_review),
    CancellationRequested => Some failed
  | _, _ => None
  end.

(** Modelled from the spec: the table of 4.4, row by row, as a relation
    between the state left, the event and the state entered. *)
Inductive row : State -> Transition -> State -> Prop :=
  | row_pipeline_started :
      row pending PipelineStarted running_tests
  | row_tests_returned (r : TestResult) :
      row running_tests (TestsReturned r) analyzing
  | row_test_adapter_error (why : string) :
      row running_tests (AdapterError why) failed
  | row_analysis_returned (a : AnalysisResult) :
      row analyzing (AnalysisReturned a) ready_for_review
  | row_analysis_adapter_error (why : string) :
      row analyzing (AdapterError why) failed
  | row_user_approval (ref : PRRef) :
      row ready_for_review (UserApproval ref) approved
  | row_cancellation (s : State) :
      terminal s = false -> row s CancellationRequested failed.

(** Modelled from the spec: the edges of the state machine of 4.4, the
    pairs of states its table joins. *)
Inductive edge : State -> State -> Prop :=
  | edge_pipeline_started : edge pending running_tests
  | edge_tests_returned : edge running_tests analyzing
  | edge_test_adapter_error : edge running_tests failed
  | edge_analysis_returned : edge analyzing ready_for_review
  | edge_analysis_adapter_error : edge analyzing failed
  | edge_user_approval : edge ready_for_review approved
  | edge_cancellation (s : State) : terminal s = false -> edge s failed.

(** Modelled from the spec: the job after a legal transition to [s'] at
    time [now], the new state and the results the event carries written
    together (4.2, 4.4). *)
Definition transit (j : Job) (t : Transition) (s' : State) (now : nat) : Job :=
  let tr := match t with TestsReturned r => Some r | _ => test_result j end in
  let ar := match t with AnalysisReturned a => Some a | _ => analysis_result j end in
  let pa := match t with AnalysisReturned a => ar_patch a | _ => patch j end in
  let pr' := match t with UserApproval ref => Some ref | _ => pr j end in
  let why := match t with AdapterError w => Some w | _ => reason j end in
  mkJob (id j) (owner j) (repository_id j) (commit_sha j) s'
        tr ar pa pr' why (created_at j) now.

(** Modelled from the spec: the Job Store of 4.2, a table of jobs in
    creation order and the next id to hand out. *)
Record Store : Type := mkStore {
  jobs : list Job;
  next_id : nat
}.

(** Modelled from the spec: the store before any delivery. *)
Definition empty_store : Store := mkStore [] 0.

(** Modelled from the spec: [get(id)] of 4.2. *)
Definition get (st : Store) (i : nat) : option Job :=
  List.find (λ j, bool_decide (id j = i)) (jobs st).

(** Modelled from the spec: the job of a (repository, commit) pair, the
    lookup behind the upsert of 4.1. *)
Definition find_by_commit (st : Store) (repo sha : string) : option Job :=
  List.find (λ j, bool_decide (commit_key j = (repo, sha))) (jobs st).

(** Modelled from the spec: [list(filter)] of 4.2, the filter being the
    owning user (6). *)
Definition list_for_user (st : Store) (user : nat) : list Job :=
  List.filter (λ j, bool_decide (owner j = user)) (jobs st).

(** Modelled from the spec: [create] of 4.2, a new job in state
    [pending]. *)
Definition create (st : Store) (user : nat) (repo sha : string) (now : nat)
    : Job * Store :=
  let j := mkJob (next_id st) user repo sha pending None None None None None
                 now now in
  (j, mkStore (jobs st ++ [j]) (S (next_id st))).

(** Modelled from the spec: the write of one job, the first row of id
    [i] replaced by [j']. *)
Fixpoint replace_job (rows : list Job) (i : nat) (j' : Job) : list Job :=
  match rows with
  | [] => []
  | j :: rest =>
      if bool_decide (id j = i) then j' :: rest
      else j :: replace_job rest i j'
  end.

(** Modelled from the spec: [update_state_and_results(id, transition)]
    of 4.2.  The transition is checked against the current state of the
    job and, when legal, state and results are written in one step;
    otherwise the store is returned as it was, with
    [InvalidTransitionError].  A job that does not exist has no state to
    leave, which is reported the same way. *)
Definition update_state_and_results (st : Store) (i : nat) (t : Transition)
    (now : nat) : Result Job * Store :=
  match get st i with
  | None => (Err InvalidTransitionError, st)
  | Some j =>
      match next_state (state j) t with
      | None => (Err InvalidTransitionError, st)
      | Some s' =>
          let j' := transit j t s' now in
          (Ok j', mkStore (replace_job (jobs st) i j') (next_id st))
      end
  end.

(** Modelled from the spec: [delete_all_for_user(user_id)] of 4.2. *)
Definition delete_all_for_user (st : Store) (user : nat) : Store :=
  mkStore (List.filter (λ j, negb (bool_decide (owner j = user))) (jobs st))
          (next_id st).

(** ** Webhook verifier (4.1) *)

(** Modelled from the spec: the parsed payload of 4.1. *)
Record Payload : Type := mkPayload {
  p_repository_id : string;
  p_commit_sha : string;
  p_commit_message : string;
  p_pusher : string
}.

(** Modelled from the spec: the fields a push payload must have (4.1). *)
Definition required_fields : list string :=
  ["repository_id"; "commit_sha"; "commit_message"; "pusher"].

(** Modelled from the spec: the payload read off a decoded JSON object
    (4.1). *)
Definition payload_of (fields : gmap string string) : option Payload :=
  match fields !! "repository_id", fields !! "commit_sha",
        fields !! "commit_message", fields !! "pusher" with
  | Some r, Some c, Some m, Some u => Some (mkPayload r c m u)
  | _, _, _, _ => None
  end.

(** Modelled from the spec: the differences of two strings of one
    length, accumulated with [lor] over the [lxor] of their characters,
    every position visited (the comparison of 4.1). *)
Fixpoint accumulate_difference (acc : N) (a b : string) : N :=
  match a, b with
  | String x a', String y b' =>
      accumulate_difference (N.lor acc (N.lxor (N_of_ascii x) (N_of_ascii y))) a' b'
  | _, _ => acc
  end.

(** Modelled from the spec: the constant-time comparison of 4.1. *)
Definition constant_time_eq (a b : string) : bool :=
  (String.length a =? String.length b)%nat
  && (accumulate_difference 0 a b =? 0)%N.

(** Modelled from the spec: what an accepted delivery did, the job of
    the commit and whether it was handed to the pipeline (2, 4.1). *)
Record Accepted : Type := mkAccepted {
  job : Job;
  handed_off : bool
}.

Section Verifier.

(** HMAC-SHA256 (key, message) and the JSON decoder are library
    functions; [owner_of] gives the user who monitors a repository. *)
Variable hmac_sha256 : string -> string -> string.
Variable decode_json : string -> option (gmap string string).
Variable owner_of : string -> nat.

(** Modelled from the spec: the contract of 4.1. *)
Definition verify (secret body signature : string) : Result Payload :=
  if constant_time_eq (hmac_sha256 secret body) signature then
    match decode_json body with
    | Some fields =>
        match payload_of fields with
        | Some p => Ok p
        | None => Err MalformedPayloadError
        end
    | None => Err MalformedPayloadError
    end
  else Err AuthenticationError.

(** Modelled from the spec: the side effect of 4.1, an upsert on the
    (repository, commit) key.  A job that exists is left as it is and is
    not handed off again. *)
Definition upsert (st : Store) (p : Payload) (now : nat) : Accepted * Store :=
  match find_by_commit st (p_repository_id p) (p_commit_sha p) with
  | Some j => (mkAccepted j false, st)
  | None =>
      let '(j, st') := create st (owner_of (p_repository_id p))
                              (p_repository_id p) (p_commit_sha p) now in
      (mkAccepted j true, st')
  end.

(** Modelled from the spec: the webhook endpoint, verify then upsert
    (2, 4.1). *)
Definition handle_webhook (secret : string) (st : Store)
    (body signature : string) (now : nat) : Result Accepted * Store :=
  match verify secret body signature with
  | Err e => (Err e, st)
  | Ok p => let '(a, st') := upsert st p now in (Ok a, st')
  end.

End Verifier.

(** ** Approval gate (4.5) *)

(** Modelled from the spec: the request of the Git host boundary (6). *)
Record PRRequest : Type := mkPRRequest {
  pr_repository : string;
  base_branch : string;
  head_branch : string;
  title : string;
  body_text : string;
  pr_patch : string
}.

(** Modelled from the spec: "[job.results.patch] is non-empty" (4.5). *)
Definition has_patch (j : Job) : bool :=
  truthy_opt truthy_string (patch j).

(** Modelled from the spec: the precondition of [approve] (4.5). *)
Definition approvable (j : Job) : bool :=
  bool_decide (state j = ready_for_review) && has_patch j.

Section Gate.

(** The Git host collaborator, and how a job is turned into the request
    sent to it, are outside the core. *)
Variable GitHost : Type.
Variable create_pull_request : PRRequest -> GitHost -> PRRef * GitHost.
Variable pr_request_of : Job -> PRRequest.

(** Modelled from the spec: [approve(job_id, acting_user)] of 4.5.  A
    caller that finds the job already [approved] "receives the existing
    PR reference rather than creating a duplicate PR": nothing is
    requested and nothing is written.  Otherwise the call fails with
    [PreconditionError] unless the job is in [ready_for_review] with a
    patch that is not empty, and on success the pull request is
    requested and the reference it returns is stored with the
    transition to [approved].  A job that does not exist is in no state,
    so the precondition fails; the contract ties no check to
    [acting_user], which is not read. *)
Definition approve (st : Store) (gh : GitHost) (job_id acting_user now : nat)
    : Result PRRef * Store * GitHost :=
  match get st job_id with
  | None => (Err PreconditionError, st, gh)
  | Some j =>
      match (if bool_decide (state j = approved) then pr j else None) with
      | Some ref => (Ok ref, st, gh)
      | None =>
          if approvable j then
            let '(ref, gh') := create_pull_request (pr_request_of j) gh in
            match update_state_and_results st job_id (UserApproval ref) now with
            | (Ok _, st') => (Ok ref, st', gh')
            | (Err e, st') => (Err e, st', gh')
            end
          else (Err PreconditionError, st, gh)
      end
  end.

(** The contract sentence of 4.5 read on its own, as the claim about
    [approve] states it: every call fails with [PreconditionError]
    unless the job is in [ready_for_review] with a patch that is not
    empty. *)
Definition fails_unless_ready_for_review : Prop :=
  forall (st : Store) (gh : GitHost) (job_id acting_user now : nat),
    ~ (exists j, get st job_id = Some j /\ state j = ready_for_review
                 /\ exists p, patch j = Some p /\ p <> EmptyString) ->
    fst (fst (approve st gh job_id acting_user now)) = Err PreconditionError.

End Gate.

(** ** Histories of the store *)

(** Modelled from the spec: the operations that change the store, as the
    endpoints and the pipeline call them (3, "Lifecycle"). *)
Inductive Op : Type :=
  | Deliver (secret body signature : string) (now : nat)
  | Advance (job_id : nat) (t : Transition) (now : nat)
  | Approve (job_id acting_user now : nat)
  | Clear (user : nat).

Section History.

Variable hmac_sha256 : string -> string -> string.
Variable decode_json : string -> option (gmap string string).
Variable owner_of : string -> nat.
Variable GitHost : Type.
Variable create_pull_request : PRRequest -> GitHost -> PRRef * GitHost.
Variable pr_request_of : Job -> PRRequest.

(** Modelled from the spec: one operation, on the store and the Git
    host. *)
Definition perform (w : Store * GitHost) (op : Op) : Store * GitHost :=
  let '(st, gh) := w in
  match op with
  | Deliver secret body signature now =>
      (snd (handle_webhook hmac_sha256 decode_json owner_of
                           secret st body signature now), gh)
  | Advance i t now => (snd (update_state_and_results st i t now), gh)
  | Approve i user now =>
      let '(_, st', gh') :=
        approve GitHost create_pull_request pr_request_of st gh i user now in
      (st', gh')
  | Clear user => (delete_all_for_user st user, gh)
  end.

(** Modelled from the spec: a history, from the empty store. *)
Definition run (gh : GitHost) (ops : list Op) : Store * GitHost :=
  fold_left perform ops (empty_store, gh).

End History.

(** ** Example data *)

Definition failing_tests : TestResult :=
  mkTestResult false 10 2 [] None false.

Definition patching_analysis : AnalysisResult :=
  mkAnalysisResult "two tests fail" [] [] (Some "<diff>") not_deployable.

Definition running_job : Job :=
  mkJob 0 7 "acme/widgets" "abc123" running_tests None None None None None 1 2.

Definition approved_job : Job :=
  mkJob 1 7 "acme/widgets" "def456" approved (Some failing_tests)
        (Some patching_analysis) (Some "<diff>")
        (Some (mkPRRef "https://github.com/acme/widgets/pull/41" 41)) None 1 6.

Definition example_store : Store := mkStore [running_job; approved_job] 2.

(** Stand-ins for the library functions, for the examples only: a
    signature that is the secret, a bar and the body; a decoder that
    knows one body; one owner; a Git host that numbers its pull requests
    from 42 and keeps the requests it was sent. *)
Definition example_hmac (secret body : string) : string :=
  secret ++ "|" ++ body.

Definition example_decode (body : string) : option (gmap string string) :=
  if bool_decide (body = "push acme/widgets abc123")
  then Some (<["repository_id" := "acme/widgets"]>
             (<["commit_sha" := "abc123"]>
              (<["commit_message" := "fix parser"]>
               (<["pusher" := "alice"]> ∅))))
  else None.

Definition example_owner (repo : string) : nat := 7%nat.

Definition example_create_pull_request (req : PRRequest) (sent : list PRRequest)
    : PRRef * list PRRequest :=
  (mkPRRef ("https://github.com/" ++ pr_repository req ++ "/pull/"
            ++ pretty (42 + length sent)%nat)
           (42 + Z.of_nat (length sent)),
   (sent ++ [req])%list).

Definition example_request (j : Job) : PRRequest :=
  mkPRRequest (repository_id j) "work" ("bugsniper/" ++ commit_sha j)
              "Automated fix" "" (default EmptyString (patch j)).

End Core.

(* ===================================================================== *)
(** * Part II. Properties                                                 *)
(* ===================================================================== *)

Module SplitProps.

Lemma split_on_not_nil (sep : ascii) (s : string) : split_on sep s <> [].
Proof.
  destruct s as [| c rest]; simpl; [discriminate |].
  destruct (Ascii.eqb c sep); [discriminate |].
  destruct (split_on sep rest); discriminate.
Qed.

Lemma split_on_without (sep : ascii) (s : string) :
  occurs sep s = false -> split_on sep s = [s].
Proof.
  induction s as [| c rest IH]; simpl; [reflexivity |].
  intros H. apply orb_false_iff in H as [Hc Hrest].
  rewrite Hc, (IH Hrest). reflexivity.
Qed.

Lemma split_on_at_first (sep : ascii) (a b : string) :
  occurs sep a = false ->
  split_on sep (a ++ String sep b) = a :: split_on sep b.
Proof.
  induction a as [| c rest IH]; simpl.
  - intros _. rewrite Ascii.eqb_refl. reflexivity.
  - intros H. apply orb_false_iff in H as [Hc Hrest].
    rewrite Hc, (IH Hrest). reflexivity.
Qed.

End SplitProps.

Module JobDetailsProps.
Import JobDetails.

(** A result counts as degraded on the page when its
    [requires_manual_config] property is truthy. *)
Lemma manual_config_truthy (r : TestResult) :
  truthy_opt (fun b : bool => b) (requires_manual_config r) = true <->
  requires_manual_config r = Some true.
Proof.
  destruct (requires_manual_config r) as [[|]|]; simpl; split;
    intros H; try reflexivity; discriminate H.
Qed.

(** What each revision of the card shows, by the property it reads. *)
Lemma pytest_panel (job : Job) :
  renderPytestResults job =
  match pytest_result job with
  | None => NoTestResults
  | Some r =>
      if bool_decide (requires_manual_config r = Some true)
      then ConfigurationRequired (fallback_counts r)
      else renderNormal r
  end.
Proof.
  unfold renderPytestResults. destruct (pytest_result job) as [r |]; [| reflexivity].
  destruct (requires_manual_config r) as [[|] |]; reflexivity.
Qed.

Lemma testsprite_panel (job : Job) :
  renderTestSpriteResults job =
  match testsprite_result job with
  | None => NoTestResults
  | Some r =>
      if bool_decide (requires_manual_config r = Some true)
      then AnalysisRunning
      else renderNormal r
  end.
Proof.
  unfold renderTestSpriteResults. destruct (testsprite_result job) as [r |]; [| reflexivity].
  destruct (requires_manual_config r) as [[|] |]; reflexivity.
Qed.

(** The panel of a result: the PASSED or FAILED badge is on it exactly
    when the result is there and not degraded, and it is then the badge
    of the [passed] flag. *)
Lemma badge_iff_not_degraded (result : option TestResult)
    (degraded : TestResult -> TestPanel) (b : Badge) :
  (forall r, outcome_badge (degraded r) = None) ->
  outcome_badge
    match result with
    | None => NoTestResults
    | Some r =>
        if bool_decide (requires_manual_config r = Some true) then degraded r
        else renderNormal r
    end = Some b
  <-> exists r, result = Some r /\ requires_manual_config r <> Some true
                /\ b = (if passed r then PASSED else FAILED).
Proof.
  intros Hd. destruct result as [r |].
  - case_bool_decide as Hflag.
    + rewrite Hd. split; [discriminate |]. intros [r' [[= <-] [Hn _]]]. done.
    + simpl. split.
      * intros [= <-]. exists r. done.
      * intros [r' [[= <-] [_ ->]]]. reflexivity.
  - simpl. split; [discriminate |]. intros [r' [Hr' _]]. discriminate.
Qed.

(** C5, as the code has it: the [Job] interface of the page declares the
    status as one of the six values pending, running, completed, failed,
    ready_for_review and approved (the earliest revision: the first
    four), among which the state names running_tests and analyzing of
    the specification are not.  The page does not check the status of
    the job it receives: a job of any status is displayed; every status
    but completed, failed, ready_for_review and approved gets the same
    default colours; and the approve button exists for the status
    ready_for_review only. *)
Theorem status_is_declared_but_not_checked :
  (forall n : string, n ∈ status_names <-> exists s : JobStatus, status_string s = n)
  /\ NoDup status_names
  /\ length status_names = 6%nat
  /\ (forall n : string, n ∈ earliest_status_names -> n ∈ status_names)
  /\ (forall n : string, n ∈ spec_state_names ->
        n ∈ status_names <-> n <> "running_tests" /\ n <> "analyzing")
  /\ (forall (Server : Type) (get_job : string -> Server -> JobOutcome * Server)
             (jobId : string) (srv : Server) (j : Job),
        fst (get_job jobId srv) = JobOk (Some j) ->
        pageView (fst (fetchJob Server get_job jobId initial_page srv)) = JobPage j)
  /\ (forall status : string,
        statusBadgeClass status = "bg-yellow-100 text-yellow-800"
        <-> status ∉ compared_status_names)
  /\ (forall j : Job, approveButtonShown j = true -> status j = ready_for_review).
Proof.
  split; [| split; [| split; [| split; [| split; [| split; [| split]]]]]].
  - intros n. unfold status_names. split.
    + intros Hn.
      repeat (apply elem_of_cons in Hn as [-> | Hn]);
        [ exists pending | exists running | exists completed | exists failed
        | exists ready_for_review | exists approved | ]; try reflexivity.
      inversion Hn.
    + intros [s <-]. destruct s; simpl; set_solver.
  - unfold status_names. apply (bool_decide_unpack _). vm_compute. exact I.
  - reflexivity.
  - intros n Hn. unfold earliest_status_names in Hn. unfold status_names.
    repeat (apply elem_of_cons in Hn as [-> | Hn]); try set_solver.
  - intros n Hn. unfold spec_state_names in Hn. unfold status_names.
    repeat (apply elem_of_cons in Hn as [-> | Hn]); try (by inversion Hn);
      (split; [intros Hin; try (split; discriminate);
               exfalso; apply (bool_decide_pack _) in Hin; vm_compute in Hin; exact Hin
              | intros [H1 H2]; try done; apply (bool_decide_unpack _); vm_compute; exact I]).
  - intros Server get_job jobId srv j Hj. unfold fetchJob.
    destruct (get_job jobId srv) as [o srv']. simpl in Hj. subst o. reflexivity.
  - intros status. unfold statusBadgeClass, compared_status_names.
    repeat case_bool_decide; subst; split; intros Hs; try discriminate Hs;
      try (exfalso; apply Hs; set_solver); try reflexivity.
    rewrite !not_elem_of_cons. repeat split; try assumption. apply not_elem_of_nil.
  - intros j Hj. unfold approveButtonShown in Hj.
    apply andb_true_iff in Hj as [Hs _]. by apply bool_decide_eq_true in Hs.
Qed.

(** C5, refuted as stated: [completed] is a status a job can have, and it
    is none of pending, running_tests, analyzing, ready_for_review,
    failed, approved. *)
Lemma status_outside_spec_names :
  ~ (forall s : JobStatus, status_string s ∈ spec_state_names).
Proof.
  intros H. specialize (H completed).
  apply (bool_decide_pack _) in H. vm_compute in H. exact H.
Qed.

(** A job whose status is "analyzing", which the union type does not
    have: the page that fetched it shows it, labelled ANALYZING on the
    default colours, without an approve button. *)
Example unlisted_status_is_displayed :
  let page := fst (fetchJob unit (fun _ s => (JobOk (Some analyzing_job), s))
                            "job-3" initial_page tt) in
  pageView page = JobPage analyzing_job
  /\ status analyzing_job ∉ status_names
  /\ statusLabel (status analyzing_job) = "ANALYZING"
  /\ statusBadgeClass (status analyzing_job) = "bg-yellow-100 text-yellow-800"
  /\ approveButtonShown analyzing_job = false.
Proof.
  repeat split; try reflexivity.
  intros Hin. apply (bool_decide_pack _) in Hin. vm_compute in Hin. exact Hin.
Qed.

(** C6: a test result that is degraded ([requires_manual_config] is
    true) is shown by a panel of its own: "Pytest Configuration
    Required", with the counts of the static fallback when there is one,
    in the first revision, and "TestSprite Analysis Running" in the
    second.  Those panels are shown for degraded results only, and the
    PASSED or FAILED badge is shown only for a result that is not
    degraded, as the badge of its [passed] flag. *)
Theorem degraded_result_never_shown_as_outcome (job : Job) (r : TestResult) :
  requires_manual_config r = Some true ->
  (pytest_result job = Some r ->
     renderPytestResults job = ConfigurationRequired (fallback_counts r))
  /\ (testsprite_result job = Some r ->
      renderTestSpriteResults job = AnalysisRunning)
  /\ (forall (job' : Job) (f : option (Z * Z)),
        renderPytestResults job' = ConfigurationRequired f <->
        exists r', pytest_result job' = Some r'
                   /\ requires_manual_config r' = Some true
                   /\ f = fallback_counts r')
  /\ (forall job' : Job,
        renderTestSpriteResults job' = AnalysisRunning <->
        exists r', testsprite_result job' = Some r'
                   /\ requires_manual_config r' = Some true)
  /\ (forall (job' : Job) (b : Badge),
        outcome_badge (renderPytestResults job') = Some b <->
        exists r', pytest_result job' = Some r'
                   /\ requires_manual_config r' <> Some true
                   /\ b = (if passed r' then PASSED else FAILED))
  /\ (forall (job' : Job) (b : Badge),
        outcome_badge (renderTestSpriteResults job') = Some b <->
        exists r', testsprite_result job' = Some r'
                   /\ requires_manual_config r' <> Some true
                   /\ b = (if passed r' then PASSED else FAILED)).
Proof.
  intros Hflag. split; [| split; [| split; [| split; [| split]]]].
  - intros Hres. rewrite pytest_panel, Hres.
    by rewrite (bool_decide_eq_true_2 _ Hflag).
  - intros Hres. rewrite testsprite_panel, Hres.
    by rewrite (bool_decide_eq_true_2 _ Hflag).
  - intros job' f. rewrite pytest_panel.
    destruct (pytest_result job') as [r' |].
    + case_bool_decide as Hf.
      * split; [intros [= <-]; by exists r' | intros [r'' [[= <-] [_ ->]]]; reflexivity].
      * split; [discriminate | intros [r'' [[= <-] [Hf' _]]]; done].
    + split; [discriminate | intros [r'' [Hr'' _]]; discriminate].
  - intros job'. rewrite testsprite_panel.
    destruct (testsprite_result job') as [r' |].
    + case_bool_decide as Hf.
      * split; [intros _; by exists r' | reflexivity].
      * split; [discriminate | intros [r'' [[= <-] Hf']]; done].
    + split; [discriminate | intros [r'' [Hr'' _]]; discriminate].
  - intros job' b. rewrite pytest_panel.
    exact (badge_iff_not_degraded (pytest_result job')
             (λ r', ConfigurationRequired (fallback_counts r')) b (λ _, eq_refl)).
  - intros job' b. rewrite testsprite_panel.
    exact (badge_iff_not_degraded (testsprite_result job')
             (λ _, AnalysisRunning) b (λ _, eq_refl)).
Qed.

Lemma degraded_result_never_shown_as_outcome_witness :
  (pytest_result degraded_job = Some degraded_result ->
     renderPytestResults degraded_job
     = ConfigurationRequired (fallback_counts degraded_result))
  /\ (testsprite_result degraded_job = Some degraded_result ->
      renderTestSpriteResults degraded_job = AnalysisRunning)
  /\ (forall (job' : Job) (f : option (Z * Z)),
        renderPytestResults job' = ConfigurationRequired f <->
        exists r', pytest_result job' = Some r'
                   /\ requires_manual_config r' = Some true
                   /\ f = fallback_counts r')
  /\ (forall job' : Job,
        renderTestSpriteResults job' = AnalysisRunning <->
        exists r', testsprite_result job' = Some r'
                   /\ requires_manual_config r' = Some true)
  /\ (forall (job' : Job) (b : Badge),
        outcome_badge (renderPytestResults job') = Some b <->
        exists r', pytest_result job' = Some r'
                   /\ requires_manual_config r' <> Some true
                   /\ b = (if passed r' then PASSED else FAILED))
  /\ (forall (job' : Job) (b : Badge),
        outcome_badge (renderTestSpriteResults job') = Some b <->
        exists r', testsprite_result job' = Some r'
                   /\ requires_manual_config r' <> Some true
                   /\ b = (if passed r' then PASSED else FAILED)).
Proof.
  apply (degraded_result_never_shown_as_outcome degraded_job degraded_result).
  reflexivity.
Defined.

(** The approve button exists exactly for a job in [ready_for_review]
    whose analysis carries a patch that is not empty. *)
Lemma approve_button_guard (job : Job) :
  approveButtonShown job = true <->
  status job = ready_for_review
  /\ exists a, gemini_analysis job = Some a /\ patch a <> EmptyString.
Proof.
  unfold approveButtonShown. rewrite andb_true_iff, bool_decide_eq_true.
  split.
  - intros [Hs Hp]. split; [exact Hs |].
    destruct (gemini_analysis job) as [a|]; simpl in Hp; [| discriminate].
    exists a. split; [reflexivity |].
    intros E. rewrite E in Hp. discriminate.
  - intros [Hs [a [Ha Hp]]]. split; [exact Hs |].
    rewrite Ha. simpl. destruct (patch a); [congruence | reflexivity].
Qed.

(** Closes a goal that says every request of a one-element list is the
    approve request or the refresh. *)
Ltac only_approve_sent :=
  let r := fresh "r" in
  let Hr := fresh "Hr" in
  intros r Hr; apply list_elem_of_singleton in Hr; left; exact Hr.

Section Handlers.
Variable Server : Type.
Variable get_job : string -> Server -> JobOutcome * Server.
Variable post_approve : string -> Server -> ApproveOutcome * Server.

(** The page sends an approve request only for the job it shows, and
    only when that job is in [ready_for_review] with a patch that is not
    empty. *)
Lemma approve_sent_only_when_ready (page : PageState) (srv : Server) :
  let '(_, _, sent, _) := clickApprove Server get_job post_approve page srv in
  forall jobId, PostApprove jobId ∈ sent ->
    exists j, job page = Some j /\ id j = jobId
              /\ status j = ready_for_review
              /\ exists a, gemini_analysis j = Some a /\ patch a <> EmptyString.
Proof.
  unfold clickApprove.
  destruct (job page) as [j |] eqn:Hjob; [| intros jobId H; inversion H].
  destruct (negb (loading page) && approveButtonShown j && negb (approving page))
    eqn:Hguard; [| intros jobId H; inversion H].
  rewrite !andb_true_iff in Hguard. destruct Hguard as [[_ Hshown] _].
  apply approve_button_guard in Hshown as [Hs Hp].
  unfold handleApprove. rewrite Hjob.
  destruct (post_approve (id j) srv) as [outcome srv1].
  assert (Hgoal : forall sent : list Request,
            (forall r, r ∈ sent -> r = PostApprove (id j) \/ r = GetJob (id j)) ->
            forall jobId, PostApprove jobId ∈ sent ->
              exists j0, Some j = Some j0 /\ id j0 = jobId
                         /\ status j0 = ready_for_review
                         /\ exists a, gemini_analysis j0 = Some a
                                      /\ patch a <> EmptyString).
  { intros sent Hsent jobId Hin. exists j.
    destruct (Hsent _ Hin) as [E | E]; [| discriminate E].
    injection E as <-. done. }
  destruct outcome as [| [result |] | [error |]]; cbv beta iota;
    try (apply Hgoal; only_approve_sent).
  destruct (fetchJob Server get_job (id j) _ srv1) as [page2 srv2].
  apply Hgoal. intros r Hr.
  apply elem_of_cons in Hr as [-> | Hr]; [by left |].
  apply list_elem_of_singleton in Hr. by right.
Qed.

(** An approval that does not end in the success alert leaves the job
    of the page as it was. *)
Lemma failed_approve_keeps_job (page : PageState) (srv : Server) :
  let '(page', _, _, alerts) := handleApprove Server get_job post_approve page srv in
  (forall prUrl, PullRequestCreated prUrl ∉ alerts) -> job page' = job page.
Proof.
  unfold handleApprove.
  destruct (job page) as [j |] eqn:Hjob; [| by intros _].
  destruct (post_approve (id j) srv) as [outcome srv1].
  destruct outcome as [| [result |] | [error |]]; cbv beta iota;
    try (intros _; reflexivity).
  destruct (fetchJob Server get_job (id j) _ srv1) as [page2 srv2].
  intros Hno. exfalso. apply (Hno (or_else result "Check your repository")). by left.
Qed.

End Handlers.

(** The badge writes a status in capitals with its first underscore
    turned into a space: the label is as long as the name, and the only
    status whose label still has an underscore is [ready_for_review],
    shown as "READY FOR_REVIEW". *)
Lemma status_label_keeps_second_underscore :
  (forall s : JobStatus, String.length (statusLabel s) = String.length (status_string s))
  /\ (forall s : JobStatus, occurs "_" (statusLabel s) = true <-> s = ready_for_review)
  /\ statusLabel ready_for_review = "READY FOR_REVIEW".
Proof.
  split; [| split].
  - intros []; reflexivity.
  - intros s. split.
    + intros Hin. destruct s; try reflexivity; vm_compute in Hin; discriminate Hin.
    + intros ->. reflexivity.
  - reflexivity.
Qed.

(** Two statuses get the same colour of badge exactly when they are
    equal or are [pending] and [running]: every other status can be told
    by its colour. *)
Lemma status_colour_tells_statuses_apart (s s' : JobStatus) :
  statusBadgeClass s = statusBadgeClass s' <->
  s = s' \/ (s ∈ [pending; running] /\ s' ∈ [pending; running]).
Proof.
  split.
  - intros Heq.
    destruct s, s'; try (left; reflexivity);
      try (right; split; set_solver); vm_compute in Heq; discriminate Heq.
  - intros [-> | [Hs Hs']]; [reflexivity |].
    apply elem_of_cons in Hs as [-> | Hs]; [| apply list_elem_of_singleton in Hs as ->];
    (apply elem_of_cons in Hs' as [-> | Hs']; [| apply list_elem_of_singleton in Hs' as ->]);
    reflexivity.
Qed.

(** Each revision of the card reads its own property of the job.  For a
    job that carries one result under both names, the two revisions show
    the same panel exactly when the result is not degraded, and the
    panel is then that of the normal results; for a degraded one the
    first revision shows "Pytest Configuration Required" with the counts
    of the static fallback and the second "TestSprite Analysis
    Running". *)
Lemma revisions_differ_only_on_degraded_results (job : Job) (r : TestResult) :
  pytest_result job = Some r ->
  testsprite_result job = Some r ->
  (renderPytestResults job = renderTestSpriteResults job <->
   requires_manual_config r <> Some true)
  /\ (requires_manual_config r = Some true ->
      renderPytestResults job = ConfigurationRequired (fallback_counts r)
      /\ renderTestSpriteResults job = AnalysisRunning)
  /\ (requires_manual_config r <> Some true ->
      renderPytestResults job = renderNormal r
      /\ renderTestSpriteResults job = renderNormal r).
Proof.
  intros Hp Ht. rewrite pytest_panel, testsprite_panel, Hp, Ht.
  case_bool_decide as Hflag.
  - split; [split; [discriminate | done] |]. split; [done |]. intros Hn. done.
  - split; [split; done |]. split; [intros Hf; done | done].
Qed.

(** The job that carries the degraded result under both names. *)
Lemma revisions_differ_only_on_degraded_results_witness :
  (renderPytestResults degraded_job = renderTestSpriteResults degraded_job <->
   requires_manual_config degraded_result <> Some true)
  /\ (requires_manual_config degraded_result = Some true ->
      renderPytestResults degraded_job
      = ConfigurationRequired (fallback_counts degraded_result)
      /\ renderTestSpriteResults degraded_job = AnalysisRunning)
  /\ (requires_manual_config degraded_result <> Some true ->
      renderPytestResults degraded_job = renderNormal degraded_result
      /\ renderTestSpriteResults degraded_job = renderNormal degraded_result).
Proof.
  apply (revisions_differ_only_on_degraded_results degraded_job degraded_result);
    reflexivity.
Defined.

Section Approval.
Variable Server : Type.
Variable get_job : string -> Server -> JobOutcome * Server.
Variable post_approve : string -> Server -> ApproveOutcome * Server.

(** [handleApprove] on a page that shows a job sends one approve
    request for that job, first; it reads the job again after, and only
    after, the approval that ends in the success alert; it shows exactly
    one alert, ends with [approving] false, and the page still shows a
    job. *)
Lemma approve_sends_once_and_settles (page : PageState) (srv : Server) (j : Job) :
  job page = Some j ->
  let '(page', _, sent, alerts) := handleApprove Server get_job post_approve page srv in
  approving page' = false
  /\ (exists j', job page' = Some j')
  /\ (exists rest, sent = PostApprove (id j) :: rest
                   /\ (rest = [] \/ rest = [GetJob (id j)])
                   /\ (rest <> [] <-> exists prUrl, alerts = [PullRequestCreated prUrl]))
  /\ length alerts = 1%nat.
Proof.
  intros Hjob. unfold handleApprove. rewrite Hjob.
  destruct (post_approve (id j) srv) as [outcome srv1].
  destruct outcome as [| [result |] | [error |]]; cbv beta iota.
  2: { unfold fetchJob. cbn [JobDetails.job JobDetails.loading JobDetails.approving].
       destruct (get_job (id j) srv1) as [o srv2].
       split; [reflexivity |]. split.
       { destruct o as [| | [d |]]; cbn; rewrite ?Hjob; eauto. }
       split; [| reflexivity].
       exists [GetJob (id j)]. split; [reflexivity |]. split; [by right |].
       split; [intros _; eauto | intros _; discriminate]. }
  all: split; [reflexivity |]; split; [cbn; rewrite ?Hjob; eauto |];
       split; [| reflexivity];
       exists []; split; [reflexivity |]; split; [by left |];
       split; [intros H; by destruct H | intros [prUrl H]; discriminate H].
Qed.

(** The first load of the page ends with the job of an ok response, and
    with "Job not found" after every other outcome: a request that
    fails, a response that is not ok, a body that cannot be read. *)
Lemma first_load_shows_job_or_not_found (jobId : string) (srv : Server) :
  pageView (fst (fetchJob Server get_job jobId initial_page srv))
  = match fst (get_job jobId srv) with
    | JobOk (Some data) => JobPage data
    | _ => JobNotFound
    end.
Proof.
  unfold fetchJob. destruct (get_job jobId srv) as [o srv'].
  destruct o as [| | [d |]]; reflexivity.
Qed.

End Approval.

(** The page of a job in review, approved against a server that accepts
    the approval. *)
Lemma approve_sends_once_and_settles_witness :
  let '(page', _, sent, alerts) :=
    handleApprove unit answer_job answer_approve review_page tt in
  approving page' = false
  /\ (exists j', job page' = Some j')
  /\ (exists rest, sent = PostApprove (id review_job) :: rest
                   /\ (rest = [] \/ rest = [GetJob (id review_job)])
                   /\ (rest <> [] <-> exists prUrl, alerts = [PullRequestCreated prUrl]))
  /\ length alerts = 1%nat.
Proof.
  apply (approve_sends_once_and_settles unit answer_job answer_approve
           review_page tt review_job).
  reflexivity.
Defined.

End JobDetailsProps.

Module RepositoriesPageProps.
Import RepositoriesPage.

Lemma elem_of_new_Set_from (seen xs : list string) (x : string) :
  x ∈ new_Set_from seen xs <-> x ∈ xs /\ x ∉ seen.
Proof.
  revert seen. induction xs as [| y rest IH]; intros seen; simpl.
  - set_solver.
  - case_bool_decide as Hy.
    + rewrite IH. set_solver.
    + rewrite elem_of_cons, IH. 
      destruct (decide (x = y)) as [-> | Hne]; set_solver.
Qed.

Lemma elem_of_new_Set (xs : list string) (x : string) :
  x ∈ new_Set xs <-> x ∈ xs.
Proof. unfold new_Set. rewrite elem_of_new_Set_from. set_solver. Qed.

Lemma elem_of_currentlyMonitored (st : PageState) (name : string) :
  name ∈ currentlyMonitored st <-> name ∈ map full_name (monitoredRepos st).
Proof. apply elem_of_new_Set. Qed.

Lemma filter_nil_of_all_fail {A} (P : A -> Prop) `{!∀ x, Decision (P x)} (l : list A) :
  (forall x, x ∈ l -> ~ P x) -> filter P l = [].
Proof.
  induction l as [| a l IH]; intros Hall; [reflexivity |].
  rewrite filter_cons. destruct (decide (P a)) as [Hp | _].
  - exfalso. apply (Hall a); [left | exact Hp].
  - apply IH. intros x Hx. apply Hall. right. exact Hx.
Qed.

Lemma kept_repository_untouched (st : PageState) (name : string) :
  name ∈ selectedRepos st ->
  name ∈ map full_name (monitoredRepos st) ->
  (name ∉ toAdd st) /\ (name ∉ toRemove st).
Proof.
  intros Hsel Hmon. unfold toAdd, toRemove. split; intros Hin;
    apply list_elem_of_filter in Hin as [Hnot _]; apply Hnot.
  - apply elem_of_currentlyMonitored. exact Hmon.
  - exact Hsel.
Qed.

Lemma unchanged_selection_plans_nothing (st : PageState) :
  (forall name, name ∈ selectedRepos st <-> name ∈ map full_name (monitoredRepos st)) ->
  toAdd st = [] /\ toRemove st = [].
Proof.
  intros Heq. split; apply filter_nil_of_all_fail; intros x Hx Hnot; apply Hnot.
  - apply elem_of_currentlyMonitored, Heq, Hx.
  - apply Heq, elem_of_currentlyMonitored, Hx.
Qed.

Section Handlers.
Variable Server : Type.
Variable get_repositories : Server -> GetOutcome (list Repository) * Server.
Variable get_github_repositories : Server -> GetOutcome (list GitHubRepo) * Server.
Variable post_monitor : string -> option string -> Server -> MutOutcome * Server.
Variable delete_unmonitor : Z -> Server -> MutOutcome * Server.

Lemma addLoop_sent (names : list string) (n : nat) (srv : Server) (sent : list Request) :
  match addLoop Server post_monitor names n srv sent with
  | (inr m, _, sent') =>
      sent' = (sent ++ map monitor_request names)%list /\ m = (n + length names)%nat
  | (inl _, _, sent') =>
      exists k, sent' = (sent ++ map monitor_request (take k names))%list
  end.
Proof.
  revert n srv sent. induction names as [| name rest IH]; intros n srv sent.
  - simpl. split; [by rewrite app_nil_r | lia].
  - cbn [addLoop]. destruct (post_monitor _ _ srv) as [outcome srv'].
    destruct outcome as [t | | errorData].
    + exists 1%nat. reflexivity.
    + specialize (IH (S n) srv' (sent ++ [monitor_request name])%list).
      destruct (addLoop Server post_monitor rest (S n) srv' _) as [[[t | m] srv''] sent''].
      * destruct IH as [k ->]. exists (S k). simpl. by rewrite <- app_assoc.
      * destruct IH as [-> ->]. simpl. split; [by rewrite <- app_assoc | lia].
    + exists 1%nat. reflexivity.
Qed.

Lemma unmonitor_request_found (monitored : list Repository) (name : string) (repo : Repository) :
  find_repo monitored name = Some repo ->
  unmonitor_request monitored name = Some (DeleteUnmonitor (id repo)).
Proof. intros H. unfold unmonitor_request. rewrite H. reflexivity. Qed.

Lemma unmonitor_request_missing (monitored : list Repository) (name : string) :
  find_repo monitored name = None -> unmonitor_request monitored name = None.
Proof. intros H. unfold unmonitor_request. rewrite H. reflexivity. Qed.

Lemma removeLoop_sent (monitored : list Repository) (names : list string)
    (n : nat) (srv : Server) (sent : list Request) :
  match removeLoop Server delete_unmonitor monitored names n srv sent with
  | (inr m, _, sent') =>
      sent' = (sent ++ omap (unmonitor_request monitored) names)%list
      /\ (n <= m <= n + length names)%nat
  | (inl _, _, sent') =>
      exists k, sent' = (sent ++ omap (unmonitor_request monitored) (take k names))%list
  end.
Proof.
  revert n srv sent. induction names as [| name rest IH]; intros n srv sent.
  - simpl. split; [by rewrite app_nil_r | lia].
  - cbn [removeLoop].
    destruct (find_repo monitored name) as [repo |] eqn:Hfind.
    + pose proof (unmonitor_request_found _ _ _ Hfind) as Hreq.
      destruct (delete_unmonitor _ srv) as [outcome srv'].
      destruct outcome as [t | | errorData].
      * exists 1%nat. simpl. rewrite Hreq. reflexivity.
      * specialize (IH (S n) srv' (sent ++ [DeleteUnmonitor (id repo)])%list).
        destruct (removeLoop Server delete_unmonitor monitored rest (S n) srv' _)
          as [[[t | m] srv''] sent''].
        -- destruct IH as [k ->]. exists (S k). simpl. rewrite Hreq.
           simpl. by rewrite <- app_assoc.
        -- destruct IH as [-> ?]. simpl. rewrite Hreq. simpl.
           split; [by rewrite <- app_assoc | lia].
      * exists 1%nat. simpl. rewrite Hreq. reflexivity.
    + pose proof (unmonitor_request_missing _ _ Hfind) as Hreq.
      specialize (IH n srv sent).
      destruct (removeLoop Server delete_unmonitor monitored rest n srv sent)
        as [[[t | m] srv''] sent''].
      * destruct IH as [k ->]. exists (S k). simpl. rewrite Hreq. reflexivity.
      * destruct IH as [-> ?]. simpl. rewrite Hreq. split; [reflexivity | lia].
Qed.

(** Neither revision of [fetchRepositories] sends a mutation or touches
    the success message. *)
Lemma fetchRepositories_reads_only (st : PageState) (srv : Server) :
  let '(st', _, sent) :=
    fetchRepositories Server get_repositories get_github_repositories st srv in
  filter is_mutation sent = [] /\ successMessage st' = successMessage st.
Proof.
  unfold fetchRepositories.
  destruct (get_repositories srv) as [m srv1].
  destruct (get_github_repositories srv1) as [g srv2].
  split; [reflexivity |].
  destruct m as [t | sm | [t | monitored]], g as [t' | sg | [t' | githubRepos]];
    simpl; repeat case_bool_decide; reflexivity.
Qed.

Lemma fetchRepositories_v1_reads_only (st : PageState) (srv : Server) :
  let '(st', _, sent) :=
    fetchRepositories_v1 Server get_repositories get_github_repositories st srv in
  filter is_mutation sent = [] /\ successMessage st' = successMessage st.
Proof.
  unfold fetchRepositories_v1.
  destruct (get_github_repositories srv) as [g srv1].
  destruct (get_repositories srv1) as [m srv2].
  split; [reflexivity |].
  destruct m as [t | sm | [t | monitored]], g as [t' | sg | [t' | githubRepos]];
    reflexivity.
Qed.


Lemma omap_cons_eq {A B} (f : A -> option B) (x : A) (l : list A) :
  omap f (x :: l) = match f x with Some y => y :: omap f l | None => omap f l end.
Proof. reflexivity. Qed.

Lemma monitor_requests_are_mutations (names : list string) :
  filter is_mutation (map monitor_request names) = map monitor_request names.
Proof.
  induction names as [| n rest IH]; [reflexivity |].
  simpl. rewrite filter_cons_True by exact I. by rewrite IH.
Qed.

Lemma unmonitor_requests_are_mutations (monitored : list Repository) (names : list string) :
  filter is_mutation (omap (unmonitor_request monitored) names)
  = omap (unmonitor_request monitored) names.
Proof.
  induction names as [| n rest IH]; [reflexivity |].
  rewrite omap_cons_eq.
  destruct (unmonitor_request monitored n) as [req |] eqn:Hreq; [| exact IH].
  assert (Hmut : is_mutation req).
  { unfold unmonitor_request in Hreq.
    destruct (find_repo monitored n); inversion Hreq. exact I. }
  rewrite filter_cons_True by exact Hmut. by rewrite IH.
Qed.

Lemma omap_take_prefix {A B} (f : A -> option B) (k : nat) (l : list A) :
  omap f (take k l) `prefix_of` omap f l.
Proof.
  exists (omap f (drop k l)). rewrite <- omap_app, take_drop. reflexivity.
Qed.

Lemma map_take_prefix {A B} (f : A -> B) (k : nat) (l : list A) :
  map f (take k l) `prefix_of` map f l.
Proof.
  exists (map f (drop k l)). rewrite <- map_app, take_drop. reflexivity.
Qed.

Section Save.
Variable refresh : PageState -> Server -> PageState * Server * list Request.
Hypothesis refresh_reads_only : forall st srv,
  let '(st', _, sent) := refresh st srv in
  filter is_mutation sent = [] /\ successMessage st' = successMessage st.

Lemma save_sends_planned_prefix (st : PageState) (srv : Server) :
  let '(_, _, sent) :=
    handleSaveSelectionWith Server post_monitor delete_unmonitor refresh st srv in
  filter is_mutation sent `prefix_of` planned_requests st.
Proof.
  unfold handleSaveSelectionWith, planned_requests.
  pose proof (addLoop_sent (toAdd st) 0 srv []) as Hadd.
  destruct (addLoop Server post_monitor (toAdd st) 0 srv []) as [[[t | added] srv1] sent1].
  - destruct Hadd as [k ->]. simpl. rewrite monitor_requests_are_mutations.
    apply prefix_app_r, map_take_prefix.
  - destruct Hadd as [-> _]. simpl.
    pose proof (removeLoop_sent (monitoredRepos st) (toRemove st) 0 srv1
                  (map monitor_request (toAdd st))) as Hrem.
    destruct (removeLoop Server delete_unmonitor (monitoredRepos st) (toRemove st) 0 srv1 _)
      as [[[t | removed] srv2] sent2].
    + destruct Hrem as [k ->].
      rewrite filter_app, monitor_requests_are_mutations, unmonitor_requests_are_mutations.
      apply prefix_app, omap_take_prefix.
    + destruct Hrem as [-> _].
      pose proof (refresh_reads_only
        (setSuccessMessage None (setError None (setSaving true st))) srv2) as Href.
      destruct (refresh _ srv2) as [[st2 srv3] sent3]. destruct Href as [Href _].
      rewrite !filter_app, Href, app_nil_r,
        monitor_requests_are_mutations, unmonitor_requests_are_mutations.
      reflexivity.
Qed.

Lemma save_unchanged_selection (st : PageState) (srv : Server) :
  (forall name, name ∈ selectedRepos st <-> name ∈ map full_name (monitoredRepos st)) ->
  let '(st', _, sent) :=
    handleSaveSelectionWith Server post_monitor delete_unmonitor refresh st srv in
  filter is_mutation sent = []
  /\ successMessage st' = Some "No changes were made"
  /\ saving st' = false.
Proof.
  intros Heq. destruct (unchanged_selection_plans_nothing st Heq) as [Hadd Hrem].
  unfold handleSaveSelectionWith. rewrite Hadd, Hrem. simpl.
  pose proof (refresh_reads_only
    (setSuccessMessage None (setError None (setSaving true st))) srv) as Href.
  destruct (refresh _ srv) as [[st2 srv3] sent3]. destruct Href as [Href _].
  simpl. split; [exact Href | split; reflexivity].
Qed.

End Save.

(** C9: saving a selection equal to the monitored set computes empty
    to-add and to-remove lists, sends no monitor or unmonitor request and
    reports "No changes were made", in both revisions of the page; and,
    for any selection, a repository that is monitored and still selected
    is in neither list, the monitor and unmonitor requests sent being a
    prefix of those the two lists call for. *)
Theorem save_of_unchanged_selection_changes_nothing :
  (forall (st : PageState) (srv : Server),
     (forall name, name ∈ selectedRepos st <-> name ∈ map full_name (monitoredRepos st)) ->
     toAdd st = [] /\ toRemove st = []
     /\ (let '(st', _, sent) :=
           handleSaveSelection Server get_repositories get_github_repositories
             post_monitor delete_unmonitor st srv in
         filter is_mutation sent = []
         /\ successMessage st' = Some "No changes were made")
     /\ (let '(st', _, sent) :=
           handleSaveSelection_v1 Server get_repositories get_github_repositories
             post_monitor delete_unmonitor st srv in
         filter is_mutation sent = []
         /\ successMessage st' = Some "No changes were made"))
  /\ (forall (st : PageState) (srv : Server) (name : string),
        name ∈ selectedRepos st ->
        name ∈ map full_name (monitoredRepos st) ->
        (name ∉ toAdd st) /\ (name ∉ toRemove st)
        /\ (let '(_, _, sent) :=
              handleSaveSelection Server get_repositories get_github_repositories
                post_monitor delete_unmonitor st srv in
            filter is_mutation sent `prefix_of` planned_requests st)
        /\ (let '(_, _, sent) :=
              handleSaveSelection_v1 Server get_repositories get_github_repositories
                post_monitor delete_unmonitor st srv in
            filter is_mutation sent `prefix_of` planned_requests st)).
Proof.
  split.
  - intros st srv Heq.
    destruct (unchanged_selection_plans_nothing st Heq) as [Hadd Hrem].
    split; [exact Hadd | split; [exact Hrem |]].
    split.
    + pose proof (save_unchanged_selection _ fetchRepositories_reads_only st srv Heq) as H.
      unfold handleSaveSelection.
      destruct (handleSaveSelectionWith _ _ _ _ st srv) as [[st' srv'] sent].
      destruct H as [H1 [H2 _]]. split; assumption.
    + pose proof (save_unchanged_selection _ fetchRepositories_v1_reads_only st srv Heq) as H.
      unfold handleSaveSelection_v1.
      destruct (handleSaveSelectionWith _ _ _ _ st srv) as [[st' srv'] sent].
      destruct H as [H1 [H2 _]]. split; assumption.
  - intros st srv name Hsel Hmon.
    destruct (kept_repository_untouched st name Hsel Hmon) as [Ha Hr].
    split; [exact Ha | split; [exact Hr |]].
    split.
    + apply (save_sends_planned_prefix _ fetchRepositories_reads_only).
    + apply (save_sends_planned_prefix _ fetchRepositories_v1_reads_only).
Qed.

End Handlers.

(** The page of one monitored repository, saved with that repository
    still selected, against a server that answers every call. *)
Lemma save_of_unchanged_selection_changes_nothing_witness :
  toAdd saved_page = [] /\ toRemove saved_page = []
  /\ (let '(st', _, sent) :=
        handleSaveSelection unit answer_monitored answer_github
          answer_monitor answer_unmonitor saved_page tt in
      filter is_mutation sent = []
      /\ successMessage st' = Some "No changes were made")
  /\ (let '(st', _, sent) :=
        handleSaveSelection_v1 unit answer_monitored answer_github
          answer_monitor answer_unmonitor saved_page tt in
      filter is_mutation sent = []
      /\ successMessage st' = Some "No changes were made").
Proof.
  apply (proj1 (save_of_unchanged_selection_changes_nothing unit answer_monitored
                  answer_github answer_monitor answer_unmonitor) saved_page tt).
  intros name. vm_compute. tauto.
Defined.

Import SplitProps.

Lemma NoDup_new_Set_from (seen xs : list string) : NoDup (new_Set_from seen xs).
Proof.
  revert seen. induction xs as [| x rest IH]; intros seen; simpl.
  - constructor.
  - case_bool_decide as Hx; [apply IH |].
    constructor; [| apply IH].
    rewrite elem_of_new_Set_from. intros [_ Hn]. apply Hn. left.
Qed.

Lemma NoDup_new_Set (xs : list string) : NoDup (new_Set xs).
Proof. apply NoDup_new_Set_from. Qed.

Lemma filter_ne_absent (name : string) (l : list string) :
  name ∉ l -> filter (λ x, x ≠ name) l = l.
Proof.
  induction l as [| y l IH]; intros Hn; [reflexivity |].
  rewrite filter_cons. destruct (decide (y ≠ name)) as [_ | Heq].
  - f_equal. apply IH. intros H. apply Hn. by right.
  - exfalso. apply Hn. destruct (decide (y = name)) as [-> | Hne]; [left | done].
Qed.

Lemma length_filter_ne (name : string) (l : list string) :
  NoDup l -> name ∈ l -> S (length (filter (λ x, x ≠ name) l)) = length l.
Proof.
  induction l as [| y l IH]; intros Hnd Hin; [inversion Hin |].
  apply NoDup_cons in Hnd as [Hy Hnd]. rewrite filter_cons.
  destruct (decide (y ≠ name)) as [Hne | Heq].
  - simpl. f_equal. apply IH; [exact Hnd |].
    apply elem_of_cons in Hin as [-> | Hin]; [done | exact Hin].
  - assert (y = name) as -> by (destruct (decide (y = name)); done).
    rewrite (filter_ne_absent name l Hy). reflexivity.
Qed.

(** One click on a checkbox flips the selection of that repository and
    of no other: the selection stays free of duplicates, its size
    changes by exactly one, and the two lists of repositories are not
    touched. *)
Theorem toggle_flips_one_repository (name : string) (st : PageState) :
  NoDup (selectedRepos st) ->
  let st' := handleRepoToggle name st in
  NoDup (selectedRepos st')
  /\ (name ∈ selectedRepos st' <-> name ∉ selectedRepos st)
  /\ (forall other, other <> name ->
        other ∈ selectedRepos st' <-> other ∈ selectedRepos st)
  /\ length (selectedRepos st')
     = (if has (selectedRepos st) name then length (selectedRepos st) - 1
        else length (selectedRepos st) + 1)%nat
  /\ repos st' = repos st /\ monitoredRepos st' = monitoredRepos st.
Proof.
  intros Hnd. unfold handleRepoToggle, has. cbv zeta.
  case_bool_decide as Hin; cbn [selectedRepos setSelectedRepos repos monitoredRepos].
  - split; [by apply NoDup_filter |]. split.
    { rewrite list_elem_of_filter. split; [intros [Hne _]; done | done]. }
    split.
    { intros other Hne. rewrite list_elem_of_filter. tauto. }
    split; [| done].
    pose proof (length_filter_ne name _ Hnd Hin). lia.
  - split.
    { apply NoDup_app. split; [exact Hnd |]. split; [| apply NoDup_singleton].
      intros x Hx Hx'. apply list_elem_of_singleton in Hx' as ->. done. }
    split.
    { rewrite elem_of_app, list_elem_of_singleton. tauto. }
    split.
    { intros other Hne. rewrite elem_of_app, list_elem_of_singleton. tauto. }
    split; [| done].
    rewrite length_app. reflexivity.
Qed.

Lemma toggle_flips_one_repository_witness :
  let st' := handleRepoToggle "acme/widgets" saved_page in
  NoDup (selectedRepos st')
  /\ ("acme/widgets" ∈ selectedRepos st' <-> "acme/widgets" ∉ selectedRepos saved_page)
  /\ (forall other, other <> "acme/widgets" ->
        other ∈ selectedRepos st' <-> other ∈ selectedRepos saved_page)
  /\ length (selectedRepos st')
     = (if has (selectedRepos saved_page) "acme/widgets"
        then length (selectedRepos saved_page) - 1
        else length (selectedRepos saved_page) + 1)%nat
  /\ repos st' = repos saved_page /\ monitoredRepos st' = monitoredRepos saved_page.
Proof.
  apply (toggle_flips_one_repository "acme/widgets" saved_page).
  apply (bool_decide_unpack _). vm_compute. exact I.
Defined.

(** Two clicks on the same checkbox give back the selection, as a set;
    when the repository was not selected before, the whole state is the
    same again. *)
Theorem toggle_twice_restores_selection (name : string) (st : PageState) :
  NoDup (selectedRepos st) ->
  selectedRepos (handleRepoToggle name (handleRepoToggle name st)) ≡ₚ selectedRepos st
  /\ (name ∉ selectedRepos st ->
      handleRepoToggle name (handleRepoToggle name st) = st).
Proof.
  intros Hnd. destruct st as [rs ms sel ld sv er sm].
  unfold handleRepoToggle, has. cbn [selectedRepos setSelectedRepos] in *.
  destruct (decide (name ∈ sel)) as [Hin | Hout].
  - rewrite (bool_decide_eq_true_2 _ Hin). cbn [selectedRepos setSelectedRepos].
    rewrite bool_decide_eq_false_2
      by (rewrite list_elem_of_filter; intros [Hne _]; done).
    cbn [selectedRepos setSelectedRepos]. split; [| done].
    apply NoDup_Permutation; [| exact Hnd |].
    + apply NoDup_app. split; [by apply NoDup_filter |].
      split; [| apply NoDup_singleton].
      intros x Hx Hx'. apply list_elem_of_singleton in Hx' as ->.
      apply list_elem_of_filter in Hx as [Hne _]. done.
    + intros x. rewrite elem_of_app, list_elem_of_filter, list_elem_of_singleton.
      destruct (decide (x = name)) as [-> | Hne]; tauto.
  - rewrite (bool_decide_eq_false_2 _ Hout). cbn [selectedRepos setSelectedRepos].
    rewrite bool_decide_eq_true_2
      by (rewrite elem_of_app, list_elem_of_singleton; by right).
    cbn [selectedRepos setSelectedRepos repos monitoredRepos loading saving error successMessage].
    rewrite filter_app, (filter_ne_absent name sel Hout), filter_cons, filter_nil.
    destruct (decide (name ≠ name)) as [Hne | _]; [done |].
    rewrite app_nil_r. split; [reflexivity | intros _; reflexivity].
Qed.

Lemma toggle_twice_restores_selection_witness :
  selectedRepos (handleRepoToggle "acme/widgets" (handleRepoToggle "acme/widgets" saved_page))
    ≡ₚ selectedRepos saved_page
  /\ ("acme/widgets" ∉ selectedRepos saved_page ->
      handleRepoToggle "acme/widgets" (handleRepoToggle "acme/widgets" saved_page)
      = saved_page).
Proof.
  apply (toggle_twice_restores_selection "acme/widgets" saved_page).
  apply (bool_decide_unpack _). vm_compute. exact I.
Defined.


(** The monitor request of a full name carries the text before the
    first slash as [owner] and the text between the first and the second
    slash as [repo]; a name without a slash has no [repo] at all. *)
Theorem monitor_request_splits_full_name (owner repo : string) :
  occurs "/" owner = false ->
  monitor_request owner = PostMonitor owner None
  /\ monitor_request (owner ++ "/" ++ repo)
     = PostMonitor owner (Some (List.hd EmptyString (split_slash repo)))
  /\ (occurs "/" repo = false ->
      monitor_request (owner ++ "/" ++ repo) = PostMonitor owner (Some repo)).
Proof.
  intros Ho. unfold monitor_request, split_slash.
  assert (E : split_on "/" (owner ++ "/" ++ repo) = owner :: split_on "/" repo).
  { apply (split_on_at_first "/" owner repo Ho). }
  rewrite E, (split_on_without _ _ Ho). split; [reflexivity |].
  assert (E' : forall l : list string, l <> [] -> (owner :: l) !! 1%nat = Some (List.hd EmptyString l)).
  { intros [| x l] Hl; [done | reflexivity]. }
  split.
  - cbn [List.hd]. rewrite E' by apply split_on_not_nil. reflexivity.
  - intros Hr. rewrite (split_on_without _ _ Hr). reflexivity.
Qed.

Lemma monitor_request_splits_full_name_witness :
  monitor_request "acme" = PostMonitor "acme" None
  /\ monitor_request ("acme" ++ "/" ++ "widgets")
     = PostMonitor "acme" (Some (List.hd EmptyString (split_slash "widgets")))
  /\ (occurs "/" "widgets" = false ->
      monitor_request ("acme" ++ "/" ++ "widgets") = PostMonitor "acme" (Some "widgets")).
Proof.
  apply (monitor_request_splits_full_name "acme" "widgets"). reflexivity.
Defined.

Lemma toRemove_found (st : PageState) (name : string) :
  name ∈ toRemove st ->
  exists repo, find_repo (monitoredRepos st) name = Some repo
               /\ repo ∈ monitoredRepos st /\ full_name repo = name
               /\ name ∉ selectedRepos st.
Proof.
  unfold toRemove. rewrite list_elem_of_filter, elem_of_currentlyMonitored.
  intros [Hsel Hmon]. apply list_elem_of_fmap in Hmon as [r [-> Hr]].
  unfold find_repo.
  destruct (List.find (λ r0, bool_decide (full_name r0 = full_name r)) (monitoredRepos st))
    as [repo |] eqn:Hfind.
  - apply find_some in Hfind as [Hin Hname]. apply bool_decide_eq_true in Hname.
    exists repo. split; [reflexivity |]. split; [by apply list_elem_of_In |]. done.
  - exfalso. apply list_elem_of_In in Hr.
    pose proof (find_none _ _ Hfind r Hr) as Hf. simpl in Hf.
    rewrite bool_decide_eq_true_2 in Hf by reflexivity. discriminate.
Qed.

(** Every name of [toRemove] is found among the monitored repositories:
    the [if (repo)] of the second loop never skips a name. *)
Lemma omap_unmonitor_toRemove (st : PageState) (names : list string) :
  (forall name, name ∈ names -> name ∈ toRemove st) ->
  length (omap (unmonitor_request (monitoredRepos st)) names) = length names.
Proof.
  induction names as [| n rest IH]; intros Hall; [reflexivity |].
  rewrite omap_cons_eq.
  destruct (toRemove_found st n) as [repo [Hfind _]]; [apply Hall; left |].
  rewrite (unmonitor_request_found _ _ _ Hfind). simpl. f_equal.
  apply IH. intros name Hname. apply Hall. by right.
Qed.

Lemma elem_of_planned (st : PageState) (r : Request) :
  r ∈ planned_requests st ->
  (exists name, r = monitor_request name /\ name ∈ selectedRepos st
                /\ name ∉ map full_name (monitoredRepos st))
  \/ (exists repo, r = DeleteUnmonitor (id repo) /\ repo ∈ monitoredRepos st
                   /\ full_name repo ∉ selectedRepos st).
Proof.
  unfold planned_requests. rewrite elem_of_app. intros [Hadd | Hrem].
  - left. apply list_elem_of_fmap in Hadd as [name [-> Hname]].
    exists name. split; [reflexivity |].
    unfold toAdd in Hname. apply list_elem_of_filter in Hname as [Hnot Hsel].
    split; [exact Hsel |]. intros Hm. apply Hnot, elem_of_currentlyMonitored, Hm.
  - right. apply list_elem_of_omap in Hrem as [name [Hname Hreq]].
    destruct (toRemove_found st name Hname) as [repo [Hfind [Hin [Heq Hsel]]]].
    rewrite (unmonitor_request_found _ _ _ Hfind) in Hreq. injection Hreq as <-.
    exists repo. rewrite Heq. done.
Qed.

Section Planned.
Variable Server : Type.
Variable get_repositories : Server -> GetOutcome (list Repository) * Server.
Variable get_github_repositories : Server -> GetOutcome (list GitHubRepo) * Server.
Variable post_monitor : string -> option string -> Server -> MutOutcome * Server.
Variable delete_unmonitor : Z -> Server -> MutOutcome * Server.

Lemma removeLoop_count (monitored : list Repository) (names : list string)
    (n : nat) (srv : Server) (sent : list Request) :
  match removeLoop Server delete_unmonitor monitored names n srv sent with
  | (inr m, _, _) => m = (n + length (omap (unmonitor_request monitored) names))%nat
  | (inl _, _, _) => True
  end.
Proof.
  revert n srv sent. induction names as [| name rest IH]; intros n srv sent.
  - simpl. lia.
  - cbn [removeLoop]. rewrite omap_cons_eq.
    destruct (find_repo monitored name) as [repo |] eqn:Hfind.
    + rewrite (unmonitor_request_found _ _ _ Hfind).
      destruct (delete_unmonitor _ srv) as [outcome srv'].
      destruct outcome as [t | | errorData]; [exact I | | exact I].
      specialize (IH (S n) srv' (sent ++ [DeleteUnmonitor (id repo)])%list).
      destruct (removeLoop Server delete_unmonitor monitored rest (S n) srv' _)
        as [[[t | m] srv''] sent'']; [exact I |]. simpl. lia.
    + rewrite (unmonitor_request_missing _ _ Hfind). apply IH.
Qed.

(** Whatever the backend answers, a save asks to monitor only
    repositories that are selected and not monitored, and to unmonitor
    only monitored repositories that are not selected. *)
Theorem save_only_sends_what_the_selection_calls_for (st : PageState) (srv : Server) :
  let '(_, _, sent) :=
    handleSaveSelection Server get_repositories get_github_repositories
      post_monitor delete_unmonitor st srv in
  forall r, r ∈ sent -> is_mutation r = true ->
    (exists name, r = monitor_request name /\ name ∈ selectedRepos st
                  /\ name ∉ map full_name (monitoredRepos st))
    \/ (exists repo, r = DeleteUnmonitor (id repo) /\ repo ∈ monitoredRepos st
                     /\ full_name repo ∉ selectedRepos st).
Proof.
  pose proof (save_sends_planned_prefix Server post_monitor delete_unmonitor
                (fetchRepositories Server get_repositories get_github_repositories)
                (fetchRepositories_reads_only Server get_repositories
                   get_github_repositories) st srv) as Hpre.
  unfold handleSaveSelection.
  destruct (handleSaveSelectionWith _ _ _ _ st srv) as [[st' srv'] sent].
  intros r Hr Hmut. apply elem_of_planned.
  destruct Hpre as [more ->]. apply elem_of_app. left.
  apply list_elem_of_filter. split; [by rewrite Hmut | exact Hr].
Qed.

End Planned.

Section Outcome.
Variable Server : Type.
Variable get_repositories : Server -> GetOutcome (list Repository) * Server.
Variable get_github_repositories : Server -> GetOutcome (list GitHubRepo) * Server.
Variable post_monitor : string -> option string -> Server -> MutOutcome * Server.
Variable delete_unmonitor : Z -> Server -> MutOutcome * Server.

Lemma fetchRepositories_sent (st : PageState) (srv : Server) :
  snd (fetchRepositories Server get_repositories get_github_repositories st srv)
  = [GetRepositories; GetGitHubRepositories].
Proof.
  unfold fetchRepositories.
  destruct (get_repositories srv) as [m srv1].
  destruct (get_github_repositories srv1) as [g srv2]. reflexivity.
Qed.

(** A save ends in one of two ways.  With a success message: every
    planned request was sent, in order, then the two lists were read
    again, and the message counts the names to add and to remove.
    Without one: a request failed, an error is shown, nothing was sent
    after the failed request, the lists were not read again, and the
    lists and the selection are as they were.  Either way [saving] is
    false at the end. *)
Theorem save_ends_in_success_or_error (st : PageState) (srv : Server) :
  let '(st', _, sent) :=
    handleSaveSelection Server get_repositories get_github_repositories
      post_monitor delete_unmonitor st srv in
  saving st' = false
  /\ match successMessage st' with
     | Some text =>
         sent = (planned_requests st ++ [GetRepositories; GetGitHubRepositories])%list
         /\ text = success_text (length (toAdd st)) (length (toRemove st))
     | None =>
         (exists text, error st' = Some text)
         /\ sent `prefix_of` planned_requests st
         /\ repos st' = repos st
         /\ monitoredRepos st' = monitoredRepos st
         /\ selectedRepos st' = selectedRepos st
     end.
Proof.
  unfold handleSaveSelection, handleSaveSelectionWith, planned_requests.
  pose proof (addLoop_sent Server post_monitor (toAdd st) 0 srv []) as Hadd.
  destruct (addLoop Server post_monitor (toAdd st) 0 srv []) as [[[t | added] srv1] sent1].
  - destruct Hadd as [k ->]. cbn.
    split; [reflexivity |]. split; [eauto |].
    split; [apply prefix_app_r, map_take_prefix | done].
  - destruct Hadd as [-> ->]. rewrite app_nil_l.
    pose proof (removeLoop_sent Server delete_unmonitor (monitoredRepos st) (toRemove st) 0 srv1
                  (map monitor_request (toAdd st))) as Hrem.
    pose proof (removeLoop_count Server delete_unmonitor (monitoredRepos st) (toRemove st) 0 srv1
                  (map monitor_request (toAdd st))) as Hcount.
    destruct (removeLoop Server delete_unmonitor (monitoredRepos st) (toRemove st) 0 srv1 _)
      as [[[t | removed] srv2] sent2].
    + destruct Hrem as [k ->]. cbn.
      split; [reflexivity |]. split; [eauto |].
      split; [apply prefix_app, omap_take_prefix | done].
    + destruct Hrem as [-> _].
      rewrite (omap_unmonitor_toRemove st (toRemove st)) in Hcount by done.
      pose proof (fetchRepositories_sent
        (setSuccessMessage None (setError None (setSaving true st))) srv2) as Hsent.
      destruct (fetchRepositories Server get_repositories get_github_repositories _ srv2)
        as [[st2 srv3] sent3]. simpl in Hsent. subst sent3. cbn.
      split; [reflexivity |]. split; [reflexivity |].
      rewrite Hcount. reflexivity.
Qed.

Lemma addLoop_accepted (names : list string) (n : nat) (srv : Server) (sent : list Request) :
  (forall owner repo s, fst (post_monitor owner repo s) = MutOk) ->
  exists srv', addLoop Server post_monitor names n srv sent
               = (inr (n + length names)%nat, srv', (sent ++ map monitor_request names)%list).
Proof.
  intros Hok. revert n srv sent. induction names as [| name rest IH]; intros n srv sent.
  - exists srv. simpl. rewrite app_nil_r. do 2 f_equal. f_equal. lia.
  - cbn [addLoop]. pose proof (Hok (List.hd EmptyString (split_slash name))
                                   (split_slash name !! 1%nat) srv) as H1.
    destruct (post_monitor _ _ srv) as [outcome srv1]. simpl in H1. subst outcome.
    destruct (IH (S n) srv1 (sent ++ [monitor_request name])%list) as [srv' ->].
    exists srv'. simpl. rewrite <- app_assoc. do 2 f_equal. f_equal. lia.
Qed.

Lemma removeLoop_accepted (monitored : list Repository) (names : list string)
    (n : nat) (srv : Server) (sent : list Request) :
  (forall id s, fst (delete_unmonitor id s) = MutOk) ->
  exists srv', removeLoop Server delete_unmonitor monitored names n srv sent
               = (inr (n + length (omap (unmonitor_request monitored) names))%nat, srv',
                  (sent ++ omap (unmonitor_request monitored) names)%list).
Proof.
  intros Hok. revert n srv sent. induction names as [| name rest IH]; intros n srv sent.
  - exists srv. simpl. rewrite app_nil_r. do 2 f_equal. f_equal. lia.
  - cbn [removeLoop]. rewrite omap_cons_eq.
    destruct (find_repo monitored name) as [repo |] eqn:Hfind.
    + rewrite (unmonitor_request_found _ _ _ Hfind).
      pose proof (Hok (id repo) srv) as H1.
      destruct (delete_unmonitor _ srv) as [outcome srv1]. simpl in H1. subst outcome.
      destruct (IH (S n) srv1 (sent ++ [DeleteUnmonitor (id repo)])%list) as [srv' ->].
      exists srv'. simpl. rewrite <- app_assoc. do 2 f_equal. f_equal. lia.
    + rewrite (unmonitor_request_missing _ _ Hfind). apply IH.
Qed.

(** Against a backend that accepts every request, a save sends a monitor
    request for each name to add, then an unmonitor request for each
    name to remove (each is found among the monitored repositories),
    then reads the two lists again, and reports the two counts. *)
Theorem accepted_save_sends_every_planned_request (st : PageState) (srv : Server) :
  (forall owner repo s, fst (post_monitor owner repo s) = MutOk) ->
  (forall id s, fst (delete_unmonitor id s) = MutOk) ->
  let '(st', _, sent) :=
    handleSaveSelection Server get_repositories get_github_repositories
      post_monitor delete_unmonitor st srv in
  sent = (map monitor_request (toAdd st)
          ++ omap (unmonitor_request (monitoredRepos st)) (toRemove st)
          ++ [GetRepositories; GetGitHubRepositories])%list
  /\ length (omap (unmonitor_request (monitoredRepos st)) (toRemove st))
     = length (toRemove st)
  /\ successMessage st'
     = Some (success_text (length (toAdd st)) (length (toRemove st)))
  /\ saving st' = false.
Proof.
  intros Hadd Hrem. unfold handleSaveSelection, handleSaveSelectionWith.
  destruct (addLoop_accepted (toAdd st) 0 srv [] Hadd) as [srv1 ->].
  destruct (removeLoop_accepted (monitoredRepos st) (toRemove st) 0 srv1
              ([] ++ map monitor_request (toAdd st)) Hrem) as [srv2 ->].
  pose proof (omap_unmonitor_toRemove st (toRemove st) (λ _ H, H)) as Hlen.
  pose proof (fetchRepositories_sent
    (setSuccessMessage None (setError None (setSaving true st))) srv2) as Hsent.
  destruct (fetchRepositories Server get_repositories get_github_repositories _ srv2)
    as [[st2 srv3] sent3]. simpl in Hsent. subst sent3. cbn.
  rewrite Hlen. rewrite <- app_assoc. done.
Qed.

(** After a [fetchRepositories] that got both lists, the selection is
    the set of the monitored full names, so that a save right after it
    plans nothing, sends no monitor or unmonitor request and reports
    "No changes were made". *)
Theorem save_after_fetch_changes_nothing (st : PageState) (srv srv1 srv2 : Server)
    (monitored : list Repository) (githubRepos : list GitHubRepo) :
  get_repositories srv = (GetOk (inr monitored), srv1) ->
  get_github_repositories srv1 = (GetOk (inr githubRepos), srv2) ->
  let '(st1, _, _) :=
    fetchRepositories Server get_repositories get_github_repositories st srv in
  monitoredRepos st1 = monitored
  /\ repos st1 = githubRepos
  /\ NoDup (selectedRepos st1)
  /\ (forall name, name ∈ selectedRepos st1 <-> name ∈ map full_name monitored)
  /\ loading st1 = false
  /\ planned_requests st1 = []
  /\ forall srv',
       let '(st2, _, sent) :=
         handleSaveSelection Server get_repositories get_github_repositories
           post_monitor delete_unmonitor st1 srv' in
       filter is_mutation sent = []
       /\ successMessage st2 = Some "No changes were made".
Proof.
  intros Hm Hg. unfold fetchRepositories. rewrite Hm, Hg.
  cbn [monitoredRepos repos selectedRepos loading setLoading setSelectedRepos
       setRepos setMonitoredRepos].
  split; [reflexivity |]. split; [reflexivity |].
  split; [apply NoDup_new_Set |].
  assert (Heq : forall name, name ∈ new_Set (map full_name monitored)
                             <-> name ∈ map full_name monitored).
  { intros name. apply elem_of_new_Set. }
  split; [exact Heq |]. split; [reflexivity |].
  match goal with |- planned_requests ?s = [] /\ _ => set (st1 := s) end.
  assert (Heq1 : forall name, name ∈ selectedRepos st1
                              <-> name ∈ map full_name (monitoredRepos st1)) by exact Heq.
  split.
  - unfold planned_requests.
    destruct (unchanged_selection_plans_nothing st1 Heq1) as [-> ->]. reflexivity.
  - intros srv'.
    pose proof (save_unchanged_selection Server post_monitor delete_unmonitor
                  (fetchRepositories Server get_repositories get_github_repositories)
                  (fetchRepositories_reads_only Server get_repositories
                     get_github_repositories) st1 srv' Heq1) as H.
    unfold handleSaveSelection.
    destruct (handleSaveSelectionWith _ _ _ _ st1 srv') as [[st2 srv''] sent].
    destruct H as [H1 [H2 _]]. done.
Qed.

(** How [fetchRepositories] ends, by the two answers.  When both lists
    arrive, they are stored and the monitored names are selected, an
    earlier error message staying as it was.  When both promises settled
    with a response and one response is a 401, both lists are emptied,
    the selection is kept and the request to authenticate is shown.  In
    every other case (a promise rejected, a response that is not ok and
    no 401, a body that cannot be read) an error is shown and the two
    lists and the selection are kept.  [loading] is false at the end. *)
Theorem failed_fetch_keeps_selection (st : PageState) (srv : Server) :
  let m := fst (get_repositories srv) in
  let g := fst (get_github_repositories (snd (get_repositories srv))) in
  let '(st', _, _) :=
    fetchRepositories Server get_repositories get_github_repositories st srv in
  loading st' = false
  /\ (forall monitored githubRepos,
        m = GetOk (inr monitored) -> g = GetOk (inr githubRepos) ->
        monitoredRepos st' = monitored /\ repos st' = githubRepos
        /\ selectedRepos st' = new_Set (map full_name monitored)
        /\ error st' = error st)
  /\ (rejected m = false -> rejected g = false ->
      status_is_401 m || status_is_401 g = true ->
      repos st' = [] /\ monitoredRepos st' = []
      /\ selectedRepos st' = selectedRepos st
      /\ error st' = Some authenticate_message)
  /\ ((rejected m = true \/ rejected g = true
       \/ status_is_401 m || status_is_401 g = false) ->
      (forall monitored githubRepos,
         ~ (m = GetOk (inr monitored) /\ g = GetOk (inr githubRepos))) ->
      repos st' = repos st /\ monitoredRepos st' = monitoredRepos st
      /\ selectedRepos st' = selectedRepos st
      /\ exists text, error st' = Some text).
Proof.
  cbv zeta. unfold fetchRepositories.
  destruct (get_repositories srv) as [m srv1]. cbn [fst snd].
  destruct (get_github_repositories srv1) as [g srv2]. cbn [fst snd].
  split.
  { destruct m as [t | sm | [t | monitored]], g as [t' | sg | [t' | githubRepos]];
      simpl; repeat case_bool_decide; reflexivity. }
  split.
  { intros monitored githubRepos -> ->. done. }
  split.
  - intros Hm Hg H401.
    destruct m as [t | sm | [t | monitored]], g as [t' | sg | [t' | githubRepos]];
      simpl in *; try discriminate; repeat case_bool_decide; simpl in *;
      try discriminate; done.
  - intros Hcase Hnot.
    destruct m as [t | sm | [t | monitored]], g as [t' | sg | [t' | githubRepos]];
      simpl in *; repeat case_bool_decide; simpl in *;
      try (repeat split; try reflexivity; eauto; fail);
      try (exfalso; destruct Hcase as [Hc | [Hc | Hc]]; discriminate Hc).
    exfalso. apply (Hnot monitored githubRepos). done.
Qed.

End Outcome.

(** The page with a second repository selected, saved against a server
    that accepts every request. *)
Lemma accepted_save_sends_every_planned_request_witness :
  let '(st', _, sent) :=
    handleSaveSelection unit answer_monitored answer_github
      answer_monitor answer_unmonitor edited_page tt in
  sent = (map monitor_request (toAdd edited_page)
          ++ omap (unmonitor_request (monitoredRepos edited_page)) (toRemove edited_page)
          ++ [GetRepositories; GetGitHubRepositories])%list
  /\ length (omap (unmonitor_request (monitoredRepos edited_page)) (toRemove edited_page))
     = length (toRemove edited_page)
  /\ successMessage st'
     = Some (success_text (length (toAdd edited_page)) (length (toRemove edited_page)))
  /\ saving st' = false.
Proof.
  apply (accepted_save_sends_every_planned_request unit answer_monitored answer_github
           answer_monitor answer_unmonitor edited_page tt); intros; reflexivity.
Defined.

(** The same server, asked for the lists and then to save. *)
Lemma save_after_fetch_changes_nothing_witness :
  let '(st1, _, _) :=
    fetchRepositories unit answer_monitored answer_github edited_page tt in
  monitoredRepos st1 = [widgets]
  /\ repos st1 = [widgets_on_github]
  /\ NoDup (selectedRepos st1)
  /\ (forall name, name ∈ selectedRepos st1 <-> name ∈ map full_name [widgets])
  /\ loading st1 = false
  /\ planned_requests st1 = []
  /\ forall srv',
       let '(st2, _, sent) :=
         handleSaveSelection unit answer_monitored answer_github
           answer_monitor answer_unmonitor st1 srv' in
       filter is_mutation sent = []
       /\ successMessage st2 = Some "No changes were made".
Proof.
  apply (save_after_fetch_changes_nothing unit answer_monitored answer_github
           answer_monitor answer_unmonitor edited_page tt tt tt
           [widgets] [widgets_on_github]); reflexivity.
Defined.

(** "Select All" checks every row of the list and "Clear All" none.  A
    save after "Clear All" plans no monitor request and one unmonitor
    request per monitored full name; a save after "Select All" plans to
    unmonitor exactly the monitored repositories that the GitHub list
    does not have. *)
Theorem select_all_and_clear_all (st : PageState) :
  (forall repo, repo ∈ repos st -> isSelected (selectAll st) repo = true)
  /\ (forall repo, isSelected (clearAll st) repo = false)
  /\ toAdd (clearAll st) = []
  /\ toRemove (clearAll st) = currentlyMonitored st
  /\ length (planned_requests (clearAll st)) = length (currentlyMonitored st)
  /\ (forall name, name ∈ toRemove (selectAll st) <->
        name ∈ map full_name (monitoredRepos st)
        /\ name ∉ map gh_full_name (repos st)).
Proof.
  split; [| split; [| split; [| split; [| split]]]].
  - intros repo Hrepo. unfold isSelected, selectAll, has. simpl.
    apply bool_decide_eq_true_2, elem_of_new_Set, list_elem_of_fmap. eauto.
  - intros repo. reflexivity.
  - reflexivity.
  - unfold toRemove, clearAll. simpl.
    change (currentlyMonitored (setSelectedRepos [] st)) with (currentlyMonitored st).
    induction (currentlyMonitored st) as [| x l IH]; [reflexivity |].
    rewrite filter_cons_True; [by rewrite IH | intros H; inversion H].
  - unfold planned_requests.
    assert (E : toAdd (clearAll st) = []) by reflexivity. rewrite E. simpl.
    assert (Hrem : toRemove (clearAll st) = currentlyMonitored (clearAll st)).
    { unfold toRemove, clearAll. simpl.
      induction (currentlyMonitored (setSelectedRepos [] st)) as [| x l IH]; [reflexivity |].
      rewrite filter_cons_True; [by rewrite IH | intros H; inversion H]. }
    rewrite (omap_unmonitor_toRemove (clearAll st)) by done.
    rewrite Hrem. reflexivity.
  - intros name. unfold toRemove, selectAll. simpl. rewrite list_elem_of_filter.
    change (currentlyMonitored (setSelectedRepos _ st)) with (currentlyMonitored st).
    rewrite elem_of_currentlyMonitored, elem_of_new_Set. tauto.
Qed.

Lemma filter_only_removed_from (name : string) (l l0 : list string) :
  NoDup l0 -> (forall x, x ∈ l0 -> x ∈ l) ->
  filter (λ x, x ∉ filter (λ y, y ≠ name) l) l0
  = if bool_decide (name ∈ l0) then [name] else [].
Proof.
  induction l0 as [| a l0 IH]; intros Hnd Hsub; [reflexivity |].
  apply NoDup_cons in Hnd as [Ha Hnd].
  assert (Hsub' : forall x, x ∈ l0 -> x ∈ l) by (intros x Hx; apply Hsub; by right).
  rewrite filter_cons, (IH Hnd Hsub').
  destruct (decide (a = name)) as [-> | Hne].
  - rewrite (bool_decide_eq_false_2 _ Ha).
    rewrite decide_True by (rewrite list_elem_of_filter; intros [H _]; done).
    rewrite bool_decide_eq_true_2 by left. reflexivity.
  - rewrite decide_False.
    + destruct (decide (name ∈ l0)) as [Hin | Hout].
      * rewrite !bool_decide_eq_true_2; [reflexivity | by right | exact Hin].
      * rewrite !bool_decide_eq_false_2; [reflexivity | | exact Hout].
        rewrite not_elem_of_cons. split; [congruence | exact Hout].
    + intros Hn. apply Hn. apply list_elem_of_filter. split; [exact Hne |].
      apply Hsub. left.
Qed.

(** On a page whose selection is the monitored set, as a successful
    [fetchRepositories] leaves it, one click plans one request: checking
    a repository that is not monitored plans the monitor request of its
    name and nothing else; unchecking a monitored one plans the
    unmonitor request of the first monitored repository of that name
    and nothing else. *)
Theorem one_toggle_plans_one_request (name : string) (st : PageState) :
  selectedRepos st = currentlyMonitored st ->
  (name ∉ currentlyMonitored st ->
   planned_requests (handleRepoToggle name st) = [monitor_request name])
  /\ (name ∈ currentlyMonitored st ->
      exists repo, find_repo (monitoredRepos st) name = Some repo
                   /\ full_name repo = name
                   /\ planned_requests (handleRepoToggle name st)
                      = [DeleteUnmonitor (id repo)]).
Proof.
  intros Hsel.
  assert (Hnd : NoDup (currentlyMonitored st)) by apply NoDup_new_Set.
  assert (Hcm : forall l, currentlyMonitored (setSelectedRepos l st) = currentlyMonitored st)
    by reflexivity.
  assert (Hmr : forall l, monitoredRepos (setSelectedRepos l st) = monitoredRepos st)
    by reflexivity.
  unfold planned_requests, handleRepoToggle, has, toAdd, toRemove. rewrite Hsel.
  split.
  - intros Hout. rewrite (bool_decide_eq_false_2 _ Hout), Hcm, Hmr.
    cbn [selectedRepos setSelectedRepos].
    rewrite filter_app.
    rewrite (filter_nil_of_all_fail (λ x, x ∉ currentlyMonitored st) (currentlyMonitored st))
      by (intros x Hx Hn; exact (Hn Hx)).
    rewrite filter_cons_True by exact Hout. rewrite filter_nil.
    rewrite (filter_nil_of_all_fail _ (currentlyMonitored st)); [reflexivity |].
    intros x Hx Hn. apply Hn. apply elem_of_app. by left.
  - intros Hin. rewrite (bool_decide_eq_true_2 _ Hin), Hcm, Hmr.
    cbn [selectedRepos setSelectedRepos].
    rewrite (filter_nil_of_all_fail (λ x, x ∉ currentlyMonitored st)
               (filter (λ x, x ≠ name) (currentlyMonitored st)))
      by (intros x [_ Hx]%list_elem_of_filter Hn; exact (Hn Hx)).
    rewrite (filter_only_removed_from name _ _ Hnd (λ _ H, H)).
    rewrite (bool_decide_eq_true_2 _ Hin).
    assert (Hrem : name ∈ toRemove (setSelectedRepos
                     (filter (λ x, x ≠ name) (currentlyMonitored st)) st)).
    { unfold toRemove. rewrite Hcm. cbn [selectedRepos setSelectedRepos].
      apply list_elem_of_filter. split; [| exact Hin].
      rewrite list_elem_of_filter. intros [Hne _]. done. }
    unfold toRemove in Hrem.
    apply elem_of_currentlyMonitored in Hin.
    apply list_elem_of_fmap in Hin as [r [-> Hr]].
    unfold find_repo.
    destruct (List.find (λ r0, bool_decide (full_name r0 = full_name r)) (monitoredRepos st))
      as [repo |] eqn:Hfind.
    + pose proof Hfind as Hfind'.
      apply find_some in Hfind' as [_ Hname]. apply bool_decide_eq_true in Hname.
      exists repo. split; [reflexivity |]. split; [exact Hname |].
      cbn [map app omap list_omap]. unfold unmonitor_request, find_repo.
      rewrite Hfind. reflexivity.
    + exfalso. apply list_elem_of_In in Hr.
      pose proof (find_none _ _ Hfind r Hr) as Hf. simpl in Hf.
      rewrite bool_decide_eq_true_2 in Hf by reflexivity. discriminate.
Qed.

Lemma one_toggle_plans_one_request_witness :
  ("acme/widgets" ∉ currentlyMonitored saved_page ->
   planned_requests (handleRepoToggle "acme/widgets" saved_page)
   = [monitor_request "acme/widgets"])
  /\ ("acme/widgets" ∈ currentlyMonitored saved_page ->
      exists repo, find_repo (monitoredRepos saved_page) "acme/widgets" = Some repo
                   /\ full_name repo = "acme/widgets"
                   /\ planned_requests (handleRepoToggle "acme/widgets" saved_page)
                      = [DeleteUnmonitor (id repo)]).
Proof.
  apply (one_toggle_plans_one_request "acme/widgets" saved_page). reflexivity.
Defined.

Section EarlierRevision.
Variable Server : Type.
Variable get_repositories : Server -> GetOutcome (list Repository) * Server.
Variable get_github_repositories : Server -> GetOutcome (list GitHubRepo) * Server.


End EarlierRevision.

End RepositoriesPageProps.

Module DiffViewerProps.
Import DiffViewer.

Lemma opened_app (p a b : list string) :
  opened p (a ++ b) = (opened p a ++ opened (p ++ a) b)%list.
Proof.
  revert p. induction a as [| x a IH]; intros p; simpl.
  - by rewrite app_nil_r.
  - rewrite IH, <- !app_assoc. reflexivity.
Qed.

Lemma lines_of_app (name : string) (p a b : list string) :
  lines_of name p (a ++ b) = (lines_of name p a ++ lines_of name (p ++ a) b)%list.
Proof.
  revert p. induction a as [| x a IH]; intros p; simpl.
  - by rewrite app_nil_r.
  - rewrite IH, <- !app_assoc. reflexivity.
Qed.

Lemma header_names_app (a b : list string) :
  header_names (a ++ b) = (header_names a ++ header_names b)%list.
Proof. unfold header_names. by rewrite List.filter_app, map_app. Qed.

Lemma current_file_snoc (prev : list string) (line : string) :
  current_file (prev ++ [line]) =
  if opens prev line then header_name line else current_file prev.
Proof.
  unfold current_file. rewrite rev_app_distr. simpl. by rewrite rev_involutive.
Qed.

(** Every opened name is the name of a header. *)
Lemma opened_is_header_name (prev : list string) (name : string) :
  name ∈ opened [] prev -> name ∈ header_names prev.
Proof.
  induction prev as [| line prev IH] using rev_ind; [intros H; inversion H |].
  rewrite opened_app, header_names_app. simpl. rewrite app_nil_r.
  intros [H | H]%elem_of_app; apply elem_of_app.
  - left. by apply IH.
  - right. unfold opens in H. unfold header_names. simpl.
    destruct (is_header line); simpl in H; [| inversion H].
    repeat case_bool_decide; simpl in H; try (inversion H; fail).
    exact H.
Qed.

(** A header name is opened unless the prototype defines it. *)
Lemma header_name_opened (prev : list string) (name : string) :
  name ∈ header_names prev -> name ∈ opened [] prev \/ name ∈ inherited_keys.
Proof.
  induction prev as [| line prev IH] using rev_ind; [intros H; inversion H |].
  rewrite opened_app, header_names_app. simpl. rewrite app_nil_r.
  intros [H | H]%elem_of_app.
  - destruct (IH H) as [Ho | Hi]; [left; apply elem_of_app; by left | by right].
  - unfold header_names in H. simpl in H. unfold opens.
    destruct (is_header line) eqn:Hh; simpl in H; [| inversion H].
    apply list_elem_of_singleton in H as ->. simpl.
    destruct (decide (header_name line ∈ inherited_keys)) as [Hi | Hi]; [by right |].
    destruct (decide (header_name line ∈ header_names prev)) as [Hp | Hp].
    + destruct (IH Hp) as [Ho | Hi']; [left; apply elem_of_app; by left | by right].
    + left. apply elem_of_app. right.
      rewrite !bool_decide_eq_false_2 by assumption. simpl. by left.
Qed.

Lemma NoDup_opened (prev : list string) : NoDup (opened [] prev).
Proof.
  induction prev as [| line prev IH] using rev_ind; [constructor |].
  rewrite opened_app. simpl. rewrite app_nil_r.
  destruct (opens prev line) eqn:Ho; [| by rewrite app_nil_r].
  apply NoDup_app. split; [exact IH | split; [| apply NoDup_singleton]].
  intros x Hx Hx'. apply list_elem_of_singleton in Hx' as ->.
  apply opened_is_header_name in Hx.
  unfold opens in Ho. rewrite !andb_true_iff in Ho. destruct Ho as [[_ Ho] _].
  rewrite bool_decide_eq_true_2 in Ho by exact Hx. discriminate Ho.
Qed.

(** The file in force, when it has a name, has been opened. *)
Lemma current_file_opened (prev : list string) :
  current_file prev <> EmptyString -> current_file prev ∈ opened [] prev.
Proof.
  induction prev as [| line prev IH] using rev_ind; [intros H; by destruct H |].
  rewrite current_file_snoc, opened_app. simpl. rewrite app_nil_r.
  destruct (opens prev line); intros H; apply elem_of_app.
  - right. by left.
  - left. by apply IH.
Qed.

(** A file that is not opened yet holds no line. *)
Lemma lines_of_unopened (name : string) (prev : list string) :
  name ∉ opened [] prev -> lines_of name [] prev = [].
Proof.
  induction prev as [| line prev IH] using rev_ind; [reflexivity |].
  rewrite opened_app, lines_of_app. simpl. rewrite !app_nil_r.
  intros Hn. rewrite IH by (intros H; apply Hn, elem_of_app; by left).
  simpl. destruct (negb (is_header line)); simpl; [| reflexivity].
  destruct name as [| c name]; simpl; [reflexivity |].
  case_bool_decide as Hc; [| reflexivity].
  exfalso. apply Hn, elem_of_app. left. rewrite <- Hc.
  apply current_file_opened. rewrite Hc. discriminate.
Qed.

Lemma own_map (g : string -> list string) (names : list string) (name : string) :
  own (map (λ n, (n, g n)) names) name =
  if bool_decide (name ∈ names) then Some (g name) else None.
Proof.
  induction names as [| k rest IH]; cbn [own map].
  - rewrite bool_decide_eq_false_2; [reflexivity | apply not_elem_of_nil].
  - destruct (decide (k = name)) as [-> | Hk].
    + rewrite (bool_decide_eq_true_2 (name = name)) by reflexivity.
      rewrite bool_decide_eq_true_2 by (by left). reflexivity.
    + rewrite (bool_decide_eq_false_2 (k = name)) by exact Hk. rewrite IH.
      rewrite (bool_decide_ext (name ∈ k :: rest) (name ∈ rest)); [reflexivity |].
      rewrite elem_of_cons. naive_solver.
Qed.

Lemma push_map (g : string -> list string) (names : list string) (name line : string) :
  NoDup names -> name ∈ names ->
  push (map (λ n, (n, g n)) names) name line =
  Some (map (λ n, (n, if bool_decide (n = name) then (g n ++ [line])%list else g n)) names).
Proof.
  induction names as [| k rest IH]; intros Hnd Hin; [inversion Hin |].
  apply NoDup_cons in Hnd as [Hk Hnd]. simpl.
  case_bool_decide as Hkn.
  - subst k. f_equal. f_equal.
    apply map_ext_in. intros n Hn%list_elem_of_In.
    rewrite bool_decide_eq_false_2; [reflexivity |]. by intros ->.
  - apply elem_of_cons in Hin as [-> | Hin]; [by destruct Hkn |].
    rewrite (IH Hnd Hin). reflexivity.
Qed.

Lemma opens_not_header (prev : list string) (line : string) :
  is_header line = false -> opens prev line = false.
Proof. intros H. unfold opens. by rewrite H. Qed.

Lemma reads_truthy_assignment (prev : list string) (line : string) :
  is_header line = true ->
  negb (reads_truthy (assignment prev) (header_name line)) = opens prev line.
Proof.
  intros Hh. unfold reads_truthy, assignment, opens. rewrite own_map, Hh.
  rewrite andb_true_l.
  destruct (decide (header_name line ∈ inherited_keys)) as [Hi | Hi].
  - rewrite (bool_decide_eq_true_2 (header_name line ∈ inherited_keys) Hi), andb_false_r.
    destruct (bool_decide (header_name line ∈ opened [] prev)); reflexivity.
  - rewrite (bool_decide_eq_false_2 (header_name line ∈ inherited_keys) Hi), andb_true_r.
    destruct (decide (header_name line ∈ header_names prev)) as [Hp | Hp].
    + rewrite (bool_decide_eq_true_2 (header_name line ∈ header_names prev) Hp).
      destruct (header_name_opened _ _ Hp) as [Ho | Hi']; [| by destruct Hi].
      by rewrite (bool_decide_eq_true_2 _ Ho).
    + rewrite (bool_decide_eq_false_2 (header_name line ∈ header_names prev) Hp).
      rewrite (bool_decide_eq_false_2 (header_name line ∈ opened [] prev));
        [reflexivity |].
      intros Ho. by apply Hp, opened_is_header_name.
Qed.

Lemma lines_of_snoc (name : string) (prev : list string) (line : string) :
  lines_of name [] (prev ++ [line]) =
  (lines_of name [] prev
   ++ (if negb (is_header line) && truthy_string name
          && bool_decide (current_file prev = name)
       then [line] else []))%list.
Proof. rewrite lines_of_app. simpl. by rewrite app_nil_r. Qed.

Lemma opened_snoc (prev : list string) (line : string) :
  opened [] (prev ++ [line]) =
  (opened [] prev ++ (if opens prev line then [header_name line] else []))%list.
Proof. rewrite opened_app. simpl. by rewrite app_nil_r. Qed.

Lemma truthy_string_spec (s : string) : truthy_string s = true <-> s <> EmptyString.
Proof. destruct s; simpl; split; intros H; congruence. Qed.

Lemma assignment_snoc (prev : list string) (line : string) :
  assignment (prev ++ [line]) =
  map (λ n, (n, (lines_of n [] prev
                 ++ (if negb (is_header line) && truthy_string n
                        && bool_decide (current_file prev = n)
                     then [line] else []))%list))
      (opened [] prev ++ (if opens prev line then [header_name line] else [])).
Proof.
  unfold assignment. rewrite opened_snoc. apply map_ext.
  intros n. by rewrite lines_of_snoc.
Qed.

Lemma step_described (prev : list string) (line : string) :
  step (described prev) line = Some (described (prev ++ [line])).
Proof.
  unfold step, described. rewrite assignment_snoc, current_file_snoc.
  destruct (is_header line) eqn:Hh; cbn [negb andb].
  - rewrite reads_truthy_assignment by exact Hh.
    destruct (opens prev line) eqn:Ho.
    + f_equal. f_equal. rewrite map_app. unfold assignment. f_equal.
      * apply map_ext. intros n. by rewrite app_nil_r.
      * cbn [map]. rewrite app_nil_r.
        rewrite lines_of_unopened; [reflexivity |].
        intros Hin%opened_is_header_name.
        unfold opens in Ho. rewrite !andb_true_iff in Ho. destruct Ho as [[_ Ho] _].
        rewrite bool_decide_eq_true_2 in Ho by exact Hin. discriminate Ho.
    + f_equal. f_equal. rewrite app_nil_r. unfold assignment.
      apply map_ext. intros n. by rewrite app_nil_r.
  - rewrite (opens_not_header _ _ Hh), app_nil_r.
    destruct (truthy_string (current_file prev)) eqn:Hc.
    + unfold assignment.
      rewrite push_map;
        [| apply NoDup_opened | by apply current_file_opened, truthy_string_spec].
      f_equal. f_equal. apply map_ext. intros n.
      f_equal. f_equal. destruct (decide (n = current_file prev)) as [-> | Hn].
      * rewrite Hc, !bool_decide_eq_true_2 by reflexivity. reflexivity.
      * rewrite (bool_decide_eq_false_2 (n = current_file prev)) by exact Hn.
        rewrite (bool_decide_eq_false_2 (current_file prev = n)) by congruence.
        by rewrite andb_false_r, app_nil_r.
    + f_equal. f_equal. unfold assignment. apply map_ext. intros n.
      destruct (decide (current_file prev = n)) as [<- | Hn].
      * by rewrite Hc, app_nil_r.
      * rewrite (bool_decide_eq_false_2 (current_file prev = n)) by exact Hn.
        by rewrite andb_false_r, app_nil_r.
Qed.

Lemma forEach_described (lines prev : list string) :
  forEach lines (described prev) = Some (described (prev ++ lines)).
Proof.
  revert prev. induction lines as [| line rest IH]; intros prev; cbn [forEach].
  - by rewrite app_nil_r.
  - rewrite step_described, IH, <- app_assoc. reflexivity.
Qed.

Lemma parsePatch_is_assignment (patchContent : string) :
  parsePatch patchContent = Some (assignment (split_on LF patchContent)).
Proof.
  unfold parsePatch.
  change (([] : Files), EmptyString) with (described []).
  rewrite forEach_described. reflexivity.
Qed.

Lemma forEach_app (a b : list string) (st : LoopState) :
  forEach (a ++ b) st =
  match forEach a st with Some st' => forEach b st' | None => None end.
Proof.
  revert st. induction a as [| x a IH]; intros st; cbn [forEach app]; [reflexivity |].
  destruct (step st x); [apply IH | reflexivity].
Qed.

(** Lines that hold no header leave the loop where it started. *)
Lemma described_without_header (pre : list string) :
  header_names pre = [] -> described pre = ([], EmptyString).
Proof.
  intros Hnone.
  assert (Hop : opened [] pre = []).
  { destruct (opened [] pre) as [| n l] eqn:E; [reflexivity |].
    assert (Hn : n ∈ header_names pre) by (apply opened_is_header_name; rewrite E; by left).
    rewrite Hnone in Hn. inversion Hn. }
  unfold described, assignment. rewrite Hop. f_equal.
  destruct (current_file pre) as [| c r] eqn:Hc; [reflexivity |].
  assert (Hin : current_file pre ∈ opened [] pre)
    by (apply current_file_opened; rewrite Hc; discriminate).
  rewrite Hop in Hin. inversion Hin.
Qed.

(** C10, refuted as stated: in "--- a/A", "+++ b/B", "--- a/A", "x" the
    header seen last before "x" names A, and "x" is put with B, because
    the second header of A opens nothing. *)
Lemma line_after_repeated_header_goes_elsewhere :
  ~ follows_latest_header reopened_patch.
Proof.
  intros H.
  destruct (H [("A", []); ("B", ["x"])] ["--- a/A"; "+++ b/B"; "--- a/A"] "x" []
              "--- a/A") as [ls [Hown Hin]]; try reflexivity.
  vm_compute in Hown. injection Hown as <-. inversion Hin.
Qed.

Lemma header_names_nil_snoc (mid : list string) (x : string) :
  header_names (mid ++ [x]) = [] -> header_names mid = [] /\ is_header x = false.
Proof.
  rewrite header_names_app. intros [H1 H2]%app_eq_nil. split; [exact H1 |].
  unfold header_names in H2. simpl in H2. destruct (is_header x); [discriminate | reflexivity].
Qed.

Lemma current_file_no_header (p mid : list string) :
  header_names mid = [] -> current_file (p ++ mid) = current_file p.
Proof.
  induction mid as [| x mid IH] using rev_ind; intros H; [by rewrite app_nil_r |].
  apply header_names_nil_snoc in H as [Hmid Hx].
  rewrite app_assoc, current_file_snoc, (opens_not_header _ _ Hx). by apply IH.
Qed.

Lemma follows_opening_header (patchContent : string) :
  follows_latest_opening_header patchContent.
Proof.
  intros files before h between line rest Hparse Hsplit Hopens Hname Hbetween Hline.
  rewrite parsePatch_is_assignment, Hsplit in Hparse. injection Hparse as <-.
  set (name := header_name h) in *.
  set (lines := (before ++ h :: between ++ line :: rest)%list).
  assert (Hin : name ∈ opened [] lines).
  { unfold lines. rewrite opened_app. apply elem_of_app. right.
    cbn [opened]. rewrite app_nil_l, Hopens. by left. }
  exists (lines_of name [] lines). split.
  - unfold assignment. rewrite own_map. by rewrite bool_decide_eq_true_2.
  - unfold lines.
    replace (before ++ h :: between ++ line :: rest)%list
      with (((before ++ [h]) ++ between) ++ line :: rest)%list
      by (rewrite <- !app_assoc; reflexivity).
    rewrite lines_of_app. apply elem_of_app. right.
    cbn [lines_of]. rewrite app_nil_l, Hline.
    rewrite (current_file_no_header _ _ Hbetween), current_file_snoc, Hopens.
    fold name. rewrite bool_decide_eq_true_2 by reflexivity.
    apply truthy_string_spec in Hname. rewrite Hname. by left.
Qed.

(** C10, as the code has it: [parsePatch] returns, for every patch, the
    file map in which each line that is no header is with the file in
    force, the file named by the latest header that opened one (a header
    whose name, taken from character 6 on, no earlier header has and
    [Object.prototype] does not define), and with no file while that name
    is empty; so a line follows the header seen last whenever that header
    opened a file with a name; the lines before the first header are
    discarded, and a patch without header parses to the empty map and
    renders no block. *)
Theorem parsePatch_assigns_to_opening_header (patchContent : string) :
  let lines := split_on LF patchContent in
  parsePatch patchContent = Some (assignment lines)
  /\ follows_latest_opening_header patchContent
  /\ (forall pre rest : list string,
        lines = (pre ++ rest)%list -> header_names pre = [] ->
        parsePatch patchContent = fst <$> forEach rest ([], EmptyString))
  /\ (header_names lines = [] ->
        parsePatch patchContent = Some []
        /\ DiffViewer false patchContent = Some (ParsedDiff [])).
Proof.
  intros lines.
  split; [apply parsePatch_is_assignment | split; [apply follows_opening_header | split]].
  - intros pre rest Hsplit Hnone. unfold parsePatch. fold lines.
    rewrite Hsplit, forEach_app.
    change (([] : Files), EmptyString) with (described []).
    rewrite forEach_described, app_nil_l, (described_without_header pre Hnone).
    destruct (forEach rest _) as [[files cur] |]; reflexivity.
  - intros Hnone.
    assert (Hp : parsePatch patchContent = Some []).
    { rewrite parsePatch_is_assignment. fold lines.
      pose proof (described_without_header lines Hnone) as Hd.
      unfold described in Hd. by injection Hd as -> _. }
    split; [exact Hp |]. unfold DiffViewer. rewrite Hp. reflexivity.
Qed.

Example typical_patch_parsed :
  parsePatch typical_patch
  = Some [("app.py", ["@@ -1 +1 @@"; "-x = eval(s)"; "+x = int(s)"])]
  /\ DiffViewer false typical_patch
     = Some (ParsedDiff [("app.py", [(text_yellow_400, "@@ -1 +1 @@");
                                     (text_red_400, "-x = eval(s)");
                                     (text_green_400, "+x = int(s)")])]).
Proof. split; reflexivity. Qed.

Import SplitProps.

Lemma lines_of_sublist (name : string) (prev lines : list string) :
  lines_of name prev lines `sublist_of` lines.
Proof.
  revert prev. induction lines as [| line rest IH]; intros prev; simpl.
  - constructor.
  - destruct (negb (is_header line) && truthy_string name
              && bool_decide (current_file prev = name)); simpl.
    + apply sublist_skip, IH.
    + apply sublist_cons, IH.
Qed.

Lemma lines_of_no_header (name : string) (prev lines : list string) (l : string) :
  l ∈ lines_of name prev lines -> is_header l = false.
Proof.
  revert prev. induction lines as [| line rest IH]; intros prev; simpl.
  - intros H. inversion H.
  - rewrite elem_of_app. intros [H | H]; [| exact (IH _ H)].
    destruct (is_header line) eqn:Eh; simpl in H; [inversion H |].
    destruct (truthy_string name && bool_decide (current_file prev = name));
      [| inversion H].
    apply list_elem_of_singleton in H as ->. exact Eh.
Qed.

(** [parsePatch] returns for every text; the files it returns have
    distinct names, each the name of a header line of the patch and
    none a name of [Object.prototype]; the lines of a file are lines of
    the patch that are no headers, in the order of the patch. *)
Theorem parsePatch_files_are_well_formed (patchContent : string) :
  exists files,
    parsePatch patchContent = Some files
    /\ NoDup (map fst files)
    /\ forall fileName lines, (fileName, lines) ∈ files ->
         fileName ∈ header_names (split_on LF patchContent)
         /\ (fileName ∉ inherited_keys)
         /\ lines `sublist_of` split_on LF patchContent
         /\ forall line, line ∈ lines -> is_header line = false.
Proof.
  exists (assignment (split_on LF patchContent)).
  split; [apply parsePatch_is_assignment |].
  set (ls := split_on LF patchContent). unfold assignment. split.
  - rewrite map_map. simpl. rewrite map_id. apply NoDup_opened.
  - intros fileName lines Hin.
    apply list_elem_of_fmap in Hin as [name [[= -> ->] Hname]].
    split; [by apply opened_is_header_name |]. split.
    + clear -Hname. revert Hname. generalize (@nil string) as prev.
      induction ls as [| line rest IH]; intros prev Hname; simpl in Hname.
      * inversion Hname.
      * apply elem_of_app in Hname as [H | H]; [| exact (IH _ H)].
        unfold opens in H.
        destruct (is_header line); simpl in H; [| inversion H].
        destruct (bool_decide (header_name line ∈ header_names prev));
          simpl in H; [inversion H |].
        case_bool_decide as Hk; simpl in H; [inversion H |].
        apply list_elem_of_singleton in H as ->. exact Hk.
    + split; [apply lines_of_sublist |].
      intros line. apply lines_of_no_header.
Qed.

Lemma insert_by_index_perm {A : Type} (n : N) (a : A) (l : list (N * A)) :
  insert_by_index n a l ≡ₚ (n, a) :: l.
Proof.
  induction l as [| [m b] rest IH]; simpl; [reflexivity |].
  destruct (n <? m)%N; [reflexivity |].
  rewrite IH. apply Permutation_swap.
Qed.

Lemma Object_entries_perm (files : Files) : Object_entries files ≡ₚ files.
Proof.
  unfold Object_entries. induction files as [| [k v] rest IH]; simpl; [reflexivity |].
  destruct (array_index k) as [n |].
  - rewrite insert_by_index_perm. simpl. by constructor.
  - rewrite <- Permutation_middle. by constructor.
Qed.

Lemma Object_entries_plain (files : Files) :
  (forall name, name ∈ map fst files -> array_index name = None) ->
  Object_entries files = files.
Proof.
  unfold Object_entries. induction files as [| [k v] rest IH]; intros Hall;
    [reflexivity |].
  cbn [index_entries string_entries].
  rewrite (Hall k) by (simpl; left).
  assert (Hrest : forall name, name ∈ map fst rest -> array_index name = None).
  { intros name Hn. apply Hall. simpl. by right. }
  specialize (IH Hrest).
  destruct (index_entries rest) as [| e es] eqn:Ei.
  - simpl in *. by rewrite IH.
  - exfalso. clear -Ei Hrest.
    assert (Hnil : index_entries rest = []).
    { clear Ei. induction rest as [| [k v] rest IH]; [reflexivity |].
      simpl. rewrite (Hrest k) by (simpl; left).
      apply IH. intros name Hn. apply Hrest. simpl. by right. }
    rewrite Hnil in Ei. discriminate.
Qed.

(** The parsed view has one block per file of [parsePatch], none lost
    and none twice; the blocks come in the order the files were opened
    unless a file name is an array index. *)
Theorem parsed_view_shows_every_file_once (patchContent : string) :
  exists files blocks,
    parsePatch patchContent = Some files
    /\ DiffViewer false patchContent = Some (ParsedDiff blocks)
    /\ blocks ≡ₚ map renderFile files
    /\ ((forall name, name ∈ map fst files -> array_index name = None) ->
        blocks = map renderFile files).
Proof.
  exists (assignment (split_on LF patchContent)).
  eexists. split; [apply parsePatch_is_assignment |].
  unfold DiffViewer. rewrite parsePatch_is_assignment. cbv iota.
  split; [reflexivity |]. split.
  - change (λ '(fileName, lines), (fileName, map renderDiffLine lines)) with renderFile.
    by rewrite Object_entries_perm.
  - intros Hplain. rewrite Object_entries_plain by exact Hplain. reflexivity.
Qed.

(** Names that are array indices are shown first, in numeric order. *)
Example numbered_files_are_reordered :
  parsePatch numbered_patch = Some [("10", ["x"]); ("9", ["y"])]
  /\ DiffViewer false numbered_patch
     = Some (ParsedDiff [("9", [(text_gray_300, "y")]); ("10", [(text_gray_300, "x")])]).
Proof. split; reflexivity. Qed.


Lemma split_join_lines (ls : list string) :
  ls <> [] -> Forall (λ line, occurs LF line = false) ls ->
  split_on LF (JobDetails.join_lines ls) = ls.
Proof.
  induction ls as [| x rest IH]; intros Hne Hall; [done |].
  apply Forall_cons in Hall as [Hx Hrest].
  destruct rest as [| y rest].
  - simpl. apply split_on_without, Hx.
  - change (JobDetails.join_lines (x :: y :: rest))
      with (x ++ String LF (JobDetails.join_lines (y :: rest))).
    rewrite (split_on_at_first LF x _ Hx). f_equal. apply IH; done.
Qed.

Lemma own_None (files : Files) (name : string) :
  own files name = None <-> name ∉ map fst files.
Proof.
  induction files as [| [k v] rest IH]; simpl.
  - split; [intros _ H; inversion H | done].
  - case_bool_decide as Hk.
    + subst k. split; [discriminate |]. intros H. exfalso. apply H. left.
    + rewrite IH, not_elem_of_cons. split; [intros H; split; [congruence | exact H] | tauto].
Qed.

Lemma own_snoc_same (files : Files) (name : string) (v : list string) :
  own files name = None -> own (files ++ [(name, v)])%list name = Some v.
Proof.
  induction files as [| [k w] rest IH]; simpl.
  - intros _. by rewrite bool_decide_eq_true_2.
  - case_bool_decide as Hk; [discriminate | exact IH].
Qed.

Lemma push_snoc_same (files : Files) (name line : string) (v : list string) :
  own files name = None ->
  push (files ++ [(name, v)])%list name line = Some (files ++ [(name, (v ++ [line])%list)])%list.
Proof.
  induction files as [| [k w] rest IH]; simpl.
  - intros _. by rewrite bool_decide_eq_true_2.
  - case_bool_decide as Hk; [discriminate |]. intros Hn. by rewrite (IH Hn).
Qed.

Lemma forEach_hunks (files : Files) (name : string) (v lines : list string) :
  own files name = None -> name <> EmptyString ->
  Forall (λ line, is_header line = false /\ occurs LF line = false) lines ->
  forEach lines ((files ++ [(name, v)])%list, name)
  = Some ((files ++ [(name, (v ++ lines)%list)])%list, name).
Proof.
  intros Hown Hname. revert v. induction lines as [| line rest IH]; intros v Hall.
  - simpl. by rewrite app_nil_r.
  - apply Forall_cons in Hall as [[Hh _] Hrest].
    cbn [forEach]. unfold step. rewrite Hh.
    destruct name as [| c name']; [done |]. cbn [truthy_string].
    rewrite (push_snoc_same files _ line v Hown).
    rewrite (IH _ Hrest), <- app_assoc. reflexivity.
Qed.

Lemma header_minus (name : string) :
  is_header ("--- a/" ++ name) = true /\ header_name ("--- a/" ++ name) = name.
Proof.
  split; [| reflexivity].
  unfold is_header. simpl.
  repeat (destruct (ascii_dec _ _) as [_ | Hne]; [| by exfalso; apply Hne]).
  by rewrite String.prefix_correct, substring_0_0 || destruct name.
Qed.


Lemma header_plus (name : string) :
  is_header ("+++ b/" ++ name) = true /\ header_name ("+++ b/" ++ name) = name.
Proof.
  split; [| reflexivity].
  unfold is_header. simpl.
  repeat (destruct (ascii_dec _ _) as [_ | Hne]; [| by exfalso; apply Hne]).
  by rewrite String.prefix_correct, substring_0_0 || destruct name.
Qed.

Lemma forEach_file (files : Files) (cur name : string) (lines : list string) :
  own files name = None -> plain_file (name, lines) ->
  forEach (file_lines (name, lines)) (files, cur)
  = Some ((files ++ [(name, lines)])%list, name).
Proof.
  intros Hown [Hname [_ [Hinh Hall]]].
  destruct (header_minus name) as [Hm1 Hm2], (header_plus name) as [Hp1 Hp2].
  unfold file_lines. cbn [forEach].
  unfold step at 1. rewrite Hm1, Hm2. unfold reads_truthy at 1.
  rewrite Hown, (bool_decide_eq_false_2 _ Hinh). cbn [negb].
  unfold step at 1. rewrite Hp1, Hp2. unfold reads_truthy at 1.
  rewrite (own_snoc_same files name [] Hown). cbn [negb].
  apply (forEach_hunks files name [] lines Hown Hname Hall).
Qed.

Lemma forEach_files (files acc : Files) (cur : string) :
  NoDup (map fst (acc ++ files)) -> Forall plain_file files ->
  exists cur', forEach (concat (map file_lines files)) (acc, cur)
               = Some ((acc ++ files)%list, cur').
Proof.
  revert acc cur. induction files as [| [name lines] rest IH]; intros acc cur Hnd Hall.
  - exists cur. simpl. by rewrite app_nil_r.
  - apply Forall_cons in Hall as [Hfile Hrest].
    cbn [map concat]. rewrite forEach_app.
    assert (Hown : own acc name = None).
    { apply own_None. rewrite map_app in Hnd. apply NoDup_app in Hnd as [_ [Hdis _]].
      intros Hin. apply (Hdis name Hin). simpl. left. }
    rewrite (forEach_file acc cur name lines Hown Hfile).
    destruct (IH (acc ++ [(name, lines)])%list name) as [cur' Hcur'].
    + by rewrite <- app_assoc.
    + exact Hrest.
    + exists cur'. rewrite <- app_assoc in Hcur'. exact Hcur'.
Qed.

Lemma file_lines_no_LF (files : Files) :
  Forall plain_file files ->
  Forall (λ line, occurs LF line = false) (concat (map file_lines files)).
Proof.
  induction files as [| [name lines] rest IH]; intros Hall; [constructor |].
  apply Forall_cons in Hall as [[_ [Hlf [_ Hlines]]] Hrest].
  cbn [map concat file_lines]. apply Forall_app. split; [| by apply IH].
  constructor; [exact Hlf |]. constructor; [exact Hlf |].
  eapply Forall_impl; [exact Hlines |]. by intros line [_ H].
Qed.

(** A patch written as the two headers of each file followed by its
    lines is parsed back into those files, in their order. *)
Theorem parsePatch_recovers_files (files : Files) :
  NoDup (map fst files) -> Forall plain_file files ->
  parsePatch (patch_of files) = Some files.
Proof.
  intros Hnd Hall. unfold parsePatch, patch_of.
  destruct files as [| file rest]; [reflexivity |].
  rewrite split_join_lines.
  - destruct (forEach_files (file :: rest) [] EmptyString Hnd Hall) as [cur' Hc].
    unfold Files in Hc. rewrite Hc.
    reflexivity.
  - destruct file as [name lines]. discriminate.
  - by apply file_lines_no_LF.
Qed.

Lemma parsePatch_recovers_files_witness :
  parsePatch (patch_of two_files) = Some two_files.
Proof.
  apply (parsePatch_recovers_files two_files).
  - apply (bool_decide_unpack _). vm_compute. exact I.
  - unfold two_files, plain_file.
    repeat (apply Forall_cons; split); try apply Forall_nil_2;
      repeat split; try discriminate; try reflexivity;
      try (apply (bool_decide_unpack _); vm_compute; exact I);
      repeat (apply Forall_cons; split); try apply Forall_nil_2;
      split; reflexivity.
Defined.


End DiffViewerProps.

Module BugsCardProps.
Import BugsCard.

Lemma own_snoc (acc : Groups) (key k : string) :
  own (acc ++ [(key, [])])%list k =
  match own acc k with
  | Some v => Some v
  | None => if bool_decide (key = k) then Some [] else None
  end.
Proof.
  induction acc as [| [k0 v0] acc IH]; simpl.
  - reflexivity.
  - destruct (bool_decide (k0 = k)); [reflexivity | exact IH].
Qed.

Lemma push_none (acc : Groups) (key : string) (bug : Bug) :
  own acc key = None -> push acc key bug = None.
Proof.
  induction acc as [| [k0 v0] acc IH]; simpl; [reflexivity |].
  destruct (bool_decide (k0 = key)); [discriminate |].
  intros H. rewrite (IH H). reflexivity.
Qed.

Lemma push_some (acc : Groups) (key : string) (bug : Bug) (v : list Bug) :
  own acc key = Some v ->
  exists acc', push acc key bug = Some acc'
    /\ forall k, own acc' k
                 = if bool_decide (key = k) then Some (v ++ [bug])%list else own acc k.
Proof.
  induction acc as [| [k0 v0] acc IH]; simpl; [discriminate |].
  destruct (decide (k0 = key)) as [-> | Hne].
  - rewrite bool_decide_eq_true_2 by reflexivity. intros [= ->].
    eexists. split; [reflexivity |]. intros k. simpl.
    destruct (bool_decide (key = k)); reflexivity.
  - rewrite bool_decide_eq_false_2 by exact Hne. intros Hown.
    destruct (IH Hown) as [acc' [-> Hacc']].
    eexists. split; [reflexivity |]. intros k. simpl. rewrite Hacc'.
    destruct (decide (k0 = k)) as [-> | Hne'].
    + rewrite bool_decide_eq_true_2 by reflexivity.
      rewrite bool_decide_eq_false_2 by congruence. reflexivity.
    + rewrite (bool_decide_eq_false_2 _ Hne'). reflexivity.
Qed.

Lemma filed_under_snoc (k : string) (seen : list Bug) (bug : Bug) :
  filed_under k (seen ++ [bug]) =
  (filed_under k seen ++ if bool_decide (severity_key bug = k) then [bug] else [])%list.
Proof.
  unfold filed_under. rewrite filter_app. f_equal.
  rewrite filter_cons, filter_nil.
  destruct (decide (severity_key bug = k)) as [E | E].
  - rewrite bool_decide_eq_true_2 by exact E. reflexivity.
  - rewrite bool_decide_eq_false_2 by exact E. reflexivity.
Qed.

Lemma reducer_holds (acc : Groups) (seen : list Bug) (bug : Bug) :
  holds acc seen ->
  severity_key bug ∉ DiffViewer.inherited_keys ->
  exists acc', reducer acc bug = Some acc' /\ holds acc' (seen ++ [bug]).
Proof.
  intros Hacc Hkey. unfold reducer, reads_truthy.
  pose proof (Hacc (severity_key bug)) as Hown.
  destruct (own acc (severity_key bug)) as [v |] eqn:Ev.
  - simpl. destruct (push_some acc _ bug v Ev) as [acc' [Hpush Hacc']].
    exists acc'. split; [exact Hpush |].
    intros k. rewrite Hacc', filed_under_snoc, Hacc.
    destruct (decide (severity_key bug = k)) as [<- | Hne].
    + rewrite bool_decide_eq_true_2 by reflexivity.
      destruct (filed_under _ seen); [discriminate |].
      injection Hown as ->. reflexivity.
    + rewrite (bool_decide_eq_false_2 _ Hne), app_nil_r. reflexivity.
  - rewrite (bool_decide_eq_false_2 _ Hkey). simpl.
    assert (Ev' : own (acc ++ [(severity_key bug, [])])%list (severity_key bug) = Some []).
    { rewrite own_snoc, Ev. rewrite bool_decide_eq_true_2 by reflexivity. reflexivity. }
    destruct (push_some _ _ bug [] Ev') as [acc' [Hpush Hacc']].
    exists acc'. split; [exact Hpush |].
    intros k. rewrite Hacc', own_snoc, filed_under_snoc, Hacc.
    destruct (decide (severity_key bug = k)) as [<- | Hne].
    + rewrite bool_decide_eq_true_2 by reflexivity.
      destruct (filed_under _ seen); [reflexivity | discriminate].
    + rewrite (bool_decide_eq_false_2 _ Hne), app_nil_r.
      destruct (filed_under k seen); reflexivity.
Qed.

Lemma reducer_throws (acc : Groups) (seen : list Bug) (bug : Bug) :
  holds acc seen ->
  Forall (λ b, severity_key b ∉ DiffViewer.inherited_keys) seen ->
  severity_key bug ∈ DiffViewer.inherited_keys ->
  reducer acc bug = None.
Proof.
  intros Hacc Hseen Hkey. unfold reducer, reads_truthy.
  assert (Ev : own acc (severity_key bug) = None).
  { rewrite Hacc. destruct (filed_under _ seen) as [| b bs] eqn:Ef; [reflexivity |].
    exfalso. assert (Hb : b ∈ filed_under (severity_key bug) seen) by (rewrite Ef; left).
    apply list_elem_of_filter in Hb as [Hk Hin].
    rewrite Forall_forall in Hseen. apply (Hseen b Hin). rewrite Hk. exact Hkey. }
  rewrite Ev, (bool_decide_eq_true_2 _ Hkey). simpl.
  apply push_none, Ev.
Qed.

Lemma reduce_holds (bugs : list Bug) (acc : Groups) (seen : list Bug) :
  holds acc seen ->
  Forall (λ b, severity_key b ∉ DiffViewer.inherited_keys) seen ->
  match reduce bugs acc with
  | Some acc' =>
      Forall (λ b, severity_key b ∉ DiffViewer.inherited_keys) bugs
      /\ holds acc' (seen ++ bugs)
  | None => Exists (λ b, severity_key b ∈ DiffViewer.inherited_keys) bugs
  end.
Proof.
  revert acc seen. induction bugs as [| bug rest IH]; intros acc seen Hacc Hseen.
  - simpl. split; [constructor | by rewrite app_nil_r].
  - cbn [reduce].
    destruct (decide (severity_key bug ∈ DiffViewer.inherited_keys)) as [Hin | Hout].
    + rewrite (reducer_throws acc seen bug Hacc Hseen Hin). by left.
    + destruct (reducer_holds acc seen bug Hacc Hout) as [acc' [-> Hacc']].
      assert (Hseen' : Forall (λ b, severity_key b ∉ DiffViewer.inherited_keys)
                              (seen ++ [bug])).
      { apply Forall_app. split; [exact Hseen | by constructor]. }
      specialize (IH acc' (seen ++ [bug])%list Hacc' Hseen').
      destruct (reduce rest acc') as [acc'' |].
      * destruct IH as [Hrest Hacc'']. split; [by constructor |].
        rewrite <- app_assoc in Hacc''. exact Hacc''.
      * by right.
Qed.

Lemma shownGroups_holds (acc : Groups) (bugs : list Bug) :
  holds acc bugs ->
  shownGroups acc
  = omap (λ sev, match filed_under sev bugs with
                 | [] => None
                 | b :: bs => Some (sev, b :: bs)
                 end) severityOrder.
Proof.
  intros Hacc. unfold shownGroups, severityOrder.
  cbn [omap list_omap]. rewrite !Hacc.
  repeat match goal with
         | |- context [filed_under ?k bugs] => destruct (filed_under k bugs)
         end; reflexivity.
Qed.

Lemma holds_nil : holds [] [].
Proof. intros k. reflexivity. Qed.

Lemma renderBugs_eq (bugs : list Bug) :
  renderBugs bugs =
  if bool_decide (Exists (λ b, severity_key b ∈ DiffViewer.inherited_keys) bugs)
  then None
  else Some (match bugs with
             | [] => NoBugs
             | _ :: _ =>
                 BugsDetected (length bugs)
                   (omap (λ sev, match filed_under sev bugs with
                                 | [] => None
                                 | b :: bs => Some (sev, b :: bs)
                                 end) severityOrder)
             end).
Proof.
  destruct bugs as [| bug rest].
  - rewrite bool_decide_eq_false_2; [reflexivity |]. intros H. inversion H.
  - unfold renderBugs.
    pose proof (reduce_holds (bug :: rest) [] [] holds_nil (Forall_nil_2 _)) as H.
    destruct (reduce (bug :: rest) []) as [acc |].
    + destruct H as [Hall Hacc]. rewrite app_nil_l in Hacc.
      rewrite bool_decide_eq_false_2.
      * rewrite (shownGroups_holds acc _ Hacc). reflexivity.
      * intros Hex. apply Exists_exists in Hex as [b [Hb Hk]].
        rewrite Forall_forall in Hall. exact (Hall b Hb Hk).
    + rewrite bool_decide_eq_true_2 by exact H. reflexivity.
Qed.

Lemma elem_of_omap_groups (bugs : list Bug) (sev : string) (l : list Bug) :
  (sev, l) ∈ omap (λ sev, match filed_under sev bugs with
                          | [] => None
                          | b :: bs => Some (sev, b :: bs)
                          end) severityOrder
  <-> sev ∈ severityOrder /\ l = filed_under sev bugs /\ l <> [].
Proof.
  rewrite list_elem_of_omap. split.
  - intros [s [Hs Heq]]. destruct (filed_under s bugs) as [| b bs] eqn:Ef; [discriminate |].
    injection Heq as <- <-. rewrite Ef. done.
  - intros [Hs [-> Hne]]. exists sev. split; [exact Hs |].
    destruct (filed_under sev bugs); [done | reflexivity].
Qed.

Lemma omap_fst_sublist (bugs : list Bug) (order : list string) :
  map fst (omap (λ sev, match filed_under sev bugs with
                        | [] => None
                        | b :: bs => Some (sev, b :: bs)
                        end) order) `sublist_of` order.
Proof.
  induction order as [| sev order IH]; [constructor |].
  cbn [omap list_omap]. destruct (filed_under sev bugs).
  - by apply sublist_cons.
  - simpl. by apply sublist_skip.
Qed.

(** The card throws while it renders exactly when some reported bug is
    an object whose [severity] is the name of a property that every
    object inherits ("constructor", "toString", ...). *)
Theorem renderBugs_throws_iff_inherited_severity (bugs : list Bug) :
  renderBugs bugs = None <->
  exists b, b ∈ bugs /\ severity_key b ∈ DiffViewer.inherited_keys.
Proof.
  rewrite renderBugs_eq, <- Exists_exists.
  case_bool_decide as Hex; split; try done.
Qed.

(** When the card renders, its heading counts every reported bug, but a
    bug appears in a group exactly when its key is one of critical,
    high, medium, low, other: a bug object without severity, or with
    another one, is counted and not shown.  The groups come in that
    order, each with the bugs of its key in the order reported. *)
Theorem bug_shown_iff_severity_listed (bugs : list Bug) (n : nat)
    (groups : list (string * list Bug)) :
  renderBugs bugs = Some (BugsDetected n groups) ->
  n = length bugs
  /\ (forall b, b ∈ bugs ->
        (exists sev l, (sev, l) ∈ groups /\ b ∈ l) <-> severity_key b ∈ severityOrder)
  /\ (forall sev l, (sev, l) ∈ groups -> l = filed_under sev bugs /\ l <> [])
  /\ map fst groups `sublist_of` severityOrder.
Proof.
  rewrite renderBugs_eq.
  case_bool_decide as Hex; [discriminate |].
  destruct bugs as [| bug rest]; [discriminate |].
  intros [= <- <-]. split; [reflexivity |]. split; [| split].
  - intros b Hb. split.
    + intros [sev [l [Hg Hl]]]. apply elem_of_omap_groups in Hg as [Hs [-> _]].
      apply list_elem_of_filter in Hl as [<- _]. exact Hs.
    + intros Hs. exists (severity_key b), (filed_under (severity_key b) (bug :: rest)).
      assert (Hin : b ∈ filed_under (severity_key b) (bug :: rest)).
      { apply list_elem_of_filter. done. }
      split; [| exact Hin].
      apply elem_of_omap_groups. split; [exact Hs |]. split; [reflexivity |].
      intros E. rewrite E in Hin. inversion Hin.
  - intros sev l Hg. apply elem_of_omap_groups in Hg as [_ [-> Hne]]. done.
  - exact (omap_fst_sublist (bug :: rest) severityOrder).
Qed.

Lemma bug_shown_iff_severity_listed_witness :
  2%nat = length [sql_injection; capital_high]
  /\ (forall b, b ∈ [sql_injection; capital_high] ->
        (exists sev l, (sev, l) ∈ [("critical", [sql_injection])] /\ b ∈ l)
        <-> severity_key b ∈ severityOrder)
  /\ (forall sev l, (sev, l) ∈ [("critical", [sql_injection])] ->
        l = filed_under sev [sql_injection; capital_high] /\ l <> [])
  /\ map fst [("critical", [sql_injection])] `sublist_of` severityOrder.
Proof.
  apply (bug_shown_iff_severity_listed [sql_injection; capital_high] 2
           [("critical", [sql_injection])]).
  reflexivity.
Defined.

End BugsCardProps.

Module RepositoriesProps.
Import Repositories.

Section Page.
Variable Number : Type.
Variable parseInt : string -> Number.
Variable Server : Type.
Variable get_repositories : Number -> Server -> ListOutcome * Server.
Variable post_monitor : Z -> Server -> MonitorOutcome * Server.


(** Without a stored user id a mount sends nothing, pushes /auth/login
    and leaves the cells as they are, so a page that is mounted that way
    stays on its spinner.  On a page that is loaded and lists nothing,
    which a mount with a stored id leaves when no repository comes back,
    a click on "Refresh Repositories" made when no user id is stored any
    more asks for the repositories of user 1, and shows them when the
    backend returns a list. *)
Theorem refresh_without_user_id_asks_for_user_1 (user_id : option string)
    (page : PageState) (srv : Server) :
  truthy_opt truthy_string user_id = false ->
  loading page = false -> repositories page = [] ->
  let '(page', _, sent) :=
    clickRefresh Number parseInt Server get_repositories user_id page srv in
  sent = [GetRepositories (parseInt "1")]
  /\ (forall data, fst (get_repositories (parseInt "1") srv) = ListOk (Some data) ->
        repositories page' = data)
  /\ (forall (page0 : PageState) (srv0 : Server),
        mount Number parseInt Server get_repositories user_id page0 srv0
        = (page0, srv0, [], Some "/auth/login")
        /\ clickRefresh Number parseInt Server get_repositories user_id
             (mkPageState (repositories page0) true (monitoring page0)) srv0
           = (mkPageState (repositories page0) true (monitoring page0), srv0, [])).
Proof.
  intros Hu Hl He. unfold clickRefresh, mount. rewrite Hl, He. cbn [negb andb].
  rewrite bool_decide_eq_true_2 by reflexivity.
  assert (Hid : match user_id with
                | Some u => if truthy_string u then u else "1"
                | None => "1"
                end = "1").
  { destruct user_id as [u |]; [| reflexivity]. simpl in Hu. by rewrite Hu. }
  rewrite Hid. unfold fetchRepositories.
  destruct (get_repositories (parseInt "1") srv) as [o srv'] eqn:Hget. cbn [fst].
  split; [reflexivity |]. split; [intros data ->; reflexivity |].
  intros page0 srv0. split; [| reflexivity].
  destruct user_id as [u |]; [| reflexivity]. simpl in Hu. by rewrite Hu.
Qed.

End Page.

(** The page that a mount for the stored id "7" left loaded and empty,
    refreshed after the id was removed from the storage. *)
Lemma refresh_without_user_id_asks_for_user_1_witness :
  let '(page', _, sent) :=
    clickRefresh string (λ s, s) unit answer_for_7 None empty_page tt in
  sent = [GetRepositories "1"]
  /\ (forall data, fst (answer_for_7 "1" tt) = ListOk (Some data) ->
        repositories page' = data)
  /\ (forall (page0 : PageState) (srv0 : unit),
        mount string (λ s, s) unit answer_for_7 None page0 srv0
        = (page0, srv0, [], Some "/auth/login")
        /\ clickRefresh string (λ s, s) unit answer_for_7 None
             (mkPageState (repositories page0) true (monitoring page0)) srv0
           = (mkPageState (repositories page0) true (monitoring page0), srv0, [])).
Proof.
  apply (refresh_without_user_id_asks_for_user_1 string (λ s, s) unit answer_for_7
           None empty_page tt); reflexivity.
Defined.

End RepositoriesProps.

Module NavigationProps.
Import Navigation.

(** The name beside the avatar is never empty: it is the user's name,
    else the login, else "User"; the name in the dropdown is the user's
    name, else "User".  So for a user with a login and no name the two
    differ, and without a user, or for a user with neither, both say
    "User". *)
Lemma button_name_never_empty (user : option User) :
  buttonName user <> EmptyString
  /\ (user = None -> buttonName user = "User" /\ dropdownName user = "User")
  /\ (forall u, user = Some u -> name u <> EmptyString ->
        buttonName user = name u /\ dropdownName user = name u)
  /\ (forall u, user = Some u -> name u = EmptyString -> login u <> EmptyString ->
        buttonName user = login u /\ dropdownName user = "User")
  /\ (forall u, user = Some u -> name u = EmptyString -> login u = EmptyString ->
        buttonName user = "User" /\ dropdownName user = "User").
Proof.
  split; [| split; [| split; [| split]]].
  - destruct user as [u |]; simpl; [| discriminate].
    destruct (name u) eqn:En; simpl; [| discriminate].
    destruct (login u) eqn:El; simpl; discriminate.
  - intros ->. done.
  - intros u -> Hn. simpl. destruct (name u); done.
  - intros u -> Hn Hl. simpl. rewrite Hn. simpl. destruct (login u); done.
  - intros u -> Hn Hl. simpl. rewrite Hn, Hl. done.
Qed.

End NavigationProps.

Module DashboardProps.
Import Dashboard.

Section Page.
Variable Job : Type.
Variable Number : Type.
Variable parseInt : string -> Number.
Variable Server : Type.
Variable get_jobs : Number -> Server -> JobsOutcome Job * Server.
Variable delete_jobs : string -> Server -> ClearOutcome * Server.

(** A click on "Clear History" sends something exactly when the page is
    loaded, lists a job and is not clearing, a user id that is not empty
    is stored, and the dialog was confirmed; otherwise the page is left
    as it was and nothing is shown.  What is sent starts with the DELETE
    for the stored user id.  The list is asked for again exactly after
    a DELETE that was accepted with a body that could be read; the
    alert then tells the number deleted, and the list shown is the one
    that came back, or the old one when none did.  After every other
    DELETE the failure is shown and the list is the old one.
    [clearing] is false at the end. *)
Theorem history_cleared_only_when_confirmed (user_id : option string) (confirmed : bool)
    (page : PageState Job) (srv : Server) :
  let '(page', _, sent, alerts) :=
    clickClearHistory Job Number parseInt Server get_jobs delete_jobs
      user_id confirmed page srv in
  (sent <> [] <->
     loading page = false /\ jobs page <> [] /\ clearing page = false
     /\ confirmed = true
     /\ exists userId, user_id = Some userId /\ userId <> EmptyString)
  /\ (sent = [] -> page' = page /\ alerts = [])
  /\ (forall userId, user_id = Some userId -> sent <> [] ->
        clearing page' = false
        /\ loading page' = false
        /\ match fst (delete_jobs userId srv) with
           | ClearOk (Some deleted_count) =>
               sent = [DeleteJobs userId; GetJobs (parseInt userId)]
               /\ alerts = [ClearedJobs deleted_count]
               /\ jobs page'
                  = match fst (get_jobs (parseInt userId)
                                        (snd (delete_jobs userId srv))) with
                    | JobsOk (Some data) => data
                    | _ => jobs page
                    end
           | ClearNotOk (Some error) =>
               sent = [DeleteJobs userId]
               /\ alerts = [FailedToClear (JobDetails.or_else error "Unknown error")]
               /\ jobs page' = jobs page
           | ClearOk None | ClearNotOk None | ClearRejects =>
               sent = [DeleteJobs userId]
               /\ alerts = [FailedTryAgain]
               /\ jobs page' = jobs page
           end).
Proof.
  unfold clickClearHistory.
  destruct (loading page) eqn:Hload; cbn [negb andb].
  { split; [split; [done | intros [H _]; discriminate H] |]. split; done. }
  destruct (decide (0 < length (jobs page))%nat) as [Hjobs | Hjobs].
  2: { rewrite (bool_decide_eq_false_2 _ Hjobs). cbn [andb].
       split; [split; [done | intros [_ [H _]]] | split; done].
       exfalso. apply Hjobs. destruct (jobs page); [done | simpl; lia]. }
  rewrite (bool_decide_eq_true_2 _ Hjobs). cbn [andb].
  assert (Hne : jobs page <> []).
  { intros E. rewrite E in Hjobs. simpl in Hjobs. lia. }
  destruct (clearing page) eqn:Hclr; cbn [negb].
  { split; [split; [done | intros [_ [_ [H _]]]; discriminate H] |]. split; done. }
  unfold handleClearHistory.
  destruct user_id as [userId |].
  2: { split; [split; [done | intros [_ [_ [_ [_ [u [H _]]]]]]; discriminate H] |].
       split; done. }
  destruct userId as [| c rest] eqn:Eu.
  { cbn [truthy_string negb].
    split; [split; [done | intros [_ [_ [_ [_ [u [[= <-] H]]]]]]; done] |]. split; done. }
  rewrite <- Eu.
  assert (Hu : userId <> EmptyString) by (rewrite Eu; discriminate).
  replace (truthy_string userId) with true by (rewrite Eu; reflexivity).
  cbn [negb]. destruct confirmed; cbn [negb].
  2: { split; [split; [done | intros [_ [_ [_ [H _]]]]; discriminate H] |]. split; done. }
  destruct (delete_jobs userId srv) as [outcome srv1] eqn:Hdel.
  destruct outcome as [| [count |] | [error |]]; cbv beta iota.
  2: { unfold fetchData. cbn [jobs loading clearing].
       destruct (get_jobs (parseInt userId) srv1) as [o srv2] eqn:Hget.
       split; [split; [intros _; repeat (split; [done |]); by exists userId
                      | discriminate] |].
       split; [discriminate |].
       intros u [= <-] _. rewrite Hdel. cbn [fst snd]. rewrite Hget. cbn [fst].
       repeat (split; [reflexivity |]).
       destruct o as [| | [data |]]; reflexivity. }
  all: split; [split; [intros _; repeat (split; [done |]); by exists userId
                      | discriminate] |];
       split; [discriminate |];
       intros u [= <-] _; rewrite Hdel; cbn [fst snd jobs loading clearing]; done.
Qed.

(** After "Sign out", the dashboard the user is sent to asks for
    nothing and sends the user on to the login page. *)
Theorem dashboard_after_logout_redirects_to_login (storage : Navigation.Storage)
    (page : PageState Job) (srv : Server) :
  let '(storage', route) := Navigation.handleLogout storage in
  route = "/"
  /\ storage' !! "user_id" = None
  /\ storage' !! "access_token" = None
  /\ (forall key, key <> "user_id" -> key <> "access_token" ->
        storage' !! key = storage !! key)
  /\ mount Job Number parseInt Server get_jobs (storage' !! "user_id") page srv
     = (page, srv, [], Some "/auth/login").
Proof.
  unfold Navigation.handleLogout, Navigation.Storage in *.
  assert (H1 : delete "access_token" (delete "user_id" storage) !! "user_id"
               = (None : option string)).
  { rewrite lookup_delete_ne by discriminate. apply lookup_delete_eq. }
  split; [reflexivity |]. split; [exact H1 |].
  split; [apply lookup_delete_eq |]. split.
  - intros key Hk1 Hk2. rewrite !lookup_delete_ne by congruence. reflexivity.
  - rewrite H1. reflexivity.
Qed.

End Page.
End DashboardProps.

Module CoreProps.
Import Core.

(** ** The state machine *)

Lemma next_state_row (s : State) (t : Transition) (s' : State) :
  next_state s t = Some s' <-> row s t s'.
Proof.
  split.
  - destruct s, t; simpl; intros H; inversion H; subst; constructor; reflexivity.
  - intros H. destruct H; try reflexivity.
    destruct s; try reflexivity; discriminate.
Qed.

Lemma edge_iff_row (s s' : State) : edge s s' <-> exists t, row s t s'.
Proof.
  split.
  - intros H. destruct H.
    + exists PipelineStarted. constructor.
    + exists (TestsReturned (mkTestResult true 0 0 [] None false)). constructor.
    + exists (AdapterError ""). constructor.
    + exists (AnalysisReturned (mkAnalysisResult "" [] [] None deployable)). constructor.
    + exists (AdapterError ""). constructor.
    + exists (UserApproval (mkPRRef "" 0)). constructor.
    + exists CancellationRequested. by constructor.
  - intros [t H]. destruct H; try constructor. assumption.
Qed.

Lemma terminal_has_no_row (s : State) (t : Transition) (s' : State) :
  terminal s = true -> ~ row s t s'.
Proof. intros Ht H. destruct H; try discriminate. congruence. Qed.

(** ** The store *)

Lemma get_Some_id (st : Store) (i : nat) (j : Job) : get st i = Some j -> id j = i.
Proof.
  unfold get. intros H. apply find_some in H as [_ H].
  by apply bool_decide_eq_true in H.
Qed.

Lemma find_replace_job (rows : list Job) (i : nat) (j j' : Job) :
  List.find (λ x, bool_decide (id x = i)) rows = Some j ->
  id j' = i ->
  List.find (λ x, bool_decide (id x = i)) (replace_job rows i j') = Some j'.
Proof.
  intros Hfind Hid. induction rows as [| x rest IH]; simpl in *; [discriminate |].
  destruct (bool_decide (id x = i)) eqn:Hx; simpl.
  - by rewrite bool_decide_eq_true_2.
  - rewrite Hx. by apply IH.
Qed.

Lemma keys_replace_job (rows : list Job) (i : nat) (j j' : Job) :
  List.find (λ x, bool_decide (id x = i)) rows = Some j ->
  commit_key j' = commit_key j ->
  map commit_key (replace_job rows i j') = map commit_key rows.
Proof.
  intros Hfind Hkey. induction rows as [| x rest IH]; simpl in *; [reflexivity |].
  destruct (bool_decide (id x = i)) eqn:Hx; simpl.
  - injection Hfind as ->. by rewrite Hkey.
  - f_equal. by apply IH.
Qed.

Lemma update_missing (st : Store) (i : nat) (t : Transition) (now : nat) :
  get st i = None ->
  update_state_and_results st i t now = (Err InvalidTransitionError, st).
Proof. intros H. unfold update_state_and_results. by rewrite H. Qed.

Lemma update_keeps_keys (st : Store) (i : nat) (t : Transition) (now : nat) :
  map commit_key (jobs (snd (update_state_and_results st i t now)))
  = map commit_key (jobs st).
Proof.
  unfold update_state_and_results.
  destruct (get st i) as [j |] eqn:Hget; [| reflexivity].
  destruct (next_state (state j) t) as [s' |]; [| reflexivity].
  simpl. by apply (keys_replace_job _ _ j).
Qed.

(** C1: a requested transition of a job succeeds only along a row of the
    table of 4.4, so only along one of its edges (pending to
    running_tests, running_tests to analyzing or failed, analyzing to
    ready_for_review or failed, ready_for_review to approved, any state
    that is not terminal to failed on cancellation), and the job is then
    in the state the row enters; every other request fails with
    [InvalidTransitionError] and returns the store as it was. *)
Theorem transitions_follow_the_table (st : Store) (i : nat) (t : Transition)
    (now : nat) (j : Job) :
  get st i = Some j ->
  match update_state_and_results st i t now with
  | (Ok j', st') =>
      row (state j) t (state j') /\ edge (state j) (state j')
      /\ get st' i = Some j'
  | (Err e, st') =>
      e = InvalidTransitionError /\ st' = st
      /\ ~ (exists s', row (state j) t s')
  end.
Proof.
  intros Hget. unfold update_state_and_results. rewrite Hget.
  destruct (next_state (state j) t) as [s' |] eqn:Hnext.
  - apply next_state_row in Hnext.
    assert (Hs : state (transit j t s' now) = s') by reflexivity.
    rewrite Hs. split; [exact Hnext | split].
    + apply edge_iff_row. by exists t.
    + unfold get. simpl. apply (find_replace_job _ _ j); [exact Hget |].
      simpl. by apply (get_Some_id st).
  - split; [reflexivity | split; [reflexivity |]].
    intros [s' Hrow%next_state_row]. congruence.
Qed.

(** The table at work on the store of the example: the tests of a
    running job return, and an approved job is asked to start again. *)
Lemma transitions_follow_the_table_witness :
  (get example_store 0 = Some running_job
   /\ match update_state_and_results example_store 0 (TestsReturned failing_tests) 9 with
      | (Ok j', st') =>
          row (state running_job) (TestsReturned failing_tests) (state j')
          /\ edge (state running_job) (state j')
          /\ get st' 0 = Some j'
      | (Err e, st') =>
          e = InvalidTransitionError /\ st' = example_store
          /\ ~ (exists s', row (state running_job) (TestsReturned failing_tests) s')
      end)
  /\ (get example_store 1 = Some approved_job
      /\ match update_state_and_results example_store 1 PipelineStarted 9 with
         | (Ok j', st') =>
             row (state approved_job) PipelineStarted (state j')
             /\ edge (state approved_job) (state j')
             /\ get st' 1 = Some j'
         | (Err e, st') =>
             e = InvalidTransitionError /\ st' = example_store
             /\ ~ (exists s', row (state approved_job) PipelineStarted s')
         end).
Proof.
  split; (split; [reflexivity |]).
  - apply (transitions_follow_the_table example_store 0
             (TestsReturned failing_tests) 9 running_job). reflexivity.
  - apply (transitions_follow_the_table example_store 1 PipelineStarted 9
             approved_job). reflexivity.
Defined.

(** ** The approval gate *)

Lemma approvable_spec (j : Job) :
  approvable j = true <->
  state j = ready_for_review /\ exists p, patch j = Some p /\ p <> EmptyString.
Proof.
  unfold approvable, has_patch. rewrite andb_true_iff, bool_decide_eq_true.
  split.
  - intros [Hs Hp]. split; [exact Hs |].
    destruct (patch j) as [p |]; simpl in Hp; [| discriminate].
    exists p. split; [reflexivity |]. intros ->. discriminate.
  - intros [Hs [p [Hp Hne]]]. split; [exact Hs |]. rewrite Hp. simpl.
    destruct p; [congruence | reflexivity].
Qed.

Section Gate.
Variable GitHost : Type.
Variable create_pull_request : PRRequest -> GitHost -> PRRef * GitHost.
Variable pr_request_of : Job -> PRRequest.

(** C2, as section 4.5 has it in full: [approve] fails with
    [PreconditionError] unless the job exists and either is in
    [ready_for_review] with a stored patch that is not empty, or is
    already [approved] and holds a PR reference; whenever it fails, the
    store, and so the state of the job, and the Git host are as they
    were.  For a job already approved the stored reference is returned,
    nothing is requested from the Git host and nothing is written; for a
    job ready for review with a patch one pull request is requested, its
    reference is returned and stored, and the job is [approved]. *)
Theorem approve_fails_unless_ready_or_approved (st : Store) (gh : GitHost)
    (job_id acting_user now : nat) :
  let '(r, st', gh') :=
    approve GitHost create_pull_request pr_request_of st gh job_id acting_user now in
  (r = Err PreconditionError <->
     ~ (exists j, get st job_id = Some j /\ state j = ready_for_review
                  /\ exists p, patch j = Some p /\ p <> EmptyString)
     /\ ~ (exists j ref, get st job_id = Some j /\ state j = approved
                         /\ pr j = Some ref))
  /\ (forall e, r = Err e -> e = PreconditionError /\ st' = st /\ gh' = gh)
  /\ (forall j ref, get st job_id = Some j -> state j = approved -> pr j = Some ref ->
        r = Ok ref /\ st' = st /\ gh' = gh)
  /\ (forall j, get st job_id = Some j -> state j = ready_for_review ->
        (exists p, patch j = Some p /\ p <> EmptyString) ->
        r = Ok (fst (create_pull_request (pr_request_of j) gh))
        /\ gh' = snd (create_pull_request (pr_request_of j) gh)
        /\ exists j', get st' job_id = Some j' /\ state j' = approved
                      /\ pr j' = Some (fst (create_pull_request (pr_request_of j) gh))).
Proof.
  unfold approve.
  destruct (get st job_id) as [j |] eqn:Hget.
  2: { split; [split; [intros _; split;
                         [intros [j [H _]] | intros [j [ref [H _]]]]; discriminate H
                      | reflexivity] |].
       split; [intros e [= <-]; done |].
       split; [intros j ref Hj; discriminate Hj | intros j Hj; discriminate Hj]. }
  destruct (decide (state j = approved)) as [Happ | Hnapp].
  - rewrite (bool_decide_eq_true_2 _ Happ).
    destruct (pr j) as [ref |] eqn:Hpr.
    + split; [split; [discriminate |] |].
      { intros [_ Hno]. exfalso. apply Hno. by exists j, ref. }
      split; [intros e He; discriminate He |].
      split; [intros j0 ref0 [= <-] _ Hr0; rewrite Hpr in Hr0; by injection Hr0 as -> |].
      intros j0 [= <-] Hs _. congruence.
    + assert (Hna : approvable j = false).
      { unfold approvable. rewrite bool_decide_eq_false_2; [reflexivity | congruence]. }
      rewrite Hna.
      split; [split; [intros _ | reflexivity] |].
      { split; [intros [j0 [[= <-] [Hs _]]]; congruence
               | intros [j0 [ref [[= <-] [_ Hr]]]]; congruence]. }
      split; [intros e [= <-]; done |].
      split; [intros j0 ref0 [= <-] _ Hr0; congruence |].
      intros j0 [= <-] Hs _. congruence.
  - rewrite (bool_decide_eq_false_2 _ Hnapp).
    destruct (approvable j) eqn:Hok.
    + destruct (create_pull_request (pr_request_of j) gh) as [ref gh'] eqn:Hcreate.
      apply approvable_spec in Hok as Hpre. destruct Hpre as [Hs Hp].
      unfold update_state_and_results. rewrite Hget, Hs. cbn [next_state].
      split; [split; [discriminate |] |].
      { intros [Hno _]. exfalso. apply Hno. by exists j. }
      split; [intros e He; discriminate He |].
      split; [intros j0 ref0 [= <-] Hs0; congruence |].
      intros j0 [= <-] _ _. rewrite Hcreate. cbn [fst snd].
      split; [reflexivity |]. split; [reflexivity |].
      exists (transit j (UserApproval ref) approved now).
      split; [| split; reflexivity].
      unfold get. cbn [jobs].
      apply (find_replace_job (jobs st) job_id j); [exact Hget |].
      simpl. by apply get_Some_id in Hget.
    + split; [split; [intros _ | reflexivity] |].
      { split; [intros [j0 [[= <-] Hpre]]; apply approvable_spec in Hpre; congruence
               | intros [j0 [ref [[= <-] [Hs _]]]]; congruence]. }
      split; [intros e [= <-]; done |].
      split; [intros j0 ref0 [= <-] Hs0; congruence |].
      intros j0 [= <-] Hs Hp. exfalso.
      assert (approvable j = true) by (apply approvable_spec; done). congruence.
Qed.

Lemma approve_keeps_keys (st : Store) (gh : GitHost) (job_id acting_user now : nat) :
  map commit_key (jobs (snd (fst
    (approve GitHost create_pull_request pr_request_of st gh job_id acting_user now))))
  = map commit_key (jobs st).
Proof.
  unfold approve.
  destruct (get st job_id) as [j |]; [| reflexivity].
  destruct (if bool_decide (state j = approved) then pr j else None); [reflexivity |].
  destruct (approvable j); [| reflexivity].
  destruct (create_pull_request (pr_request_of j) gh) as [ref gh'].
  pose proof (update_keeps_keys st job_id (UserApproval ref) now) as Hk.
  destruct (update_state_and_results st job_id (UserApproval ref) now) as [[j' | e] st'];
    exact Hk.
Qed.

End Gate.

(** ** The webhook verifier *)

Lemma accumulate_difference_zero (a b : string) (acc : N) :
  String.length a = String.length b ->
  accumulate_difference acc a b = 0%N <-> acc = 0%N /\ a = b.
Proof.
  revert b acc. induction a as [| x a IH]; intros [| y b] acc Hlen;
    simpl in *; try discriminate.
  - tauto.
  - injection Hlen as Hlen. rewrite (IH _ _ Hlen), N.lor_eq_0_iff, N.lxor_eq_0_iff.
    split.
    + intros [[Hacc Hxy] ->]. split; [exact Hacc |].
      f_equal. rewrite <- (ascii_N_embedding x), <- (ascii_N_embedding y).
      by rewrite Hxy.
    + intros [Hacc Heq]. injection Heq as -> ->. done.
Qed.

Lemma constant_time_eq_spec (a b : string) : constant_time_eq a b = true <-> a = b.
Proof.
  unfold constant_time_eq. rewrite andb_true_iff, Nat.eqb_eq, N.eqb_eq. split.
  - intros [Hlen Hacc]. by apply (accumulate_difference_zero a b 0 Hlen) in Hacc as [_ ->].
  - intros ->. split; [reflexivity |]. by apply accumulate_difference_zero.
Qed.

Lemma payload_of_spec (fields : gmap string string) :
  is_Some (payload_of fields) <->
  forall f, f ∈ required_fields -> is_Some (fields !! f).
Proof.
  unfold payload_of, required_fields. split.
  - intros H f Hf.
    destruct (fields !! "repository_id") eqn:E1, (fields !! "commit_sha") eqn:E2,
      (fields !! "commit_message") eqn:E3, (fields !! "pusher") eqn:E4;
      try (by destruct H as [? H]; discriminate H).
    repeat (apply elem_of_cons in Hf as [-> | Hf]); eauto. inversion Hf.
  - intros H.
    destruct (H "repository_id") as [r ->]; [set_solver |].
    destruct (H "commit_sha") as [c ->]; [set_solver |].
    destruct (H "commit_message") as [m ->]; [set_solver |].
    destruct (H "pusher") as [u ->]; [set_solver |].
    eauto.
Qed.

Section Verifier.
Variable hmac_sha256 : string -> string -> string.
Variable decode_json : string -> option (gmap string string).
Variable owner_of : string -> nat.

Lemma verify_spec (secret body signature : string) :
  match verify hmac_sha256 decode_json secret body signature with
  | Ok p =>
      signature = hmac_sha256 secret body
      /\ exists fields, decode_json body = Some fields /\ payload_of fields = Some p
  | Err e =>
      (e = AuthenticationError /\ signature <> hmac_sha256 secret body)
      \/ (e = MalformedPayloadError /\ signature = hmac_sha256 secret body
          /\ ~ (exists fields, decode_json body = Some fields
                  /\ forall f, f ∈ required_fields -> is_Some (fields !! f)))
  end.
Proof.
  unfold verify.
  destruct (constant_time_eq (hmac_sha256 secret body) signature) eqn:Hsig.
  - apply constant_time_eq_spec in Hsig.
    destruct (decode_json body) as [fields |] eqn:Hdec.
    + destruct (payload_of fields) as [p |] eqn:Hp.
      * split; [done | by exists fields].
      * right. split; [reflexivity | split; [done |]].
        intros [fields' [Hf Hall]]. injection Hf as <-.
        apply payload_of_spec in Hall. rewrite Hp in Hall. by destruct Hall.
    + right. split; [reflexivity | split; [done |]].
      intros [fields [Hf _]]. discriminate Hf.
  - left. split; [reflexivity |]. intros Heq.
    assert (constant_time_eq (hmac_sha256 secret body) signature = true)
      by (by apply constant_time_eq_spec).
    congruence.
Qed.

Lemma upsert_keeps_unique (st : Store) (p : Payload) (now : nat) :
  NoDup (map commit_key (jobs st)) ->
  NoDup (map commit_key (jobs (snd (upsert owner_of st p now)))).
Proof.
  intros Hnd. unfold upsert.
  destruct (find_by_commit st (p_repository_id p) (p_commit_sha p)) as [j |] eqn:Hfind;
    [exact Hnd |].
  simpl. rewrite map_app. apply NoDup_app. split; [exact Hnd | split].
  - intros k Hk Hk'. simpl in Hk'. apply list_elem_of_singleton in Hk'. subst k.
    apply list_elem_of_fmap in Hk as [x [Hx Hin]].
    unfold find_by_commit in Hfind.
    apply list_elem_of_In in Hin.
    pose proof (find_none _ _ Hfind x Hin) as Hno.
    apply bool_decide_eq_false in Hno. by apply Hno.
  - simpl. apply NoDup_singleton.
Qed.

Lemma webhook_keeps_unique (secret : string) (st : Store) (body signature : string)
    (now : nat) :
  NoDup (map commit_key (jobs st)) ->
  NoDup (map commit_key (jobs (snd
    (handle_webhook hmac_sha256 decode_json owner_of secret st body signature now)))).
Proof.
  intros Hnd. unfold handle_webhook.
  destruct (verify hmac_sha256 decode_json secret body signature) as [p | e];
    [| exact Hnd].
  pose proof (upsert_keeps_unique st p now Hnd) as H.
  destruct (upsert owner_of st p now) as [a st']. exact H.
Qed.

(** C8: for every body and signature header, the webhook endpoint fails
    with [AuthenticationError] exactly when the signature is not the HMAC
    of the body under the secret; with a valid signature it fails with
    [MalformedPayloadError] exactly when the body does not decode to an
    object that has every required field; and whenever it fails the
    store is as it was, so no job is created. *)
Theorem webhook_rejects_bad_signature_and_payload (secret : string) (st : Store)
    (body signature : string) (now : nat) :
  let '(r, st') :=
    handle_webhook hmac_sha256 decode_json owner_of secret st body signature now in
  (r = Err AuthenticationError <-> signature <> hmac_sha256 secret body)
  /\ (signature = hmac_sha256 secret body ->
      (r = Err MalformedPayloadError <->
         ~ (exists fields, decode_json body = Some fields
              /\ forall f, f ∈ required_fields -> is_Some (fields !! f))))
  /\ (forall e, r = Err e -> st' = st).
Proof.
  unfold handle_webhook.
  pose proof (verify_spec secret body signature) as Hv.
  destruct (verify hmac_sha256 decode_json secret body signature) as [p | e].
  - destruct Hv as [Hsig [fields [Hdec Hp]]].
    destruct (upsert owner_of st p now) as [a st'].
    split; [| split].
    + split; [discriminate | intros Hne; by destruct Hne].
    + intros _. split; [discriminate |]. intros Hno. exfalso. apply Hno.
      exists fields. split; [exact Hdec |]. apply payload_of_spec. by rewrite Hp.
    + intros e He. discriminate He.
  - destruct Hv as [[-> Hne] | [-> [Hsig Hno]]].
    + split; [| split].
      * split; [done | reflexivity].
      * intros Heq. by destruct Hne.
      * done.
    + split; [| split].
      * split; [discriminate | intros Hne; by destruct Hne].
      * intros _. split; [done | reflexivity].
      * done.
Qed.

End Verifier.

(** ** Histories *)

Lemma delete_keeps_unique (st : Store) (user : nat) :
  NoDup (map commit_key (jobs st)) ->
  NoDup (map commit_key (jobs (delete_all_for_user st user))).
Proof.
  unfold delete_all_for_user. simpl. generalize (jobs st) as rows.
  induction rows as [| x rows IH]; intros Hnd; [constructor |].
  simpl in *. apply NoDup_cons in Hnd as [Hx Hnd].
  destruct (negb (bool_decide (owner x = user))); [| by apply IH].
  simpl. apply NoDup_cons. split; [| by apply IH].
  intros Hin. apply Hx.
  apply list_elem_of_fmap in Hin as [y [Hy Hin]].
  apply list_elem_of_fmap. exists y. split; [exact Hy |].
  apply list_elem_of_In in Hin. apply filter_In in Hin as [Hin _].
  by apply list_elem_of_In.
Qed.

Section History.
Variable hmac_sha256 : string -> string -> string.
Variable decode_json : string -> option (gmap string string).
Variable owner_of : string -> nat.
Variable GitHost : Type.
Variable create_pull_request : PRRequest -> GitHost -> PRRef * GitHost.
Variable pr_request_of : Job -> PRRequest.

Lemma perform_keeps_unique (w : Store * GitHost) (op : Op) :
  NoDup (map commit_key (jobs (fst w))) ->
  NoDup (map commit_key (jobs (fst
    (perform hmac_sha256 decode_json owner_of GitHost create_pull_request
             pr_request_of w op)))).
Proof.
  destruct w as [st gh]. simpl. intros Hnd. destruct op; simpl.
  - by apply webhook_keeps_unique.
  - by rewrite update_keeps_keys.
  - pose proof (approve_keeps_keys GitHost create_pull_request pr_request_of
                  st gh job_id acting_user now) as Hk.
    destruct (approve _ _ _ st gh job_id acting_user now) as [[r st'] gh'].
    simpl in *. by rewrite Hk.
  - by apply delete_keeps_unique.
Qed.

Lemma fold_keeps_unique (ops : list Op) (w : Store * GitHost) :
  NoDup (map commit_key (jobs (fst w))) ->
  NoDup (map commit_key (jobs (fst
    (fold_left (perform hmac_sha256 decode_json owner_of GitHost
                        create_pull_request pr_request_of) ops w)))).
Proof.
  revert w. induction ops as [| op ops IH]; intros w Hnd; [exact Hnd |].
  simpl. apply IH. by apply perform_keeps_unique.
Qed.

(** C4: after every history of deliveries, transitions, approvals and
    clearings no two jobs of the store have the same (repository, commit)
    pair; and a delivery with a valid signature whose pair already has a
    job, terminal or not, returns that job without handing it to the
    pipeline and leaves the store, with the state of that job, as it
    was. *)
Theorem one_job_per_commit_and_redelivery_is_idempotent :
  (forall (gh : GitHost) (ops : list Op),
     NoDup (map commit_key (jobs (fst
       (run hmac_sha256 decode_json owner_of GitHost create_pull_request
            pr_request_of gh ops)))))
  /\ (forall (secret : string) (st : Store) (body signature : string) (now : nat)
             (p : Payload) (j : Job),
        verify hmac_sha256 decode_json secret body signature = Ok p ->
        find_by_commit st (p_repository_id p) (p_commit_sha p) = Some j ->
        handle_webhook hmac_sha256 decode_json owner_of secret st body signature now
        = (Ok (mkAccepted j false), st)).
Proof.
  split.
  - intros gh ops. unfold run. apply fold_keeps_unique. simpl. constructor.
  - intros secret st body signature now p j Hv Hfind.
    unfold handle_webhook, upsert. by rewrite Hv, Hfind.
Qed.

End History.

(** The scenario of section 8: a signed delivery creates a pending job;
    the tests return with two failures out of ten; the analysis returns a
    patch; the approval returns the reference of the pull request, which
    the approved job then holds. *)
Example scenario_approved :
  let '(st, gh) :=
    run example_hmac example_decode example_owner (list PRRequest)
        example_create_pull_request example_request []
        [Deliver "s3cret" "push acme/widgets abc123" "s3cret|push acme/widgets abc123" 1;
         Advance 0 PipelineStarted 2;
         Advance 0 (TestsReturned failing_tests) 3;
         Advance 0 (AnalysisReturned patching_analysis) 4;
         Approve 0 7 5] in
  (state <$> get st 0) = Some approved
  /\ (pr <$> get st 0) = Some (Some (mkPRRef "https://github.com/acme/widgets/pull/42" 42))
  /\ (test_result <$> get st 0) = Some (Some failing_tests)
  /\ length gh = 1%nat.
Proof. vm_compute. repeat split; reflexivity. Qed.

(** The scenario of section 8 in which the analyzer raises: the job
    fails with the reason recorded, and its approval is refused. *)
Example scenario_failed :
  let '(st, gh) :=
    run example_hmac example_decode example_owner (list PRRequest)
        example_create_pull_request example_request []
        [Deliver "s3cret" "push acme/widgets abc123" "s3cret|push acme/widgets abc123" 1;
         Advance 0 PipelineStarted 2;
         Advance 0 (TestsReturned failing_tests) 3;
         Advance 0 (AdapterError "analyzer: malformed response") 4] in
  (state <$> get st 0) = Some failed
  /\ (reason <$> get st 0) = Some (Some "analyzer: malformed response")
  /\ approve (list PRRequest) example_create_pull_request example_request st gh 0 7 5
     = (Err PreconditionError, st, gh).
Proof. vm_compute. repeat split; reflexivity. Qed.

(** C2, refuted as stated: the job of the store that is already
    approved is not in [ready_for_review], and [approve] does not fail
    on it: it returns the reference the job holds. *)
Lemma approve_of_approved_job_does_not_fail :
  ~ fails_unless_ready_for_review (list PRRequest) example_create_pull_request
      example_request.
Proof.
  intros H. specialize (H example_store [] 1%nat 7%nat 9%nat).
  assert (Hno : ~ (exists j, get example_store 1 = Some j
                             /\ state j = ready_for_review
                             /\ exists p, patch j = Some p /\ p <> EmptyString)).
  { intros [j [Hj [Hs _]]]. injection Hj as <-. discriminate Hs. }
  specialize (H Hno). vm_compute in H. discriminate H.
Qed.

(** The scenario of section 8 with the approval called twice: one pull
    request is requested, and the second call returns the reference the
    first one stored. *)
Example scenario_approved_twice :
  let '(st, gh) :=
    run example_hmac example_decode example_owner (list PRRequest)
        example_create_pull_request example_request []
        [Deliver "s3cret" "push acme/widgets abc123" "s3cret|push acme/widgets abc123" 1;
         Advance 0 PipelineStarted 2;
         Advance 0 (TestsReturned failing_tests) 3;
         Advance 0 (AnalysisReturned patching_analysis) 4;
         Approve 0 7 5] in
  approve (list PRRequest) example_create_pull_request example_request st gh 0 7 6
  = (Ok (mkPRRef "https://github.com/acme/widgets/pull/42" 42), st, gh)
  /\ length gh = 1%nat.
Proof. vm_compute. split; reflexivity. Qed.

(** A delivery whose signature does not match is refused and creates no
    job; a signed delivery whose body does not decode is refused as
    malformed and creates no job either. *)
Example deliveries_refused :
  handle_webhook example_hmac example_decode example_owner
                 "s3cret" empty_store "push acme/widgets abc123" "forged" 1
  = (Err AuthenticationError, empty_store)
  /\ handle_webhook example_hmac example_decode example_owner
                    "s3cret" empty_store "ping" "s3cret|ping" 1
     = (Err MalformedPayloadError, empty_store).
Proof. split; vm_compute; reflexivity. Qed.

(** The delivery of a commit whose pipeline is past [pending], sent
    again: still one job, still in the state it had reached. *)
Example redelivery_after_start :
  let '(st, _) :=
    run example_hmac example_decode example_owner (list PRRequest)
        example_create_pull_request example_request []
        [Deliver "s3cret" "push acme/widgets abc123" "s3cret|push acme/widgets abc123" 1;
         Advance 0 PipelineStarted 2;
         Deliver "s3cret" "push acme/widgets abc123" "s3cret|push acme/widgets abc123" 3] in
  length (jobs st) = 1%nat /\ (state <$> get st 0) = Some running_tests.
Proof. vm_compute. split; reflexivity. Qed.

End CoreProps.
